(** * createQueryStore: a shallow embedding of the query engine

    The development follows the fetch coordinator of [createQueryStore]:
    [fetch] with its inner [fetchOperation], [scheduleNextFetch],
    [abortActiveFetch], [getData], and the helpers [getQueryKey],
    [getCurrentResolvedParams] and [pruneCache]. The subscription manager,
    the signal graph and the persistence layer are collaborators: the
    engine below carries the values it reads from them.

    Conventions.
    - JavaScript numbers that hold timestamps and durations are integers
      in milliseconds ([Z]); a duration may also be [Infinity] ([num]).
      Retry counts are natural numbers.
    - Object identity of promises, abort controllers and timers is kept
      as a natural number drawn from a counter of the engine.
    - Every call to [Date.now()] made during one synchronous run reads the
      same millisecond, passed as [now].
    - An asynchronous function is split at its [await]: [fetch] runs up
      to the call of the fetcher and leaves an [Operation.t]; [settle]
      runs the rest once the fetcher's promise has settled.
    - The user callbacks [transform], [setData], [onFetched] and [onError]
      may return or throw; the numeric options given as functions
      ([cacheTime], [retryDelay]) are total.
    - [onFetched] is handed the store's [set] and [fetch]: a call of it is
      given by the calls it makes to them, in order, and by how it ends.
    - The listeners of the store are collaborators and an update of the
      state runs none of them here. The updates that [setData] and
      [onFetched] make are taken to leave [enabled] as it is: a change of
      [enabled] is followed up by the listener [handleSetEnabled] through
      the subscription manager.
    - Calls made to collaborators (fetcher, callbacks, logger) are
      recorded, in order, in the engine's event trace. Debug logging
      ([enableLogs]) is left out. *)

From Stdlib Require Import ZArith Bool Ascii String DecimalString List.
From stdpp Require Import base option list sorting strings gmap fin_maps.

Set Warnings "-register-all".

Open Scope Z_scope.

(** ** JSON values and [JSON.stringify] *)

(** Parameter values as [JSON.stringify] sees them. An object keeps the
    insertion order of its fields. *)
Inductive Value : Type :=
| VNull
| VUndefined
| VBool (b : bool)
| VNum (n : Z)
| VStr (s : string)
| VArr (items : list Value)
| VObj (fields : list (string * Value)).

(** A parameter map ([Record<string, unknown>]): the own enumerable
    properties in insertion order. A JavaScript object holds each key once;
    the theorems that need it say so with [NoDup]. *)
Abbreviation Params := (list (string * Value)).

(** The double quote character, code 34. *)
Definition dquote : ascii := ascii_of_N 34.

Definition hexDigit (n : N) : ascii :=
  match n with
  | 0 => "0" | 1 => "1" | 2 => "2" | 3 => "3" | 4 => "4" | 5 => "5"
  | 6 => "6" | 7 => "7" | 8 => "8" | 9 => "9" | 10 => "a" | 11 => "b"
  | 12 => "c" | 13 => "d" | 14 => "e" | _ => "f"
  end%N%char.

(** The escape of one character inside a JSON string literal. *)
Definition escapeChar (c : ascii) : string :=
  let n := N_of_ascii c in
  if (n =? 34)%N then String "\" (String dquote EmptyString)
  else if (n =? 92)%N then String "\" (String "\" EmptyString)
  else if (n =? 8)%N then String "\" (String "b" EmptyString)
  else if (n =? 12)%N then String "\" (String "f" EmptyString)
  else if (n =? 10)%N then String "\" (String "n" EmptyString)
  else if (n =? 13)%N then String "\" (String "r" EmptyString)
  else if (n =? 9)%N then String "\" (String "t" EmptyString)
  else if (n <? 32)%N then
    String "\" (String "u" (String "0" (String "0"
      (String (hexDigit (n / 16)) (String (hexDigit (n mod 16)) EmptyString)))))
  else String c EmptyString.

Fixpoint escapeChars (s : string) : string :=
  match s with
  | EmptyString => EmptyString
  | String c rest => String.append (escapeChar c) (escapeChars rest)
  end.

Definition quote (s : string) : string :=
  String dquote (String.append (escapeChars s) (String dquote EmptyString)).

Definition numberToString (n : Z) : string :=
  NilZero.string_of_int (Z.to_int n).

(** [JSON.stringify] on a value. The result is [None] where JavaScript
    yields [undefined] (the value [undefined] itself); inside an array such
    an element is written [null], inside an object the field is left out. *)
Fixpoint stringify (v : Value) : option string :=
  match v with
  | VNull => Some "null"%string
  | VUndefined => None
  | VBool true => Some "true"%string
  | VBool false => Some "false"%string
  | VNum n => Some (numberToString n)
  | VStr s => Some (quote s)
  | VArr items =>
      let elem x := match stringify x with Some s => s | None => "null"%string end in
      let fix elems (l : list Value) : string :=
        match l with
        | nil => EmptyString
        | x :: nil => elem x
        | x :: rest => String.append (elem x) (String "," (elems rest))
        end in
      Some (String "[" (String.append (elems items) (String "]" EmptyString)))
  | VObj fields =>
      let fix members (first : bool) (l : list (string * Value)) : string :=
        match l with
        | nil => EmptyString
        | (k, x) :: rest =>
            match stringify x with
            | Some s =>
                String.append (if first then EmptyString else String "," EmptyString)
                  (String.append (quote k)
                     (String ":" (String.append s (members false rest))))
            | None => members first rest
            end
        end in
      Some (String "{" (String.append (members true fields) (String "}" EmptyString)))
  end.

(** [JSON.stringify(array)] always yields a string. *)
Definition JSON_stringify (items : list Value) : string :=
  match stringify (VArr items) with Some s => s | None => EmptyString end.

(** ** Keys of a parameter map *)

(** The default order of [Array.prototype.sort] on strings: code units
    compared lexicographically. *)
Definition key_le (a b : string) : Prop := String.leb a b = true.

#[global] Instance key_le_dec : RelDecision key_le.
Proof. intros a b. unfold key_le. apply _. Defined.

(** [params[key]]: the value bound to [key], [undefined] when absent. *)
Fixpoint getProp (params : Params) (key : string) : Value :=
  match params with
  | nil => VUndefined
  | (k, v) :: rest => if String.eqb k key then v else getProp rest key
  end.

(** [Object.keys(params)]. The engine sorts the keys before use, so the
    enumeration order is immaterial. *)
Definition Object_keys (params : Params) : list string := params.*1.

Definition getQueryKey (params : Params) : string :=
  JSON_stringify (getProp params <$> merge_sort key_le (Object_keys params)).

(** [getCurrentResolvedParams] assigns [currentParams[k] = value]: an
    existing key keeps its place, a new key goes last. *)
Fixpoint assignProp (key : string) (value : Value) (params : Params) : Params :=
  match params with
  | nil => (key, value) :: nil
  | (k, v) :: rest =>
      if String.eqb k key then (k, value) :: rest
      else (k, v) :: assignProp key value rest
  end.

(** [attachVals] holds the current [.value] of every reactive parameter
    ([None] stands for [null]); [directValues] holds the static ones. The
    source writes the merged values back into [directValues.params]; a
    later call overwrites the same keys, so the returned map is the one
    computed here. *)
Definition getCurrentResolvedParams
    (attachVals directValues : option Params) : Params :=
  let currentParams := default nil directValues in
  fold_left (fun acc kv => assignProp kv.1 kv.2 acc) (default nil attachVals) currentParams.

(** ** Numbers, statuses, thrown values *)

(** A duration in milliseconds, or [Infinity]. *)
Inductive num : Type :=
| Finite (ms : Z)
| Infinity.

(** [z <= n] and [z >= n] for an integer [z] against a duration [n]. *)
Definition leb_num (z : Z) (n : num) : bool :=
  match n with Finite m => z <=? m | Infinity => true end.

Definition geb_num (z : Z) (n : num) : bool :=
  match n with Finite m => m <=? z | Infinity => false end.

(** [QueryStatuses]. *)
Inductive QueryStatus : Type :=
| Error
| Idle
| Loading
| Success.

#[global] Instance QueryStatus_eq_dec : EqDecision QueryStatus.
Proof. solve_decision. Defined.

(** What a [catch] clause can receive. [RainbowError] is the logger's
    subclass of [Error] (declared outside these sources); its [name] is
    taken to differ from ['AbortError']. [NotAnError] is any thrown value
    that is not an instance of [Error], with [text] its [String(x)]. *)
Inductive Thrown : Type :=
| ABORT_ERROR
| ErrorObject (name message : string)
| RainbowError (message : string) (cause : option Thrown)
| NotAnError (text : string).

(** [error === ABORT_ERROR || (error instanceof Error && error.name === 'AbortError')] *)
Definition isAbortError (error : Thrown) : bool :=
  match error with
  | ABORT_ERROR => true
  | ErrorObject name _ => String.eqb name "AbortError"
  | RainbowError _ _ => false
  | NotAnError _ => false
  end.

(** [error instanceof Error ? error : new Error(String(error))] *)
Definition typedErrorOf (error : Thrown) : Thrown :=
  match error with
  | NotAnError text => ErrorObject "Error" text
  | _ => error
  end.

(** The result of calling a user callback. *)
Inductive Outcome (A : Type) : Type :=
| Returns (a : A)
| Throws (t : Thrown).
Arguments Returns {A} a.
Arguments Throws {A} t.

(** How a promise settles. *)
Inductive Settlement (A : Type) : Type :=
| Fulfilled (a : A)
| Rejected (t : Thrown).
Arguments Fulfilled {A} a.
Arguments Rejected {A} t.

(** ** Records of the engine *)

Module FetchOptions.
Record t : Type := mk {
    cacheTime : option num;
    force : bool;
    skipStoreUpdates : bool;
    staleTime : option num;
  }.
End FetchOptions.

(** [!!options?.force] and [!!options?.skipStoreUpdates] *)
Definition forced (options : option FetchOptions.t) : bool :=
  match options with Some o => FetchOptions.force o | None => false end.

Definition skipsStoreUpdates (options : option FetchOptions.t) : bool :=
  match options with Some o => FetchOptions.skipStoreUpdates o | None => false end.

Module ErrorInfo.
Record t : Type := mk {
    error : Thrown;
    lastFailedAt : Z;
    retryCount : nat;
  }.
End ErrorInfo.

Module CacheEntry.
  (** The two arms of the union in [CacheEntry<TData>]:
      [{ errorInfo: {...}; lastFetchedAt: null }] and
      [{ errorInfo: {...} | null; lastFetchedAt: number }]. *)
Inductive Stamp : Type :=
  | NeverFetched (info : ErrorInfo.t)
  | FetchedAt (at_ : Z) (info : option ErrorInfo.t).

Record t (Data : Type) : Type := mk {
    cacheTime : num;
    data : option Data;
    stamp : Stamp;
  }.
Arguments mk {Data} _ _ _.
Arguments cacheTime {Data} _.
Arguments data {Data} _.
Arguments stamp {Data} _.

Definition lastFetchedAt {Data} (e : t Data) : option Z :=
    match stamp e with NeverFetched _ => None | FetchedAt at_ _ => Some at_ end.

Definition errorInfo {Data} (e : t Data) : option ErrorInfo.t :=
    match stamp e with NeverFetched info => Some info | FetchedAt _ info => info end.

  (** [entry.lastFetchedAt ?? entry.errorInfo.lastFailedAt] *)
Definition lastTouchedAt {Data} (e : t Data) : Z :=
    match stamp e with
    | FetchedAt at_ _ => at_
    | NeverFetched info => ErrorInfo.lastFailedAt info
    end.

  (** The entry literal of the success path:
      [{ cacheTime, data, errorInfo: null, lastFetchedAt }]. *)
Definition fetched {Data} (cacheTime : num) (data : option Data) (lastFetchedAt : Z) : t Data :=
    mk cacheTime data (FetchedAt lastFetchedAt None).

  (** The entry literal of the error path:
      [{ cacheTime, data, lastFetchedAt, errorInfo: {...} }]. *)
Definition failed {Data} (cacheTime : num) (data : option Data)
      (lastFetchedAt : option Z) (info : ErrorInfo.t) : t Data :=
    mk cacheTime data
      match lastFetchedAt with
      | Some at_ => FetchedAt at_ (Some info)
      | None => NeverFetched info
      end.
End CacheEntry.

Module StoreState.
Record t (Data : Type) : Type := mk {
    enabled : bool;
    error : option Thrown;
    lastFetchedAt : option Z;
    queryCache : gmap string (CacheEntry.t Data);
    queryKey : string;
    status : QueryStatus;
  }.
Arguments mk {Data} _ _ _ _ _ _.
Arguments enabled {Data} _.
Arguments error {Data} _.
Arguments lastFetchedAt {Data} _.
Arguments queryCache {Data} _.
Arguments queryKey {Data} _.
Arguments status {Data} _.
End StoreState.

(** One call that [onFetched] makes through its argument
    [{ data, fetch, params, set }]: [set(partial)], given by the update
    it makes to the state ([{ ...state, ...partial }], or the same with
    [partial(state)]), or [fetch(params, options)], with what the fetcher
    throws synchronously on that call, if it does. *)
Inductive FetchedAction (Data : Type) : Type :=
| CallSet (update : StoreState.t Data → StoreState.t Data)
| CallFetch (params : option Params) (options : option FetchOptions.t)
    (thrownByFetcher : option Thrown).
Arguments CallSet {Data} update.
Arguments CallFetch {Data} params options thrownByFetcher.

(** What one call of [onFetched] does: the calls it makes to [set] and
    [fetch] before it ends, and whether it returns or throws. *)
Module OnFetched.
Record t (Data : Type) : Type := mk {
    calls : list (FetchedAction Data);
    outcome : Outcome unit;
  }.
Arguments mk {Data} _ _.
Arguments calls {Data} _.
Arguments outcome {Data} _.
End OnFetched.

(** The configuration read by [createQueryStore]. [enabled] and [params]
    are the static forms; the user callbacks are given by what a call
    returns or throws. [setData] receives the store's [set] restricted to
    the state under construction: its net effect is a function of
    [newState]. [onFetched] receives the [set] and [fetch] of the store.
    [asTData] is not part of it: see the section below. *)
Module Config.
Record t (Raw Data : Type) : Type := mk {
    abortInterruptedFetches : bool;
    cacheTime : num + (Params → num);
    disableAutoRefetching : bool;
    disableCache : bool;
    enabled : bool;
    keepPreviousData : bool;
    maxRetries : nat;
    onError : option (Thrown → nat → Outcome unit);
    onFetched : option (Data → Params → OnFetched.t Data);
    params : option Params;
    retryDelay : num + (nat → Thrown → num);
    setData : option (Data → Params → string → StoreState.t Data → Outcome (StoreState.t Data));
    staleTime : num;
    storageKey : option string;
    transform : option (Raw → Params → Outcome Data);
  }.
Arguments mk {Raw Data} _ _ _ _ _ _ _ _ _ _ _ _ _ _ _.
Arguments abortInterruptedFetches {Raw Data} _.
Arguments cacheTime {Raw Data} _.
Arguments disableAutoRefetching {Raw Data} _.
Arguments disableCache {Raw Data} _.
Arguments enabled {Raw Data} _.
Arguments keepPreviousData {Raw Data} _.
Arguments maxRetries {Raw Data} _.
Arguments onError {Raw Data} _.
Arguments onFetched {Raw Data} _.
Arguments params {Raw Data} _.
Arguments retryDelay {Raw Data} _.
Arguments setData {Raw Data} _.
Arguments staleTime {Raw Data} _.
Arguments storageKey {Raw Data} _.
Arguments transform {Raw Data} _.
End Config.

(** [subscriptionManager.get()]: the class lives outside these sources;
    the engine reads only this snapshot. *)
Module Subscription.
Record t : Type := mk {
    enabled : bool;
    subscriptionCount : nat;
  }.
End Subscription.

(** [activeFetch: { key: string; promise?: Promise<TData | null> }] *)
Module ActiveFetch.
Record t : Type := mk {
    key : string;
    promise : option nat;
  }.
End ActiveFetch.

(** A pending [setTimeout]. Both callbacks of the engine have the same
    body: [if (enabled && subscriptionCount > 0) fetch(params, { force: true })]. *)
Module Timer.
Record t : Type := mk {
    id : nat;
    delay : Z;
    params : option Params;
  }.
End Timer.

(** One run of [fetchOperation] suspended at its [await]: the variables
    its continuation closes over. *)
Module Operation.
Record t : Type := mk {
    params : option Params;
    effectiveParams : Params;
    currentQueryKey : string;
    options : option FetchOptions.t;
    controller : option nat;
    promise : nat;
  }.
Definition skipStoreUpdates (op : t) : bool := skipsStoreUpdates (options op).
End Operation.

Inductive LogMessage : Type :=
| FailedToFetchData
| OnFetchedCallbackFailed.

(** Calls that leave the engine. *)
Inductive Event (Data : Type) : Type :=
| FetcherCalled (params : Params) (controller : option nat)
| AbortSignalled (controller : nat)
| OnErrorCalled (error : Thrown) (retryCount : nat)
| OnFetchedCalled (data : Data) (params : Params)
| SetDataCalled (data : Data) (queryKey : string)
| LoggerError (message : LogMessage) (context : string) (cause : Thrown).
Arguments FetcherCalled {Data} _ _.
Arguments AbortSignalled {Data} _.
Arguments OnErrorCalled {Data} _ _.
Arguments OnFetchedCalled {Data} _ _.
Arguments SetDataCalled {Data} _ _.
Arguments LoggerError {Data} _ _ _.

(** What the body of the async function [fetch] returns: a plain value, or
    a promise that the call then follows. *)
Inductive Returned (Data : Type) : Type :=
| ReturnValue (v : option Data)
| ReturnPromise (p : nat).
Arguments ReturnValue {Data} v.
Arguments ReturnPromise {Data} p.

(** The store returned by zustand's [get()], the [let] variables of
    [createQueryStore], and the platform state the engine drives. *)
Module Engine.
Record t (Data : Type) : Type := mk {
    state : StoreState.t Data;
    subscriptionManager : Subscription.t;
    attachVals : option Params;
    directValues : option Params;
    activeAbortController : option nat;
    activeFetch : option ActiveFetch.t;
    activeRefetchTimeout : option nat;
    lastFetchKey : option string;
    timers : list Timer.t;
    promises : gmap nat (Settlement (option Data));
    fresh : nat;
    trace : list (Event Data);
  }.
Arguments mk {Data} _ _ _ _ _ _ _ _ _ _ _ _.
Arguments state {Data} _.
Arguments subscriptionManager {Data} _.
Arguments attachVals {Data} _.
Arguments directValues {Data} _.
Arguments activeAbortController {Data} _.
Arguments activeFetch {Data} _.
Arguments activeRefetchTimeout {Data} _.
Arguments lastFetchKey {Data} _.
Arguments timers {Data} _.
Arguments promises {Data} _.
Arguments fresh {Data} _.
Arguments trace {Data} _.

Section Update.
Context {Data : Type}.
Implicit Type w : t Data.

Definition setState (s : StoreState.t Data) w : t Data :=
      mk s (subscriptionManager w) (attachVals w) (directValues w)
        (activeAbortController w) (activeFetch w) (activeRefetchTimeout w)
        (lastFetchKey w) (timers w) (promises w) (fresh w) (trace w).

Definition setActiveAbortController (c : option nat) w : t Data :=
      mk (state w) (subscriptionManager w) (attachVals w) (directValues w)
        c (activeFetch w) (activeRefetchTimeout w)
        (lastFetchKey w) (timers w) (promises w) (fresh w) (trace w).

Definition setActiveFetch (f : option ActiveFetch.t) w : t Data :=
      mk (state w) (subscriptionManager w) (attachVals w) (directValues w)
        (activeAbortController w) f (activeRefetchTimeout w)
        (lastFetchKey w) (timers w) (promises w) (fresh w) (trace w).

Definition setLastFetchKey (k : option string) w : t Data :=
      mk (state w) (subscriptionManager w) (attachVals w) (directValues w)
        (activeAbortController w) (activeFetch w) (activeRefetchTimeout w)
        k (timers w) (promises w) (fresh w) (trace w).

    (** Draw a fresh identity. *)
Definition allocate w : nat * t Data :=
      (fresh w,
       mk (state w) (subscriptionManager w) (attachVals w) (directValues w)
         (activeAbortController w) (activeFetch w) (activeRefetchTimeout w)
         (lastFetchKey w) (timers w) (promises w) (S (fresh w)) (trace w)).

Definition emit (e : Event Data) w : t Data :=
      mk (state w) (subscriptionManager w) (attachVals w) (directValues w)
        (activeAbortController w) (activeFetch w) (activeRefetchTimeout w)
        (lastFetchKey w) (timers w) (promises w) (fresh w) (trace w ++ [e]).

    (** [activeRefetchTimeout = setTimeout(callback, delay)] *)
Definition setTimeout (delay : Z) (params : option Params) w : t Data :=
      mk (state w) (subscriptionManager w) (attachVals w) (directValues w)
        (activeAbortController w) (activeFetch w) (Some (fresh w))
        (lastFetchKey w) (timers w ++ [Timer.mk (fresh w) delay params])
        (promises w) (S (fresh w)) (trace w).

    (** [if (activeRefetchTimeout) { clearTimeout(activeRefetchTimeout);
        activeRefetchTimeout = null }] *)
Definition clearActiveRefetchTimeout w : t Data :=
      match activeRefetchTimeout w with
      | None => w
      | Some handle =>
          mk (state w) (subscriptionManager w) (attachVals w) (directValues w)
            (activeAbortController w) (activeFetch w) None
            (lastFetchKey w)
            (filter (fun timer => Timer.id timer ≠ handle) (timers w))
            (promises w) (fresh w) (trace w)
      end.

    (** The promise [p] settles with [r]. *)
Definition settlePromise (p : nat) (r : Settlement (option Data)) w : t Data :=
      mk (state w) (subscriptionManager w) (attachVals w) (directValues w)
        (activeAbortController w) (activeFetch w) (activeRefetchTimeout w)
        (lastFetchKey w) (timers w) (<[p := r]> (promises w)) (fresh w) (trace w).
End Update.
End Engine.

(** ** [pruneCache] *)

(** [isValid] of the loop body; an entry bound in the map is never
    [undefined], so [!!entry] holds. *)
Definition isValid {Data} (pruneTime : Z) (preserve : option string)
    (key : string) (entry : CacheEntry.t Data) : bool :=
  leb_num (pruneTime - CacheEntry.lastTouchedAt entry) (CacheEntry.cacheTime entry)
  || bool_decide (Some key = preserve).

(** [keyToPreserve ?? ((keepPreviousData && state.queryKey) || null)] *)
Definition preservedKey {Data} (keepPreviousData : bool) (keyToPreserve : option string)
    (state : StoreState.t Data) : option string :=
  match keyToPreserve with
  | Some key => Some key
  | None =>
      if keepPreviousData && negb (String.eqb (StoreState.queryKey state) "")
      then Some (StoreState.queryKey state)
      else None
  end.

(** Both callers pass a state that has a [queryCache], so the guard
    [if (!state.queryCache) return state] does not fire. *)
Definition pruneCache {Data} (keepPreviousData : bool) (keyToPreserve : option string)
    (pruneTime : Z) (state : StoreState.t Data) : StoreState.t Data :=
  let preserve := preservedKey keepPreviousData keyToPreserve state in
  let prunedSomething :=
    bool_decide (map_Exists (fun key entry => isValid pruneTime preserve key entry = false)
                   (StoreState.queryCache state)) in
  let newCache :=
    filter (fun kv => isValid pruneTime preserve kv.1 kv.2 = true)
      (StoreState.queryCache state) in
  if prunedSomething then
    StoreState.mk (StoreState.enabled state) (StoreState.error state)
      (StoreState.lastFetchedAt state) newCache
      (StoreState.queryKey state) (StoreState.status state)
  else state.

(** ** The engine *)

Section createQueryStore.
Context {Raw Data : Type}.

(** [rawResult as TData]: the cast applied when no [transform] is given. *)
Variable asTData : Raw → Data.
Variable config : Config.t Raw Data.

Implicit Type w : Engine.t Data.

Definition initialData : StoreState.t Data :=
  StoreState.mk (Config.enabled config) None None ∅ "" Idle.

(** The engine as [createQueryStore] leaves it, for a store that is not
    rehydrated from storage. *)
Definition initialEngine : Engine.t Data :=
  Engine.mk initialData
    (Subscription.mk (Config.enabled config) 0)
    (match Config.params config with Some _ => Some nil | None => None end)
    (Config.params config)
    None None None None nil ∅ 0%nat nil.

Definition abortActiveFetch w : Engine.t Data :=
  match Engine.activeAbortController w with
  | Some controller =>
      Engine.setActiveAbortController None (Engine.emit (AbortSignalled controller) w)
  | None => w
  end.

(** [cacheTimeIsFunction ? cacheTime(effectiveParams) : cacheTime] *)
Definition resolvedCacheTime (effectiveParams : Params) : num :=
  match Config.cacheTime config with
  | inl n => n
  | inr f => f effectiveParams
  end.

(** [x || null] on a timestamp: [0] is falsy. *)
Definition orNull (t : option Z) : option Z :=
  match t with
  | Some at_ => if at_ =? 0 then None else Some at_
  | None => None
  end.

(** [(disableCache
        ? lastFetchKey === key && get().lastFetchedAt
        : get().queryCache[key]?.lastFetchedAt) || null] *)
Definition knownLastFetchedAt (key : string) w : option Z :=
  orNull
    (if Config.disableCache config then
       if bool_decide (Engine.lastFetchKey w = Some key)
       then StoreState.lastFetchedAt (Engine.state w)
       else None
     else StoreState.queryCache (Engine.state w) !! key ≫= CacheEntry.lastFetchedAt).

(** [options?.staleTime ?? staleTime] *)
Definition effectiveStaleTimeOf (options : option FetchOptions.t) : num :=
  default (Config.staleTime config) (options ≫= FetchOptions.staleTime).

(** [lastFetchedAt ? effectiveStaleTime - (Date.now() - lastFetchedAt)
                   : effectiveStaleTime] *)
Definition timeUntilRefetch (effectiveStaleTime now : Z) (lastFetchedAt : option Z) : Z :=
  match lastFetchedAt with
  | Some at_ => effectiveStaleTime - (now - at_)
  | None => effectiveStaleTime
  end.

Definition scheduleNextFetch (params : Params) (options : option FetchOptions.t)
    (now : Z) w : Engine.t Data :=
  if Config.disableAutoRefetching config then w
  else
    match effectiveStaleTimeOf options with
    | Infinity => w
    | Finite effectiveStaleTime =>
        if effectiveStaleTime <=? 0 then w
        else
          let w1 := Engine.clearActiveRefetchTimeout w in
          let currentQueryKey := getQueryKey params in
          let lastFetchedAt := knownLastFetchedAt currentQueryKey w1 in
          Engine.setTimeout (timeUntilRefetch effectiveStaleTime now lastFetchedAt)
            (Some params) w1
    end.

Definition getData (params : option Params) (now : Z) w : option Data :=
  if Config.disableCache config then None
  else
    let currentQueryKey :=
      match params with
      | Some p => getQueryKey p
      | None => StoreState.queryKey (Engine.state w)
      end in
    let cacheEntry := StoreState.queryCache (Engine.state w) !! currentQueryKey in
    if Config.keepPreviousData config then cacheEntry ≫= CacheEntry.data
    else
      let isExpired :=
        match cacheEntry with
        | Some entry =>
            match orNull (CacheEntry.lastFetchedAt entry) with
            | Some at_ => negb (leb_num (now - at_) (CacheEntry.cacheTime entry))
            | None => false
            end
        | None => false
        end in
      if isExpired then None else cacheEntry ≫= CacheEntry.data.

(** *** The error path of [fetchOperation] *)

(** [persistConfig?.storageKey || currentQueryKey] *)
Definition logContext (currentQueryKey : string) : string :=
  match Config.storageKey config with
  | Some storageKey => if String.eqb storageKey "" then currentQueryKey else storageKey
  | None => currentQueryKey
  end.

(** The state written by both [set] calls of the error path; they differ
    in [retryCount] only. [entry] is the entry read before the call. *)
Definition recordFailure (op : Operation.t) (typedError : Thrown)
    (entry : option (CacheEntry.t Data)) (retryCount : nat) (now : Z)
    (state : StoreState.t Data) : StoreState.t Data :=
  let currentQueryKey := Operation.currentQueryKey op in
  StoreState.mk (StoreState.enabled state)
    (Some typedError)
    (StoreState.lastFetchedAt state)
    (<[currentQueryKey :=
        CacheEntry.failed
          (default (resolvedCacheTime (Operation.effectiveParams op))
             (CacheEntry.cacheTime <$> entry))
          (entry ≫= CacheEntry.data)
          (entry ≫= CacheEntry.lastFetchedAt)
          (ErrorInfo.mk typedError now retryCount)]>
       (StoreState.queryCache state))
    (if Config.keepPreviousData config then currentQueryKey else StoreState.queryKey state)
    Error.

(** [typeof retryDelay === 'function' ? retryDelay(count, error) : retryDelay] *)
Definition errorRetryDelayOf (currentRetryCount : nat) (typedError : Thrown) : num :=
  match Config.retryDelay config with
  | inl n => n
  | inr f => f currentRetryCount typedError
  end.

(** The [catch] clause of [fetchOperation]. *)
Definition catchClause (op : Operation.t) (error : Thrown) (now : Z) w
    : Settlement (option Data) * Engine.t Data :=
  let currentQueryKey := Operation.currentQueryKey op in
  if isAbortError error then (Fulfilled None, w)
  else if Operation.skipStoreUpdates op then
    (Fulfilled None,
     Engine.emit (LoggerError FailedToFetchData (logContext currentQueryKey) error) w)
  else
    let typedError := typedErrorOf error in
    let entry :=
      if Config.disableCache config then None
      else StoreState.queryCache (Engine.state w) !! currentQueryKey in
    let currentRetryCount :=
      default 0%nat (ErrorInfo.retryCount <$> (entry ≫= CacheEntry.errorInfo)) in
    let called :=
      match Config.onError config with
      | Some onError =>
          (onError typedError currentRetryCount,
           Engine.emit (OnErrorCalled typedError currentRetryCount) w)
      | None => (Returns tt, w)
      end in
    match called with
    | (Throws thrown, w1) => (Rejected thrown, w1)
    | (Returns _, w1) =>
        let w2 :=
          if (currentRetryCount <? Config.maxRetries config)%nat then
            let w' :=
              if (0 <? Subscription.subscriptionCount (Engine.subscriptionManager w1))%nat then
                match errorRetryDelayOf currentRetryCount typedError with
                | Finite errorRetryDelay =>
                    Engine.setTimeout errorRetryDelay (Operation.params op) w1
                | Infinity => w1
                end
              else w1 in
            Engine.setState
              (recordFailure op typedError entry (currentRetryCount + 1) now (Engine.state w'))
              w'
          else
            Engine.setState
              (recordFailure op typedError entry (Config.maxRetries config) now (Engine.state w1))
              w1 in
        (Fulfilled None,
         Engine.emit (LoggerError FailedToFetchData (logContext currentQueryKey) error) w2)
    end.

(** [finally { if (!skipStoreUpdates) activeFetch = null }] *)
Definition finallyClause (op : Operation.t) w : Engine.t Data :=
  if Operation.skipStoreUpdates op then w else Engine.setActiveFetch None w.

(** *** [fetch] *)

(** The deduplication guard: the promise of [activeFetch] when
    [activeFetch?.promise && activeFetch.key === currentQueryKey &&
     isLoading && !options?.force]. *)
Definition inFlightPromise (currentQueryKey : string) (isLoading : bool)
    (options : option FetchOptions.t) w : option nat :=
  match Engine.activeFetch w with
  | Some active =>
      match ActiveFetch.promise active with
      | Some p =>
          if String.eqb (ActiveFetch.key active) currentQueryKey
             && isLoading && negb (forced options)
          then Some p else None
      | None => None
      end
  | None => None
  end.

(** The block under [if (!options?.force)]: [Some] when it returns cached
    data, [None] when control falls through. *)
Definition cachedResult (effectiveParams : Params) (currentQueryKey : string)
    (options : option FetchOptions.t) (now : Z) w : option (option Data * Engine.t Data) :=
  let storeQueryKey := StoreState.queryKey (Engine.state w) in
  let cacheEntry := StoreState.queryCache (Engine.state w) !! currentQueryKey in
  let errorInfo := cacheEntry ≫= CacheEntry.errorInfo in
  let errorRetriesExhausted :=
    match errorInfo with
    | Some info => (Config.maxRetries config <=? ErrorInfo.retryCount info)%nat
    | None => false
    end in
  let lastFetchedAt := knownLastFetchedAt currentQueryKey w in
  let isStale :=
    match lastFetchedAt with
    | None => true
    | Some at_ => geb_num (now - at_) (effectiveStaleTimeOf options)
    end in
  if negb isStale && (negb (bool_decide (is_Some errorInfo)) || errorRetriesExhausted) then
    let w1 :=
      if negb (bool_decide (is_Some (Engine.activeRefetchTimeout w)))
         && (0 <? Subscription.subscriptionCount (Engine.subscriptionManager w))%nat
         && match Config.staleTime config with
            | Finite 0 => false
            | Infinity => false
            | Finite _ => true
            end
      then scheduleNextFetch effectiveParams options now w
      else w in
    let w2 :=
      if Config.keepPreviousData config && negb (String.eqb storeQueryKey currentQueryKey)
      then
        let state := Engine.state w1 in
        Engine.setState
          (StoreState.mk (StoreState.enabled state) (StoreState.error state)
             (StoreState.lastFetchedAt state) (StoreState.queryCache state)
             currentQueryKey (StoreState.status state)) w1
      else w1 in
    Some (cacheEntry ≫= CacheEntry.data, w2)
  else None.

(** The result of one call: what the body returned, the operation left
    suspended at its [await] (if any), and the engine afterwards. *)
Record Call : Type := mkCall {
  returned : Returned Data;
  pending : option Operation.t;
  engine : Engine.t Data;
}.

(** Calling the fetcher and reaching the [await] of [fetchOperation].
    [thrownByFetcher] is what the fetcher throws synchronously, if it does.
    Inside [fetchWithAbortControl] the fetcher runs in a promise executor,
    so a synchronous throw only rejects the awaited promise: it arrives
    later through [settle]. Without abort control the throw is caught at
    once, and [catch] and [finally] run before [fetchOperation()] returns
    its promise. *)
Definition startOperation (params : option Params) (effectiveParams : Params)
    (currentQueryKey : string) (options : option FetchOptions.t) (now : Z)
    (thrownByFetcher : option Thrown) w : Call :=
  let skipStoreUpdates := skipsStoreUpdates options in
  let assign (p : nat) (w' : Engine.t Data) :=
    if skipStoreUpdates then w'
    else Engine.setActiveFetch (Some (ActiveFetch.mk currentQueryKey (Some p))) w' in
  if Config.abortInterruptedFetches config && negb skipStoreUpdates then
    let (controller, w1) := Engine.allocate w in
    let w2 := Engine.setActiveAbortController (Some controller) w1 in
    let w3 := Engine.emit (FetcherCalled effectiveParams (Some controller)) w2 in
    let (p, w4) := Engine.allocate w3 in
    let op := Operation.mk params effectiveParams currentQueryKey options (Some controller) p in
    mkCall (ReturnPromise p) (Some op) (assign p w4)
  else
    let w1 := Engine.emit (FetcherCalled effectiveParams None) w in
    let (p, w2) := Engine.allocate w1 in
    let op := Operation.mk params effectiveParams currentQueryKey options None p in
    match thrownByFetcher with
    | Some thrown =>
        let run := catchClause op thrown now w2 in
        let w3 := Engine.settlePromise p run.1 (finallyClause op run.2) in
        mkCall (ReturnPromise p) None (assign p w3)
    | None => mkCall (ReturnPromise p) (Some op) (assign p w2)
    end.

Definition fetch (params : option Params) (options : option FetchOptions.t)
    (now : Z) (thrownByFetcher : option Thrown) w : Call :=
  if negb (forced options) && negb (Subscription.enabled (Engine.subscriptionManager w))
  then mkCall (ReturnValue None) None w
  else
    let error := StoreState.error (Engine.state w) in
    let status := StoreState.status (Engine.state w) in
    let effectiveParams :=
      default (getCurrentResolvedParams (Engine.attachVals w) (Engine.directValues w)) params in
    let currentQueryKey := getQueryKey effectiveParams in
    let isLoading := bool_decide (status = Loading) in
    let skipStoreUpdates := skipsStoreUpdates options in
    match inFlightPromise currentQueryKey isLoading options w with
    | Some p => mkCall (ReturnPromise p) None w
    | None =>
        let w1 :=
          if Config.abortInterruptedFetches config && negb skipStoreUpdates
          then abortActiveFetch w else w in
        match (if forced options then None
               else cachedResult effectiveParams currentQueryKey options now w1) with
        | Some (cached, w2) => mkCall (ReturnValue cached) None w2
        | None =>
            let w2 :=
              if skipStoreUpdates then w1
              else
                let w' :=
                  if bool_decide (is_Some error) || negb isLoading then
                    let state := Engine.state w1 in
                    Engine.setState
                      (StoreState.mk (StoreState.enabled state) None
                         (StoreState.lastFetchedAt state) (StoreState.queryCache state)
                         (StoreState.queryKey state) Loading) w1
                  else w1 in
                Engine.setActiveFetch (Some (ActiveFetch.mk currentQueryKey None)) w' in
            startOperation params effectiveParams currentQueryKey options now thrownByFetcher w2
        end
    end.

(** *** The success path of [fetchOperation] *)

(** The first part of the updater passed to [set] on success: the state
    with the fetched entry written, before pruning. It throws when
    [setData] throws. *)
Definition writeSuccess (op : Operation.t) (transformedData : Data) (now : Z)
    (state : StoreState.t Data) : Outcome (StoreState.t Data) :=
  let currentQueryKey := Operation.currentQueryKey op in
  let lastFetchedAt := now in
  let newState :=
    StoreState.mk (StoreState.enabled state) None (Some lastFetchedAt)
      (StoreState.queryCache state)
      (if Config.keepPreviousData config then currentQueryKey else StoreState.queryKey state)
      Success in
  let withEntry (data : option Data) (s : StoreState.t Data) :=
    StoreState.mk (StoreState.enabled s) (StoreState.error s) (StoreState.lastFetchedAt s)
      (<[currentQueryKey :=
          CacheEntry.fetched (resolvedCacheTime (Operation.effectiveParams op)) data lastFetchedAt]>
         (StoreState.queryCache s))
      (StoreState.queryKey s) (StoreState.status s) in
  match Config.setData config with
  | None =>
      if Config.disableCache config then Returns newState
      else Returns (withEntry (Some transformedData) newState)
  | Some setData =>
      match setData transformedData (Operation.effectiveParams op) currentQueryKey newState with
      | Throws thrown => Throws thrown
      | Returns s =>
          if Config.disableCache config then Returns s
          else Returns (withEntry None s)
      end
  end.

(** [cacheTime === Infinity], on the configured value. *)
Definition cacheTimeIsInfinity : bool :=
  match Config.cacheTime config with
  | inl Infinity => true
  | _ => false
  end.

(** The whole updater:
    [disableCache || cacheTime === Infinity
       ? newState : pruneCache(keepPreviousData, currentQueryKey, newState)].
    When it throws the store is left as it was. *)
Definition commitSuccess (op : Operation.t) (transformedData : Data) (now : Z)
    (state : StoreState.t Data) : Outcome (StoreState.t Data) :=
  match writeSuccess op transformedData now state with
  | Throws thrown => Throws thrown
  | Returns newState =>
      if Config.disableCache config || cacheTimeIsInfinity then Returns newState
      else Returns (pruneCache (Config.keepPreviousData config)
                      (Some (Operation.currentQueryKey op)) now newState)
  end.

(** [transform ? transform(rawResult, effectiveParams) : (rawResult as TData)],
    with the inner [try]/[catch] that wraps what [transform] throws. *)
Definition applyTransform (op : Operation.t) (rawResult : Raw) : Outcome Data :=
  match Config.transform config with
  | Some transform =>
      match transform rawResult (Operation.effectiveParams op) with
      | Returns transformedData => Returns transformedData
      | Throws transformError =>
          Throws (RainbowError
                    (String.append "[createQueryStore: "
                       (String.append (logContext (Operation.currentQueryKey op))
                          "]: transform failed"))
                    (Some transformError))
      end
  | None => Returns (asTData rawResult)
  end.

(** The calls that [onFetched] makes for [transformedData], none when it
    is not configured. *)
Definition onFetchedCalls (transformedData : Data) (effectiveParams : Params)
    : list (FetchedAction Data) :=
  match Config.onFetched config with
  | Some onFetched => OnFetched.calls (onFetched transformedData effectiveParams)
  | None => nil
  end.

(** One call made by [onFetched]. [set] writes the store; [fetch] is
    [baseMethods.fetch], which runs up to its own [await] and may leave an
    operation pending. *)
Definition runFetchedAction (now : Z) (acc : list Operation.t * Engine.t Data)
    (action : FetchedAction Data) : list Operation.t * Engine.t Data :=
  match action with
  | CallSet update => (acc.1, Engine.setState (update (Engine.state acc.2)) acc.2)
  | CallFetch params options thrownByFetcher =>
      let call := fetch params options now thrownByFetcher acc.2 in
      (acc.1 ++ option_list (pending call), engine call)
  end.

(** [onFetched({ data, fetch, params, set })] under its guard: the
    operations its fetches leave pending, and the engine afterwards. *)
Definition runOnFetched (op : Operation.t) (transformedData : Data) (now : Z) w
    : list Operation.t * Engine.t Data :=
  match Config.onFetched config with
  | Some onFetched =>
      let w1 := Engine.emit (OnFetchedCalled transformedData (Operation.effectiveParams op)) w in
      let run := onFetched transformedData (Operation.effectiveParams op) in
      let ran := fold_left (runFetchedAction now) (OnFetched.calls run) (nil, w1) in
      match OnFetched.outcome run with
      | Returns _ => ran
      | Throws onFetchedError =>
          (ran.1,
           Engine.emit
             (LoggerError OnFetchedCallbackFailed
                (logContext (Operation.currentQueryKey op)) onFetchedError) ran.2)
      end
  | None => (nil, w)
  end.

(** The engine after [onFetched]. The callback's own use of the promises
    that [fetch] returned to it is not followed; [runOnFetched] keeps the
    operations for a run that goes on to settle them. *)
Definition notifyFetched (op : Operation.t) (transformedData : Data) (now : Z) w
    : Engine.t Data :=
  (runOnFetched op transformedData now w).2.

(** The [try] block from the point where the fetcher has produced
    [rawResult]; whatever it throws enters [catchClause]. *)
Definition tryClause (op : Operation.t) (rawResult : Raw) (now : Z) w
    : Settlement (option Data) * Engine.t Data :=
  match applyTransform op rawResult with
  | Throws thrown => catchClause op thrown now w
  | Returns transformedData =>
      if Operation.skipStoreUpdates op then (Fulfilled (Some transformedData), w)
      else
        let w0 :=
          match Config.setData config with
          | Some _ =>
              Engine.emit (SetDataCalled transformedData (Operation.currentQueryKey op)) w
          | None => w
          end in
        match commitSuccess op transformedData now (Engine.state w) with
        | Throws thrown => catchClause op thrown now w0
        | Returns newState =>
            let w1 := Engine.setState newState w0 in
            let w2 := Engine.setLastFetchKey (Some (Operation.currentQueryKey op)) w1 in
            let w3 := scheduleNextFetch (Operation.effectiveParams op) (Operation.options op) now w2 in
            (Fulfilled (Some transformedData), notifyFetched op transformedData now w3)
        end
  end.

(** The [finally] of [fetchWithAbortControl]:
    [if (activeAbortController === abortController) activeAbortController = null]. *)
Definition releaseController (op : Operation.t) w : Engine.t Data :=
  match Operation.controller op with
  | Some controller =>
      if bool_decide (Engine.activeAbortController w = Some controller)
      then Engine.setActiveAbortController None w
      else w
  | None => w
  end.

(** The awaited fetcher promise of [op] settles with [outcome] (for an
    aborted controller: [Rejected ABORT_ERROR]); [fetchOperation] runs to
    its end and the promise it returned settles with the result. *)
Definition settle (op : Operation.t) (outcome : Settlement Raw) (now : Z) w
    : Settlement (option Data) * Engine.t Data :=
  let w0 := releaseController op w in
  let run :=
    match outcome with
    | Fulfilled rawResult => tryClause op rawResult now w0
    | Rejected error => catchClause op error now w0
    end in
  (run.1, Engine.settlePromise (Operation.promise op) run.1 (finallyClause op run.2)).

(** A pending timer fires: it leaves the platform's queue (the handle in
    [activeRefetchTimeout] stays) and its callback runs. *)
Definition fireTimer (handle : nat) (now : Z) (thrownByFetcher : option Thrown) w
    : option Call :=
  match List.find (fun timer => Nat.eqb (Timer.id timer) handle) (Engine.timers w) with
  | None => None
  | Some timer =>
      let w1 :=
        Engine.mk (Engine.state w) (Engine.subscriptionManager w) (Engine.attachVals w)
          (Engine.directValues w) (Engine.activeAbortController w) (Engine.activeFetch w)
          (Engine.activeRefetchTimeout w) (Engine.lastFetchKey w)
          (filter (fun other => Timer.id other ≠ handle) (Engine.timers w))
          (Engine.promises w) (Engine.fresh w) (Engine.trace w) in
      let subscription := Engine.subscriptionManager w1 in
      if Subscription.enabled subscription
         && (0 <? Subscription.subscriptionCount subscription)%nat
      then
        Some (fetch (Timer.params timer)
                (Some (FetchOptions.mk None true false None)) now thrownByFetcher w1)
      else Some (mkCall (ReturnValue None) None w1)
  end.

(** *** Vocabulary of the statements *)

(** The fetcher or the transform of [op] fails with [thrown]. *)
Inductive failsWith (op : Operation.t) : Settlement Raw → Thrown → Prop :=
| fetcher_rejects (error : Thrown) :
    failsWith op (Rejected error) error
| transform_throws (rawResult : Raw) (thrown : Thrown) :
    applyTransform op rawResult = Throws thrown →
    failsWith op (Fulfilled rawResult) thrown.

(** [onError], when configured, returns normally on these arguments. *)
Definition onErrorReturns (error : Thrown) (retryCount : nat) : Prop :=
  ∀ onError, Config.onError config = Some onError → onError error retryCount = Returns tt.

(** The retry count the error path reads for [key]: none when caching is
    disabled. *)
Definition entrySeen (key : string) w : option (CacheEntry.t Data) :=
  if Config.disableCache config then None
  else StoreState.queryCache (Engine.state w) !! key.

End createQueryStore.

Arguments mkCall {Data} _ _ _.
Arguments returned {Data} _.
Arguments pending {Data} _.
Arguments engine {Data} _.

(** [elapsed <= duration] *)
Definition le_num (elapsed : Z) (duration : num) : Prop :=
  match duration with
  | Finite ms => elapsed ≤ ms
  | Infinity => True
  end.

(** [pruneTime - (lastFetchedAt ?? errorInfo.lastFailedAt) <= cacheTime] *)
Definition withinCacheTime {Data} (pruneTime : Z) (entry : CacheEntry.t Data) : Prop :=
  le_num (pruneTime - CacheEntry.lastTouchedAt entry) (CacheEntry.cacheTime entry).

(** The retry count recorded in an entry, [0] when there is none:
    [entry?.errorInfo?.retryCount ?? 0]. *)
Definition retryCountOf {Data} (entry : option (CacheEntry.t Data)) : nat :=
  default 0%nat (ErrorInfo.retryCount <$> (entry ≫= CacheEntry.errorInfo)).

(** ** Concrete stores used in the examples *)

(** The defaults of [createQueryStore] for a store of integers without
    parameters, callbacks or storage. *)
Definition defaultConfig : Config.t Z Z :=
  Config.mk true (inl (Finite (7 * 24 * 60 * 60 * 1000))) false false true false
    3%nat None None None (inl (Finite 5000)) None (Finite (2 * 60 * 1000)) None None.

(** [{ force: true }] *)
Definition forceOption : FetchOptions.t := FetchOptions.mk None true false None.

(** [{ force: true, skipStoreUpdates: true }] *)
Definition probeOption : FetchOptions.t := FetchOptions.mk None true true None.

(** The operation a call left pending. *)
Definition started {Data} (call : Call (Data:=Data)) : Operation.t :=
  default (Operation.mk None nil "" None None 0%nat) (pending call).

(** [defaultConfig] with [enabled: false]. *)
Definition disabledConfig : Config.t Z Z :=
  Config.mk true (inl (Finite (7 * 24 * 60 * 60 * 1000))) false false false false
    3%nat None None None (inl (Finite 5000)) None (Finite (2 * 60 * 1000)) None None.

(** [defaultConfig] with [keepPreviousData: true] and [cacheTime: 10]. *)
Definition keepPreviousConfig : Config.t Z Z :=
  Config.mk true (inl (Finite 10)) false false true true
    3%nat None None None (inl (Finite 5000)) None (Finite (2 * 60 * 1000)) None None.

(** [defaultConfig] with [maxRetries: 0]. *)
Definition noRetryConfig : Config.t Z Z :=
  Config.mk true (inl (Finite (7 * 24 * 60 * 60 * 1000))) false false true false
    0%nat None None None (inl (Finite 5000)) None (Finite (2 * 60 * 1000)) None None.

(** [defaultConfig] with [disableCache: true]. *)
Definition uncachedConfig : Config.t Z Z :=
  Config.mk true (inl (Finite (7 * 24 * 60 * 60 * 1000))) false true true false
    3%nat None None None (inl (Finite 5000)) None (Finite (2 * 60 * 1000)) None None.

(** [defaultConfig] with [staleTime: 100]. *)
Definition shortStaleConfig : Config.t Z Z :=
  Config.mk true (inl (Finite (7 * 24 * 60 * 60 * 1000))) false false true false
    3%nat None None None (inl (Finite 5000)) None (Finite 100) None None.

(** [defaultConfig] with [onError: () => { throw new Error('boom') }]. *)
Definition throwingOnErrorConfig : Config.t Z Z :=
  Config.mk true (inl (Finite (7 * 24 * 60 * 60 * 1000))) false false true false
    3%nat (Some (fun _ _ => Throws (ErrorObject "Error" "boom"))) None None
    (inl (Finite 5000)) None (Finite (2 * 60 * 1000)) None None.

(** [new Error('x')] *)
Definition errorX : Thrown := ErrorObject "Error" "x".

(** [{ id: 1 }] and [{ id: 2 }] *)
Definition paramsA : Params := [("id"%string, VNum 1)].
Definition paramsB : Params := [("id"%string, VNum 2)].

(** The raw result is the data: [rawResult as TData] at [TData = TQueryFnData]. *)
Definition sameData : Z → Z := fun raw => raw.

(** ** The other store methods and lifecycle callbacks *)

(** [QueryStatusInfo] *)
Module QueryStatusInfo.
Record t : Type := mk {
  isError : bool;
  isFetching : bool;
  isIdle : bool;
  isInitialLoading : bool;
  isSuccess : bool;
}.
End QueryStatusInfo.

(** What [onSubscribe] leaves behind: the flag [fetchAfterParamCreation]
    when it set it, the operation a fetch it made left pending, and the
    engine. The promise of that fetch is dropped by the callback. *)
Module Reaction.
Record t (Data : Type) : Type := mk {
  fetchAfterParamCreation : bool;
  launched : option Operation.t;
  engine : Engine.t Data;
}.
Arguments mk {Data} _ _ _.
Arguments fetchAfterParamCreation {Data} _.
Arguments launched {Data} _.
Arguments engine {Data} _.
End Reaction.

Section storeMethods.
Context {Raw Data : Type}.
Variable config : Config.t Raw Data.
Implicit Type w : Engine.t Data.

Definition getStatus w : QueryStatusInfo.t :=
  let queryKey := StoreState.queryKey (Engine.state w) in
  let status := StoreState.status (Engine.state w) in
  let lastFetchedAt := knownLastFetchedAt config queryKey w in
  QueryStatusInfo.mk
    (bool_decide (status = Error))
    (bool_decide (status = Loading))
    (bool_decide (status = Idle))
    (negb (bool_decide (is_Some lastFetchedAt)) && bool_decide (status = Loading))
    (bool_decide (status = Success)).

Definition isDataExpired (cacheTimeOverride : option num) (now : Z) w : bool :=
  let currentQueryKey := StoreState.queryKey (Engine.state w) in
  let cacheEntry := StoreState.queryCache (Engine.state w) !! currentQueryKey in
  match knownLastFetchedAt config currentQueryKey w with
  | None => true
  | Some lastFetchedAt =>
      let effectiveCacheTime :=
        match cacheTimeOverride with
        | Some override => Some override
        | None => CacheEntry.cacheTime <$> cacheEntry
        end in
      match effectiveCacheTime with
      | None => true
      | Some cacheTime => negb (leb_num (now - lastFetchedAt) cacheTime)
      end
  end.

Definition isStale (staleTimeOverride : option num) (now : Z) w : bool :=
  let queryKey := StoreState.queryKey (Engine.state w) in
  match knownLastFetchedAt config queryKey w with
  | None => true
  | Some lastFetchedAt =>
      let effectiveStaleTime := default (Config.staleTime config) staleTimeOverride in
      negb (leb_num (now - lastFetchedAt) effectiveStaleTime)
  end.


Definition onLastUnsubscribe w : Engine.t Data :=
  let w1 := Engine.clearActiveRefetchTimeout w in
  if Config.abortInterruptedFetches config then abortActiveFetch w1 else w1.

(** The [onSubscribe] callback handed to the subscription manager, which
    supplies the three flags. *)
Definition onSubscribe (enabled isFirstSubscription shouldThrottle : bool)
    (now : Z) (thrownByFetcher : option Thrown) w : Reaction.t Data :=
  if negb (bool_decide (is_Some (Engine.directValues w)))
     && negb (bool_decide (is_Some (Engine.attachVals w)))
     && bool_decide (is_Some (Config.params config))
  then Reaction.mk true None w
  else if negb enabled then Reaction.mk false None w
  else if isFirstSubscription then
    let storeQueryKey := StoreState.queryKey (Engine.state w) in
    let currentParams := getCurrentResolvedParams (Engine.attachVals w) (Engine.directValues w) in
    let currentQueryKey := getQueryKey currentParams in
    let w1 :=
      if negb (String.eqb storeQueryKey currentQueryKey) then
        let state := Engine.state w in
        Engine.setState
          (StoreState.mk (StoreState.enabled state) (StoreState.error state)
             (StoreState.lastFetchedAt state) (StoreState.queryCache state)
             currentQueryKey (StoreState.status state)) w
      else w in
    if isStale None now w1 then
      let call := fetch config (Some currentParams) None now thrownByFetcher w1 in
      Reaction.mk false (pending call) (engine call)
    else Reaction.mk false None (scheduleNextFetch config currentParams None now w1)
  else if Config.disableAutoRefetching config && negb shouldThrottle then
    let call := fetch config None None now thrownByFetcher w in
    Reaction.mk false (pending call) (engine call)
  else Reaction.mk false None w.

(** [onParamChange], run after a reactive parameter took a new value
    (already held in [attachVals]). *)
Definition onParamChange (now : Z) (thrownByFetcher : option Thrown) w : Call :=
  let newParams := getCurrentResolvedParams (Engine.attachVals w) (Engine.directValues w) in
  let w1 :=
    if Config.keepPreviousData config then w
    else
      let state := Engine.state w in
      Engine.setState
        (StoreState.mk (StoreState.enabled state) (StoreState.error state)
           (StoreState.lastFetchedAt state) (StoreState.queryCache state)
           (getQueryKey newParams) (StoreState.status state)) w in
  fetch config (Some newParams) None now thrownByFetcher w1.

End storeMethods.

(** ** [resolveParams] and the persisted projection *)

(** [ParamResolvable<T, ...>]: a plain value, or a function whose call
    yields an [AttachValue]; [attached] is the [.value] of that cell at the
    time of the call. *)
Inductive ParamResolvable (A : Type) : Type :=
| StaticParam (value : A)
| ResolvableParam (attached : A).
Arguments StaticParam {A} value.
Arguments ResolvableParam {A} attached.

(** [ResolvedParamsResult & ResolvedEnabledResult], cells given by their
    current values. *)
Module Resolved.
Record t : Type := mk {
  attachVals : Params;
  directValues : Params;
  enabledAttachVal : option bool;
  enabledDirectValue : option bool;
  resolvedEnabled : bool;
  resolvedParams : Params;
}.
End Resolved.

(** The value a parameter resolves to. *)
Definition paramValue {A} (param : ParamResolvable A) : A :=
  match param with
  | StaticParam value => value
  | ResolvableParam attached => attached
  end.

(** The body of the loop [for (const key in params)], on the three
    objects it fills: [attachVals], [directValues], [resolvedParams]. *)
Definition resolveParam (acc : Params * Params * Params)
    (entry : string * ParamResolvable Value) : Params * Params * Params :=
  match entry.2 with
  | ResolvableParam attached =>
      (assignProp entry.1 attached acc.1.1, acc.1.2, assignProp entry.1 attached acc.2)
  | StaticParam value =>
      (acc.1.1, assignProp entry.1 value acc.1.2, assignProp entry.1 value acc.2)
  end.

Definition resolveParams (enabled : ParamResolvable bool)
    (params : list (string * ParamResolvable Value)) : Resolved.t :=
  let filled := fold_left resolveParam params (nil, nil, nil) in
  match enabled with
  | ResolvableParam attached =>
      Resolved.mk filled.1.1 filled.1.2 (Some attached) None attached filled.2
  | StaticParam value =>
      Resolved.mk filled.1.1 filled.1.2 None (Some value) value filled.2
  end.

(** The three objects agree after the entries [seen] have been handled. *)
Definition resolvedSoFar (seen : list (string * ParamResolvable Value))
    (acc : Params * Params * Params) : Prop :=
  NoDup acc.1.1.*1 ∧ NoDup acc.1.2.*1 ∧ NoDup acc.2.*1
  ∧ (∀ key, key ∈ acc.1.1.*1 → key ∈ seen.*1)
  ∧ (∀ key, key ∈ acc.1.2.*1 → key ∈ seen.*1)
  ∧ (∀ key, key ∈ acc.2.*1 ↔ key ∈ seen.*1)
  ∧ (∀ key, key ∈ acc.2.*1 ↔ key ∈ acc.1.1.*1 ∨ key ∈ acc.1.2.*1)
  ∧ (∀ key, getProp acc.2 key
            = if decide (key ∈ acc.1.1.*1) then getProp acc.1.1 key else getProp acc.1.2 key)
  ∧ (∀ key param, (key, param) ∈ seen → getProp acc.2 key = paramValue param).

(** [value ?? null] on a parameter value. *)
Definition undefinedAsNull (value : Value) : Value :=
  match value with
  | VUndefined => VNull
  | _ => value
  end.

(** The internal part of what [createBlendedPartialize] returns. All six
    data fields are marked [persist] in [SHOULD_PERSIST_INTERNAL_STATE_MAP]
    and the methods are discarded, so [internalStateToPersist] is the
    store state; it is pruned without a key to preserve. *)
Definition persistedInternalState {Data} (keepPreviousData : bool) (pruneTime : Z)
    (state : StoreState.t Data) : StoreState.t Data :=
  pruneCache keepPreviousData None pruneTime state.

Definition isFetcherCall {Data} (event : Event Data) : bool :=
  match event with
  | FetcherCalled _ _ => true
  | _ => false
  end.

(** The number of fetcher calls recorded in a trace. *)
Definition fetcherCalls {Data} (trace : list (Event Data)) : nat :=
  length (List.filter isFetcherCall trace).

(** What the engine reads from its collaborators is the same in both
    engines: the subscription snapshot and the parameter sources. *)
Definition sameSurroundings {Data} (w w' : Engine.t Data) : Prop :=
  Engine.subscriptionManager w' = Engine.subscriptionManager w
  ∧ Engine.attachVals w' = Engine.attachVals w
  ∧ Engine.directValues w' = Engine.directValues w.

(** ** More concrete stores *)

(** The engine of a fresh store that has one subscriber. *)
Definition subscribedEngine (config : Config.t Z Z) : Engine.t Z :=
  let w := initialEngine config in
  Engine.mk (Engine.state w) (Subscription.mk (Config.enabled config) 1) (Engine.attachVals w)
    (Engine.directValues w) (Engine.activeAbortController w) (Engine.activeFetch w)
    (Engine.activeRefetchTimeout w) (Engine.lastFetchKey w) (Engine.timers w)
    (Engine.promises w) (Engine.fresh w) (Engine.trace w).

(** A state whose current key holds an entry that expired long ago, beside
    an entry that is still within its cache time at time 5000. *)
Definition sampleState : StoreState.t Z :=
  StoreState.mk true None None
    (<["[1]"%string := CacheEntry.fetched (Finite 10) (Some 1) 1000]>
       (<["[2]"%string := CacheEntry.fetched (Finite 3600) (Some 2) 1900]> ∅))
    "[1]" Success.

(** A default store after its first fetch has succeeded with [7] at time
    1050. *)
Definition fetchedEngine : Engine.t Z :=
  let call := fetch defaultConfig None None 1000 None (initialEngine defaultConfig) in
  (settle sameData defaultConfig (started call) (Fulfilled 7) 1050 (engine call)).2.

(** A store with [keepPreviousData] and [cacheTime: 10] after the fetch
    for [{ id: 1 }] has succeeded with [1] at time 1000. *)
Definition fetchedEngineA : Engine.t Z :=
  let call := fetch keepPreviousConfig (Some paramsA) None 1000 None
                (initialEngine keepPreviousConfig) in
  (settle sameData keepPreviousConfig (started call) (Fulfilled 1) 1000 (engine call)).2.

(** [keepPreviousConfig] with [enabled: false]. *)
Definition disabledKeepPreviousConfig : Config.t Z Z :=
  Config.mk true (inl (Finite 10)) false false false true
    3%nat None None None (inl (Finite 5000)) None (Finite (2 * 60 * 1000)) None None.

(** [defaultConfig] with an [onFetched] that throws without having called
    [set] or [fetch]. *)
Definition throwingOnFetchedConfig : Config.t Z Z :=
  Config.mk true (inl (Finite (7 * 24 * 60 * 60 * 1000))) false false true false
    3%nat None (Some (fun _ _ => OnFetched.mk nil (Throws errorX))) None
    (inl (Finite 5000)) None (Finite (2 * 60 * 1000)) None None.



(** [defaultConfig] with
    [onFetched: ({ fetch }) => { fetch(undefined, { force: true }) }]. *)
Definition refetchingConfig : Config.t Z Z :=
  Config.mk true (inl (Finite (7 * 24 * 60 * 60 * 1000))) false false true false
    3%nat None
    (Some (fun _ _ => OnFetched.mk [CallFetch None (Some forceOption) None] (Returns tt)))
    None (inl (Finite 5000)) None (Finite (2 * 60 * 1000)) None None.
(** * Properties *)

Example getQueryKey_sorts_keys :
  getQueryKey [("b"%string, VNum 2); ("a"%string, VStr "x"); ("c"%string, VUndefined)]
  = String.append "[" (String.append (quote "x") ",2,null]").
Proof. vm_compute. reflexivity. Qed.


(** *** The key order is a total order *)

Lemma string_compare_refl (s : string) : String.compare s s = Eq.
Proof.
  induction s as [|c s IH]; [reflexivity|]. simpl.
  unfold Ascii.compare. rewrite N.compare_refl. exact IH.
Qed.

Lemma string_compare_lt_trans (a b c : string) :
  String.compare a b = Lt → String.compare b c = Lt → String.compare a c = Lt.
Proof.
  revert b c. induction a as [|x a IH]; intros [|y b] [|z c]; simpl; try congruence.
  unfold Ascii.compare.
  destruct (N.compare_spec (N_of_ascii x) (N_of_ascii y)) as [Hxy|Hxy|Hxy];
    destruct (N.compare_spec (N_of_ascii y) (N_of_ascii z)) as [Hyz|Hyz|Hyz];
    try congruence; intros Hab Hbc.
  - rewrite Hxy, Hyz, N.compare_refl. eauto.
  - rewrite Hxy. apply N.compare_lt_iff in Hyz. by rewrite Hyz.
  - rewrite <- Hyz. apply N.compare_lt_iff in Hxy. by rewrite Hxy.
  - assert (N_of_ascii x < N_of_ascii z)%N as H by (etrans; eauto).
    apply N.compare_lt_iff in H. by rewrite H.
Qed.

#[global] Instance key_le_total : Total key_le.
Proof. intros a b. apply String.leb_total. Qed.

#[global] Instance key_le_antisym : AntiSymm (=) key_le.
Proof. intros a b. apply String.leb_antisym. Qed.

#[global] Instance key_le_trans : Transitive key_le.
Proof.
  intros a b c. unfold key_le, String.leb.
  destruct (String.compare a b) eqn:Hab; [| |done].
  - apply String.compare_eq_iff in Hab. by subst.
  - destruct (String.compare b c) eqn:Hbc; [| |done]; intros _ _.
    + apply String.compare_eq_iff in Hbc. subst. by rewrite Hab.
    + by rewrite (string_compare_lt_trans a b c).
Qed.

(** Sorting forgets the order in which the keys were inserted. *)
Lemma sorted_keys_permutation (k1 k2 : list string) :
  k1 ≡ₚ k2 → merge_sort key_le k1 = merge_sort key_le k2.
Proof.
  intros Hp. apply (Sorted_unique key_le).
  - apply Sorted_merge_sort, _.
  - apply Sorted_merge_sort, _.
  - by rewrite !merge_sort_Permutation.
Qed.

Lemma getProp_absent (params : Params) (key : string) :
  key ∉ fmap fst params → getProp params key = VUndefined.
Proof.
  induction params as [|[k v] rest IH]; simpl; [done|].
  intros Hn. destruct (String.eqb_spec k key) as [->|Hne].
  - exfalso. apply Hn. left.
  - apply IH. intros Hin. apply Hn. by right.
Qed.

(** With each key bound once, a lookup does not depend on the position of
    the binding. *)
Lemma getProp_permutation (p1 p2 : Params) (key : string) :
  NoDup (fmap fst p1) → p1 ≡ₚ p2 → getProp p1 key = getProp p2 key.
Proof.
  intros Hnd Hp. induction Hp as [|[k v] l1 l2 Hp IH|[k1 v1] [k2 v2] l|l1 l2 l3 H12 IH12 H23 IH23].
  - done.
  - simpl. apply NoDup_cons in Hnd as [_ Hnd]. by rewrite IH.
  - simpl in *. apply NoDup_cons in Hnd as [Hnotin _].
    destruct (String.eqb_spec k1 key) as [->|]; [|done].
    destruct (String.eqb_spec k2 key) as [->|]; [|done].
    exfalso. apply Hnotin. left.
  - rewrite IH12 by done. apply IH23.
    by rewrite <- H12.
Qed.

(** C8. Two parameter maps that hold the same bindings, whatever the
    order in which their keys were inserted, have the same query key:
    [getQueryKey] depends only on the bindings. *)
Theorem getQueryKey_insertion_order (p1 p2 : Params) :
  NoDup p1.*1 → p1 ≡ₚ p2 → getQueryKey p1 = getQueryKey p2.
Proof.
  intros Hnd Hp. unfold getQueryKey, Object_keys.
  rewrite (sorted_keys_permutation p1.*1 p2.*1) by (by apply fmap_Permutation).
  f_equal. apply list_fmap_ext. intros _ key _. by apply getProp_permutation.
Qed.

Lemma getQueryKey_insertion_order_witness :
  getQueryKey [("chainId"%string, VNum 1); ("address"%string, VStr "0xabc")]
  = getQueryKey [("address"%string, VStr "0xabc"); ("chainId"%string, VNum 1)].
Proof.
  apply getQueryKey_insertion_order.
  - refine (bool_decide_unpack _ _). vm_compute. exact I.
  - apply perm_swap.
Defined.

(** ** Comparisons against a duration *)

Lemma leb_num_le (elapsed : Z) (duration : num) :
  leb_num elapsed duration = true ↔ le_num elapsed duration.
Proof. destruct duration; simpl; [apply Z.leb_le | done]. Qed.

Lemma leb_num_nle (elapsed : Z) (duration : num) :
  leb_num elapsed duration = false ↔ ¬ le_num elapsed duration.
Proof. rewrite <- leb_num_le. by destruct (leb_num elapsed duration). Qed.

(** ** [pruneCache] *)

Section Pruning.
Context {Data : Type}.
Implicit Type state : StoreState.t Data.

Lemma isValid_spec (pruneTime : Z) (preserve : option string) (key : string)
    (entry : CacheEntry.t Data) :
  isValid pruneTime preserve key entry = true
  ↔ withinCacheTime pruneTime entry ∨ Some key = preserve.
Proof.
  unfold isValid, withinCacheTime.
  rewrite orb_true_iff, leb_num_le, bool_decide_eq_true. done.
Qed.

(** An entry survives a pruning pass exactly when it was there and is
    either within its cache time or bound to the preserved key. *)
Lemma pruneCache_lookup (keepPreviousData : bool) (keyToPreserve : option string)
    (pruneTime : Z) state (key : string) (entry : CacheEntry.t Data) :
  StoreState.queryCache (pruneCache keepPreviousData keyToPreserve pruneTime state) !! key
    = Some entry
  ↔ StoreState.queryCache state !! key = Some entry
    ∧ (withinCacheTime pruneTime entry
       ∨ Some key = preservedKey keepPreviousData keyToPreserve state).
Proof.
  unfold pruneCache. case_bool_decide as Hex; simpl.
  - rewrite map_lookup_filter_Some. simpl. by rewrite isValid_spec.
  - split.
    + intros Hk. split; [done|]. apply isValid_spec.
      destruct (isValid _ _ key entry) eqn:Hv; [done|].
      exfalso. apply Hex. by exists key, entry.
    + by intros [? _].
Qed.

(** Nothing but the cache changes. *)
Lemma pruneCache_frame (keepPreviousData : bool) (keyToPreserve : option string)
    (pruneTime : Z) state :
  let pruned := pruneCache keepPreviousData keyToPreserve pruneTime state in
  StoreState.enabled pruned = StoreState.enabled state
  ∧ StoreState.error pruned = StoreState.error state
  ∧ StoreState.lastFetchedAt pruned = StoreState.lastFetchedAt state
  ∧ StoreState.queryKey pruned = StoreState.queryKey state
  ∧ StoreState.status pruned = StoreState.status state.
Proof. unfold pruneCache. simpl. by case_bool_decide. Qed.

(** The pass run when state is persisted receives no key: it exempts the
    [queryKey] held in state, under [keepPreviousData]. *)
Lemma pruneCache_when_persisted (keepPreviousData : bool) (pruneTime : Z) state
    (key : string) (entry : CacheEntry.t Data) :
  StoreState.queryCache (pruneCache keepPreviousData None pruneTime state) !! key = Some entry
  ↔ StoreState.queryCache state !! key = Some entry
    ∧ (withinCacheTime pruneTime entry
       ∨ (keepPreviousData = true ∧ key = StoreState.queryKey state ∧ key ≠ EmptyString)).
Proof.
  rewrite pruneCache_lookup.
  assert (Some key = preservedKey keepPreviousData None state
          ↔ keepPreviousData = true ∧ key = StoreState.queryKey state ∧ key ≠ EmptyString)
    as Hexempt; [|by rewrite Hexempt].
  unfold preservedKey. destruct keepPreviousData; simpl.
  - destruct (String.eqb_spec (StoreState.queryKey state) "") as [He|Hne]; simpl.
    + split; [done|]. intros (_ & -> & Hne). congruence.
    + split; [intros [= ->]; done | intros (_ & -> & _); done].
  - split; [done | by intros [? _]].
Qed.

End Pruning.

(** ** The engine *)

Section Properties.
Context {Raw Data : Type}.
Variable asTData : Raw → Data.
Variable config : Config.t Raw Data.
Implicit Type w : Engine.t Data.
Implicit Type op : Operation.t.

(** C7. [getData] returns [null] when caching is disabled. With
    [keepPreviousData] it returns the cached data of the key whatever its
    age, [null] when there is no entry. Otherwise it returns [null] when
    there is no entry; for an entry whose [lastFetchedAt] is a non-zero
    timestamp [at_] it returns the cached data exactly when
    [now - at_ <= cacheTime], [null] once expired; and an entry whose
    [lastFetchedAt] is [null] or [0] (both falsy) never expires: [getData]
    returns its data at every time. *)
Theorem getData_cases (params : option Params) (now : Z) w :
  let key :=
    match params with
    | Some p => getQueryKey p
    | None => StoreState.queryKey (Engine.state w)
    end in
  let cacheEntry := StoreState.queryCache (Engine.state w) !! key in
  (Config.disableCache config = true → getData config params now w = None)
  ∧ (Config.disableCache config = false → Config.keepPreviousData config = true →
     getData config params now w = cacheEntry ≫= CacheEntry.data)
  ∧ (Config.disableCache config = false → Config.keepPreviousData config = false →
     (cacheEntry = None → getData config params now w = None)
     ∧ (∀ entry at_,
          cacheEntry = Some entry → CacheEntry.lastFetchedAt entry = Some at_ → at_ ≠ 0 →
          (le_num (now - at_) (CacheEntry.cacheTime entry) →
           getData config params now w = CacheEntry.data entry)
          ∧ (¬ le_num (now - at_) (CacheEntry.cacheTime entry) →
             getData config params now w = None))
     ∧ (∀ entry,
          cacheEntry = Some entry →
          CacheEntry.lastFetchedAt entry = None ∨ CacheEntry.lastFetchedAt entry = Some 0 →
          getData config params now w = CacheEntry.data entry)).
Proof.
  intros key cacheEntry. unfold getData. fold key. fold cacheEntry.
  split; [by intros ->|]. split; [by intros -> ->|].
  intros -> ->. split; [by intros ->|]. split.
  - intros entry at_ -> Hat Hnz. rewrite Hat. simpl.
    apply Z.eqb_neq in Hnz. rewrite Hnz. split.
    + intros Hle. apply leb_num_le in Hle. by rewrite Hle.
    + intros Hnle. apply leb_num_nle in Hnle. by rewrite Hnle.
  - intros entry -> [Hat|Hat]; by rewrite Hat.
Qed.

(** ** [scheduleNextFetch] *)

Lemma knownLastFetchedAt_clear (key : string) w :
  knownLastFetchedAt config key (Engine.clearActiveRefetchTimeout w)
  = knownLastFetchedAt config key w.
Proof.
  unfold knownLastFetchedAt, Engine.clearActiveRefetchTimeout.
  by destruct (Engine.activeRefetchTimeout w).
Qed.

(** C9, as the code has it. [scheduleNextFetch] changes nothing when
    auto-refetch is disabled or the effective stale time is [<= 0] or
    infinite. Otherwise it clears the pending refetch timer and arms a new
    one whose delay is [effectiveStaleTime - (now - lastFetchedAt)] when
    [lastFetchedAt] is known and [effectiveStaleTime] when it is not. The
    difference is handed to the timer as it is, negative when the data is
    already stale; it is the stated [max 0 _] whenever it is not negative. *)
Theorem scheduleNextFetch_delay (params : Params) (options : option FetchOptions.t)
    (now : Z) w :
  (Config.disableAutoRefetching config = true
   ∨ effectiveStaleTimeOf config options = Infinity
   ∨ (∃ s, effectiveStaleTimeOf config options = Finite s ∧ s ≤ 0) →
   scheduleNextFetch config params options now w = w)
  ∧ (∀ s,
       Config.disableAutoRefetching config = false →
       effectiveStaleTimeOf config options = Finite s → 0 < s →
       let w' := scheduleNextFetch config params options now w in
       let delay :=
         match knownLastFetchedAt config (getQueryKey params) w with
         | Some lastFetchedAt => s - (now - lastFetchedAt)
         | None => s
         end in
       Engine.activeRefetchTimeout w' = Some (Engine.fresh w)
       ∧ Engine.timers w'
         = Engine.timers (Engine.clearActiveRefetchTimeout w)
             ++ [Timer.mk (Engine.fresh w) delay (Some params)]
       ∧ Engine.state w' = Engine.state w
       ∧ (0 ≤ delay → delay = Z.max 0 delay)).
Proof.
  unfold scheduleNextFetch. split.
  - intros [-> | [-> | (s & -> & Hs)]]; [done | by destruct (Config.disableAutoRefetching _) |].
    apply Z.leb_le in Hs. rewrite Hs. by destruct (Config.disableAutoRefetching _).
  - intros s -> -> Hs. apply Z.leb_gt in Hs. rewrite Hs.
    rewrite knownLastFetchedAt_clear. unfold timeUntilRefetch.
    unfold Engine.clearActiveRefetchTimeout.
    destruct (Engine.activeRefetchTimeout w); simpl; repeat split; lia.
Qed.

(** ** The pruning pass of a successful write *)

(** C4, as the code has it. The pruning pass run on a successful cache
    write exempts one key, the key being written: an entry of the written
    cache survives exactly when it is bound to that key or satisfies
    [now - (lastFetchedAt, else errorInfo.lastFailedAt) <= cacheTime]. The
    [queryKey] held in state is not exempt in this pass (it is in the pass
    run when state is persisted: [pruneCache_when_persisted]). *)
Theorem commitSuccess_prunes (op : Operation.t) (transformedData : Data) (now : Z)
    (state pruned : StoreState.t Data) :
  commitSuccess config op transformedData now state = Returns pruned →
  Config.disableCache config = false →
  cacheTimeIsInfinity config = false →
  ∃ written,
    writeSuccess config op transformedData now state = Returns written
    ∧ (∀ entry, StoreState.queryCache written !! Operation.currentQueryKey op = Some entry →
         StoreState.queryCache pruned !! Operation.currentQueryKey op = Some entry)
    ∧ (∀ key entry,
         key ≠ Operation.currentQueryKey op →
         (StoreState.queryCache pruned !! key = Some entry
          ↔ StoreState.queryCache written !! key = Some entry ∧ withinCacheTime now entry)).
Proof.
  unfold commitSuccess. intros Hcommit Hcache Hinf.
  destruct (writeSuccess config op transformedData now state) as [written|] eqn:Hw; [|done].
  rewrite Hcache, Hinf in Hcommit. simpl in Hcommit. injection Hcommit as <-.
  exists written. split; [done|]. split.
  - intros entry He. apply pruneCache_lookup. split; [done|]. by right.
  - intros key entry Hne. rewrite pruneCache_lookup. simpl. split.
    + intros [He [Hin | Heq]]; [done|]. by injection Heq.
    + intros [He Hin]. split; [done|]. by left.
Qed.

(** ** Settling an operation *)

(** The [finally] of [fetchWithAbortControl] touches the controller slot
    only. *)
Lemma releaseController_frame op w :
  let w' := releaseController op w in
  Engine.state w' = Engine.state w
  ∧ Engine.subscriptionManager w' = Engine.subscriptionManager w
  ∧ Engine.activeFetch w' = Engine.activeFetch w
  ∧ Engine.activeRefetchTimeout w' = Engine.activeRefetchTimeout w
  ∧ Engine.lastFetchKey w' = Engine.lastFetchKey w
  ∧ Engine.timers w' = Engine.timers w
  ∧ Engine.trace w' = Engine.trace w.
Proof.
  unfold releaseController. destruct (Operation.controller op); [|done].
  by case_bool_decide.
Qed.

(** A failing fetcher or transform sends the operation through the
    [catch] clause, then through [finally]. *)
Lemma settle_failure op (outcome : Settlement Raw) (thrown : Thrown) (now : Z) w :
  failsWith asTData config op outcome thrown →
  settle asTData config op outcome now w
  = let run := catchClause config op thrown now (releaseController op w) in
    (run.1, Engine.settlePromise (Operation.promise op) run.1 (finallyClause op run.2)).
Proof.
  intros [error | rawResult thrown' Htransform]; unfold settle; [done|].
  unfold tryClause. by rewrite Htransform.
Qed.

(** An abort leaves the [catch] clause at once. *)
Lemma catchClause_abort op (error : Thrown) (now : Z) w :
  isAbortError error = true → catchClause config op error now w = (Fulfilled None, w).
Proof. intros Habort. unfold catchClause. by rewrite Habort. Qed.

(** C3. When the fetcher rejects with the sentinel [ABORT_ERROR] or with
    an [Error] named ['AbortError'], the promise of the fetch resolves to
    [null] and the error handler changes nothing: the store (query cache,
    status, error) is as before, no timer is set, [onError] and the logger
    are not called, and no retry count is written. *)
Theorem settle_aborted op (error : Thrown) (now : Z) w :
  error = ABORT_ERROR ∨ (∃ message, error = ErrorObject "AbortError" message) →
  let result := settle asTData config op (Rejected error) now w in
  catchClause config op error now w = (Fulfilled None, w)
  ∧ result.1 = Fulfilled None
  ∧ Engine.promises result.2 !! Operation.promise op = Some (Fulfilled None)
  ∧ Engine.state result.2 = Engine.state w
  ∧ Engine.activeRefetchTimeout result.2 = Engine.activeRefetchTimeout w
  ∧ Engine.timers result.2 = Engine.timers w
  ∧ Engine.lastFetchKey result.2 = Engine.lastFetchKey w
  ∧ Engine.trace result.2 = Engine.trace w.
Proof.
  intros Herror.
  assert (isAbortError error = true) as Habort
    by (destruct Herror as [-> | [message ->]]; done).
  intros result. subst result.
  rewrite (settle_failure op (Rejected error) error) by constructor. cbv zeta.
  rewrite !catchClause_abort by done. simpl.
  destruct (releaseController_frame op w) as (Hs & _ & _ & Ht & Hk & Hts & Htr).
  unfold finallyClause. rewrite lookup_insert_eq.
  by destruct (Operation.skipStoreUpdates op).
Qed.


(** ** The error path *)

(** The count written by the error path: one more than the count it
    read, or [maxRetries] once that count has reached [maxRetries]. *)
Lemma catchClause_records op (error : Thrown) (now : Z) w :
  isAbortError error = false →
  Operation.skipStoreUpdates op = false →
  let entry := entrySeen config (Operation.currentQueryKey op) w in
  let currentRetryCount := retryCountOf entry in
  onErrorReturns config (typedErrorOf error) currentRetryCount →
  ∃ w',
    catchClause config op error now w = (Fulfilled None, w')
    ∧ Engine.state w'
      = recordFailure config op (typedErrorOf error) entry
          (if (currentRetryCount <? Config.maxRetries config)%nat
           then (currentRetryCount + 1)%nat else Config.maxRetries config)
          now (Engine.state w)
    ∧ Engine.lastFetchKey w' = Engine.lastFetchKey w.
Proof.
  intros Habort Hskip entry currentRetryCount Hreturns.
  unfold catchClause. rewrite Habort, Hskip.
  fold (entrySeen config (Operation.currentQueryKey op) w). fold entry.
  fold (retryCountOf entry). fold currentRetryCount.
  assert (∃ w1,
    match Config.onError config with
    | Some onError =>
        (onError (typedErrorOf error) currentRetryCount,
         Engine.emit (OnErrorCalled (typedErrorOf error) currentRetryCount) w)
    | None => (Returns tt, w)
    end = (Returns tt, w1)
    ∧ Engine.state w1 = Engine.state w
    ∧ Engine.lastFetchKey w1 = Engine.lastFetchKey w) as (w1 & -> & Hs1 & Hk1).
  { destruct (Config.onError config) as [onError|] eqn:Hon.
    - rewrite (Hreturns onError Hon). by eexists.
    - by eexists. }
  destruct (currentRetryCount <? Config.maxRetries config)%nat.
  - eexists. split; [done|]. simpl.
    destruct (0 <? Subscription.subscriptionCount (Engine.subscriptionManager w1))%nat;
      [destruct (errorRetryDelayOf config currentRetryCount (typedErrorOf error))|];
      simpl; by rewrite Hs1.
  - eexists. split; [done|]. simpl. by rewrite Hs1.
Qed.

Lemma failed_errorInfo (cacheTime : num) (data : option Data) (lastFetchedAt : option Z)
    (info : ErrorInfo.t) :
  CacheEntry.errorInfo (CacheEntry.failed cacheTime data lastFetchedAt info) = Some info.
Proof. by destruct lastFetchedAt. Qed.

Lemma failed_lastFetchedAt (cacheTime : num) (data : option Data) (lastFetchedAt : option Z)
    (info : ErrorInfo.t) :
  CacheEntry.lastFetchedAt (CacheEntry.failed cacheTime data lastFetchedAt info)
  = lastFetchedAt.
Proof. by destruct lastFetchedAt. Qed.

Lemma recordFailure_lookup op (typedError : Thrown) (entry : option (CacheEntry.t Data))
    (retryCount : nat) (now : Z) (state : StoreState.t Data) :
  let written := recordFailure config op typedError entry retryCount now state in
  ∃ recorded,
    StoreState.queryCache written !! Operation.currentQueryKey op = Some recorded
    ∧ CacheEntry.errorInfo recorded = Some (ErrorInfo.mk typedError now retryCount)
    ∧ CacheEntry.data recorded = entry ≫= CacheEntry.data
    ∧ CacheEntry.lastFetchedAt recorded = entry ≫= CacheEntry.lastFetchedAt
    ∧ StoreState.status written = Error
    ∧ StoreState.error written = Some typedError
    ∧ StoreState.queryKey written
      = (if Config.keepPreviousData config then Operation.currentQueryKey op
         else StoreState.queryKey state)
    ∧ (∀ key, key ≠ Operation.currentQueryKey op →
         StoreState.queryCache written !! key = StoreState.queryCache state !! key).
Proof.
  eexists. unfold recordFailure. simpl. rewrite lookup_insert_eq.
  split; [done|]. rewrite failed_errorInfo, failed_lastFetchedAt.
  do 6 (split; [done|]). intros key Hne. by rewrite lookup_insert_ne.
Qed.

(** What the handler leaves in the engine when the operation settles. *)
Lemma settle_failure_state op (outcome : Settlement Raw) (thrown : Thrown) (now : Z) w :
  failsWith asTData config op outcome thrown →
  isAbortError thrown = false →
  Operation.skipStoreUpdates op = false →
  let entry := entrySeen config (Operation.currentQueryKey op) w in
  onErrorReturns config (typedErrorOf thrown) (retryCountOf entry) →
  let result := settle asTData config op outcome now w in
  result.1 = Fulfilled None
  ∧ Engine.state result.2
    = recordFailure config op (typedErrorOf thrown) entry
        (if (retryCountOf entry <? Config.maxRetries config)%nat
         then (retryCountOf entry + 1)%nat else Config.maxRetries config)
        now (Engine.state w).
Proof.
  intros Hfails Habort Hskip entry Hreturns result. subst result.
  rewrite (settle_failure op outcome thrown) by done. cbv zeta.
  destruct (releaseController_frame op w) as (Hs & _).
  assert (entrySeen config (Operation.currentQueryKey op) (releaseController op w) = entry)
    as Hentry by (unfold entry, entrySeen; by rewrite Hs).
  destruct (catchClause_records op thrown now (releaseController op w) Habort Hskip)
    as (w' & Hcatch & Hstate & _).
  { by rewrite Hentry. }
  rewrite Hcatch. simpl. split; [done|].
  unfold finallyClause. rewrite Hskip. simpl. by rewrite Hstate, Hentry, Hs.
Qed.


(** With caching disabled the handler does not read the entry: every
    failure writes the count of a first failure. *)
Lemma uncached_failure_entry op (outcome : Settlement Raw) (thrown : Thrown)
    (now : Z) w :
  failsWith asTData config op outcome thrown →
  isAbortError thrown = false →
  Operation.skipStoreUpdates op = false →
  Config.disableCache config = true →
  onErrorReturns config (typedErrorOf thrown) 0%nat →
  let after := Engine.state (settle asTData config op outcome now w).2 in
  ∃ recorded info,
    StoreState.queryCache after !! Operation.currentQueryKey op = Some recorded
    ∧ CacheEntry.errorInfo recorded = Some info
    ∧ ErrorInfo.retryCount info
      = (if (0 <? Config.maxRetries config)%nat then 1%nat else Config.maxRetries config)
    ∧ CacheEntry.data recorded = None
    ∧ CacheEntry.lastFetchedAt recorded = None.
Proof.
  intros Hfails Habort Hskip Hcache Hreturns after.
  assert (entrySeen config (Operation.currentQueryKey op) w = None) as Hentry
    by (unfold entrySeen; by rewrite Hcache).
  destruct (settle_failure_state op outcome thrown now w Hfails Habort Hskip)
    as [_ Hstate]; [by rewrite Hentry|].
  subst after. rewrite Hstate, Hentry.
  match goal with |- context [recordFailure config op ?e ?p ?n now ?s] =>
    destruct (recordFailure_lookup op e p n now s)
      as (recorded & Hlookup & Hinfo & Hdata & Hat & _)
  end.
  exists recorded. eexists. by repeat (split; [eassumption || reflexivity|]).
Qed.

(** C5, as the code has it. With [maxRetries >= 1], right after the error
    handler has run for a fetch (not aborted, without [skipStoreUpdates]),
    [status] is [error] and the entry of the key that was fetched exists
    with an [errorInfo] whose [retryCount] lies in [[1, maxRetries]]; under
    [keepPreviousData] that key is the [queryKey] of the state. *)
Theorem settle_failure_retryCount op (outcome : Settlement Raw) (thrown : Thrown)
    (now : Z) w :
  failsWith asTData config op outcome thrown →
  isAbortError thrown = false →
  Operation.skipStoreUpdates op = false →
  (1 ≤ Config.maxRetries config)%nat →
  onErrorReturns config (typedErrorOf thrown)
    (retryCountOf (entrySeen config (Operation.currentQueryKey op) w)) →
  let after := Engine.state (settle asTData config op outcome now w).2 in
  StoreState.status after = Error
  ∧ (∃ recorded info,
       StoreState.queryCache after !! Operation.currentQueryKey op = Some recorded
       ∧ CacheEntry.errorInfo recorded = Some info
       ∧ (1 ≤ ErrorInfo.retryCount info ≤ Config.maxRetries config)%nat)
  ∧ (Config.keepPreviousData config = true →
     StoreState.queryKey after = Operation.currentQueryKey op).
Proof.
  intros Hfails Habort Hskip Hmax Hreturns after.
  destruct (settle_failure_state op outcome thrown now w Hfails Habort Hskip Hreturns)
    as [_ Hstate].
  subst after. rewrite Hstate.
  match goal with |- context [recordFailure config op ?e ?p ?n now ?s] =>
    destruct (recordFailure_lookup op e p n now s)
      as (recorded & Hlookup & Hinfo & _ & _ & Hstatus & _ & Hkey & _)
  end.
  split; [done|]. split.
  - exists recorded. eexists. split; [done|]. split; [done|]. simpl.
    destruct (Nat.ltb_spec (retryCountOf (entrySeen config (Operation.currentQueryKey op) w))
                (Config.maxRetries config)); lia.
  - intros Hkeep. by rewrite Hkey, Hkeep.
Qed.

(** ** [fetch] *)

(** Without [force], a disabled engine answers [null] at once: the
    fetcher is not called and nothing changes. *)
Lemma fetch_disabled (params : option Params) (options : option FetchOptions.t)
    (now : Z) (thrownByFetcher : option Thrown) w :
  forced options = false →
  Subscription.enabled (Engine.subscriptionManager w) = false →
  fetch config params options now thrownByFetcher w = mkCall (ReturnValue None) None w.
Proof. intros Hforce Hdisabled. unfold fetch. by rewrite Hforce, Hdisabled. Qed.

(** C1, as the code has it. While the engine is enabled, a call to
    [fetch] without [force], made when [activeFetch] holds a promise for
    the same query key and [status] is [loading], returns that very
    promise from its body; the fetcher is not called again and the engine
    is left as it was. *)
Theorem fetch_in_flight (params : option Params) (options : option FetchOptions.t)
    (now : Z) (thrownByFetcher : option Thrown) w (p : nat) :
  forced options = false →
  Subscription.enabled (Engine.subscriptionManager w) = true →
  Engine.activeFetch w
  = Some (ActiveFetch.mk
            (getQueryKey
               (default (getCurrentResolvedParams (Engine.attachVals w) (Engine.directValues w))
                  params))
            (Some p)) →
  StoreState.status (Engine.state w) = Loading →
  fetch config params options now thrownByFetcher w = mkCall (ReturnPromise p) None w.
Proof.
  intros Hforce Henabled Hactive Hloading. unfold fetch, inFlightPromise.
  rewrite Hforce, Henabled, Hactive, Hloading. simpl.
  by rewrite String.eqb_refl.
Qed.

(** Once [fetch] has started an operation that updates the store, the
    engine holds its promise under its key and [status] is [loading]. *)
Lemma fetch_started (params : option Params) (options : option FetchOptions.t)
    (now : Z) (thrownByFetcher : option Thrown) w op :
  pending (fetch config params options now thrownByFetcher w) = Some op →
  skipsStoreUpdates options = false →
  let call := fetch config params options now thrownByFetcher w in
  returned call = ReturnPromise (Operation.promise op)
  ∧ Engine.activeFetch (engine call)
    = Some (ActiveFetch.mk
              (getQueryKey
                 (default (getCurrentResolvedParams (Engine.attachVals w) (Engine.directValues w))
                    params))
              (Some (Operation.promise op)))
  ∧ StoreState.status (Engine.state (engine call)) = Loading
  ∧ Engine.subscriptionManager (engine call) = Engine.subscriptionManager w
  ∧ Engine.attachVals (engine call) = Engine.attachVals w
  ∧ Engine.directValues (engine call) = Engine.directValues w.
Proof.
  intros Hpending Hskip call. subst call. revert Hpending. unfold fetch.
  destruct (negb (forced options) && _); [done|].
  destruct (inFlightPromise _ _ _ _); [done|].
  rewrite Hskip. rewrite andb_true_r.
  set (w1 := if Config.abortInterruptedFetches config then abortActiveFetch w else w).
  assert (Engine.state w1 = Engine.state w
          ∧ Engine.subscriptionManager w1 = Engine.subscriptionManager w
          ∧ Engine.attachVals w1 = Engine.attachVals w
          ∧ Engine.directValues w1 = Engine.directValues w) as (Hs1 & Hm1 & Ha1 & Hd1).
  { unfold w1, abortActiveFetch.
    destruct (Config.abortInterruptedFetches config); [|done].
    by destruct (Engine.activeAbortController w). }
  destruct (if forced options then None else cachedResult _ _ _ _ _ _) as [[cached w2]|];
    [done|].
  unfold startOperation. rewrite Hskip, andb_true_r.
  assert (bool_decide (is_Some (StoreState.error (Engine.state w)))
          || negb (bool_decide (StoreState.status (Engine.state w) = Loading)) = false
          → StoreState.status (Engine.state w1) = Loading) as Hloading.
  { intros Hcond. apply orb_false_iff in Hcond as [_ Hcond].
    apply negb_false_iff, bool_decide_eq_true in Hcond. by rewrite Hs1. }
  clearbody w1.
  destruct (bool_decide (is_Some (StoreState.error (Engine.state w)))
            || negb (bool_decide (StoreState.status (Engine.state w) = Loading)));
    (destruct (Config.abortInterruptedFetches config); simpl;
     [|destruct thrownByFetcher; [done|]]);
    intros [= <-]; simpl; rewrite ?Hm1, ?Ha1, ?Hd1; repeat split; by auto.
Qed.

(** Two calls in a row: while the engine is enabled, a second call for
    the same parameters, without [force], returns the promise of the
    operation the first call started, and calls nothing. *)
Lemma fetch_twice (params : option Params) (options options' : option FetchOptions.t)
    (now now' : Z) (thrownByFetcher thrownByFetcher' : option Thrown) w op :
  pending (fetch config params options now thrownByFetcher w) = Some op →
  skipsStoreUpdates options = false →
  Subscription.enabled (Engine.subscriptionManager w) = true →
  forced options' = false →
  let first := fetch config params options now thrownByFetcher w in
  fetch config params options' now' thrownByFetcher' (engine first)
  = mkCall (ReturnPromise (Operation.promise op)) None (engine first).
Proof.
  intros Hpending Hskip Henabled Hforce first.
  destruct (fetch_started params options now thrownByFetcher w op Hpending Hskip)
    as (_ & Hactive & Hloading & Hm & Ha & Hd).
  fold first in Hactive, Hloading, Hm, Ha, Hd.
  unfold fetch, inFlightPromise.
  rewrite Hforce, Hm, Henabled, Hactive, Hloading, Ha, Hd. simpl.
  by rewrite String.eqb_refl.
Qed.

(** A fetcher that throws synchronously under [skipStoreUpdates] (there is
    no abort control then): the throw is caught before [fetchOperation]
    returns, the logger is the only collaborator called after the fetcher,
    and the promise handed back is already resolved to [null]. *)
Lemma startOperation_skip_throw (params : option Params) (effectiveParams : Params)
    (currentQueryKey : string) (options : option FetchOptions.t) (now : Z)
    (thrown : Thrown) w :
  skipsStoreUpdates options = true →
  isAbortError thrown = false →
  let call :=
    startOperation config params effectiveParams currentQueryKey options now (Some thrown) w in
  returned call = ReturnPromise (Engine.fresh w)
  ∧ pending call = None
  ∧ Engine.promises (engine call) !! Engine.fresh w = Some (Fulfilled None)
  ∧ Engine.state (engine call) = Engine.state w
  ∧ Engine.activeFetch (engine call) = Engine.activeFetch w
  ∧ Engine.activeRefetchTimeout (engine call) = Engine.activeRefetchTimeout w
  ∧ Engine.timers (engine call) = Engine.timers w
  ∧ Engine.trace (engine call)
    = Engine.trace w
        ++ [FetcherCalled effectiveParams None]
        ++ [LoggerError FailedToFetchData (logContext config currentQueryKey) thrown].
Proof.
  intros Hskip Habort call. subst call. unfold startOperation.
  rewrite Hskip, andb_false_r. simpl.
  unfold catchClause, finallyClause, Operation.skipStoreUpdates. simpl.
  rewrite Habort, Hskip. simpl. rewrite lookup_insert_eq.
  repeat split. by rewrite <- app_assoc.
Qed.

(** ** Rejections *)

(** Only a throwing [onError] makes the [catch] clause reject. *)
Lemma catchClause_fulfils op (error : Thrown) (now : Z) w :
  (∀ typedError retryCount, onErrorReturns config typedError retryCount) →
  ∃ value, (catchClause config op error now w).1 = Fulfilled value.
Proof.
  intros Hreturns. unfold catchClause.
  destruct (isAbortError error); [by eexists|].
  destruct (Operation.skipStoreUpdates op); [by eexists|].
  destruct (Config.onError config) as [onError|] eqn:Hon.
  - rewrite (Hreturns _ _ onError Hon). by eexists.
  - by eexists.
Qed.

(** When [onError] returns, the promise of an operation is fulfilled
    however the fetcher, the transform and the other callbacks behave. *)
Lemma settle_fulfils op (outcome : Settlement Raw) (now : Z) w :
  (∀ typedError retryCount, onErrorReturns config typedError retryCount) →
  ∃ value, (settle asTData config op outcome now w).1 = Fulfilled value.
Proof.
  intros Hreturns. unfold settle. simpl. destruct outcome as [rawResult|error].
  - unfold tryClause. destruct (applyTransform asTData config op rawResult).
    + destruct (Operation.skipStoreUpdates op); [by eexists|].
      destruct (commitSuccess config op a now _); [by eexists|].
      by apply catchClause_fulfils.
    + by apply catchClause_fulfils.
  - by apply catchClause_fulfils.
Qed.

(** * Further properties of the engine *)

Set Warnings "-clear-no-such-hyp".

(** ** Pruning, and what is persisted *)

Lemma isValid_earlier (earlier later : Z) (preserve : option string) (key : string)
    (entry : CacheEntry.t Data) :
  earlier ≤ later →
  isValid later preserve key entry = true → isValid earlier preserve key entry = true.
Proof.
  intros Hle. rewrite !isValid_spec. intros [Hin | Hkey]; [left | by right].
  unfold withinCacheTime, le_num in *. destruct (CacheEntry.cacheTime entry); [lia | done].
Qed.

(** Both branches of [pruneCache] return the state with the filtered
    cache. *)
Lemma pruneCache_filter (keepPreviousData : bool) (keyToPreserve : option string)
    (pruneTime : Z) (state : StoreState.t Data) :
  pruneCache keepPreviousData keyToPreserve pruneTime state
  = StoreState.mk (StoreState.enabled state) (StoreState.error state)
      (StoreState.lastFetchedAt state)
      (filter (fun kv =>
                 isValid pruneTime (preservedKey keepPreviousData keyToPreserve state)
                   kv.1 kv.2 = true)
         (StoreState.queryCache state))
      (StoreState.queryKey state) (StoreState.status state).
Proof.
  unfold pruneCache. case_bool_decide as Hex; [done|].
  rewrite map_filter_id; [by destruct state|].
  intros key entry Hk. simpl.
  destruct (isValid _ _ key entry) eqn:Hv; [done|].
  exfalso. apply Hex. by exists key, entry.
Qed.

(** X1. [pruneCache] only removes entries: the cache it returns is
    included in the one it was given (no entry is added or altered), and
    the other fields of the state are untouched. *)
Theorem pruneCache_only_removes (keepPreviousData : bool) (keyToPreserve : option string)
    (pruneTime : Z) (state : StoreState.t Data) :
  let pruned := pruneCache keepPreviousData keyToPreserve pruneTime state in
  StoreState.queryCache pruned ⊆ StoreState.queryCache state
  ∧ StoreState.enabled pruned = StoreState.enabled state
  ∧ StoreState.error pruned = StoreState.error state
  ∧ StoreState.lastFetchedAt pruned = StoreState.lastFetchedAt state
  ∧ StoreState.queryKey pruned = StoreState.queryKey state
  ∧ StoreState.status pruned = StoreState.status state.
Proof.
  intros pruned. subst pruned. rewrite pruneCache_filter. simpl.
  split; [apply map_filter_subseteq | done].
Qed.

(** X2. Pruning composes: a pass at a later time makes an earlier pass
    with the same arguments redundant. In particular a pass is
    idempotent. *)
Theorem pruneCache_later_pass (keepPreviousData : bool) (keyToPreserve : option string)
    (earlier later : Z) (state : StoreState.t Data) :
  earlier ≤ later →
  pruneCache keepPreviousData keyToPreserve later
    (pruneCache keepPreviousData keyToPreserve earlier state)
  = pruneCache keepPreviousData keyToPreserve later state.
Proof.
  intros Hle. rewrite (pruneCache_filter _ _ later (pruneCache _ _ earlier state)).
  rewrite (pruneCache_filter _ _ earlier state). simpl.
  rewrite (pruneCache_filter _ _ later state).
  assert (preservedKey keepPreviousData keyToPreserve
            (StoreState.mk (StoreState.enabled state) (StoreState.error state)
               (StoreState.lastFetchedAt state)
               (filter (fun kv =>
                          isValid earlier (preservedKey keepPreviousData keyToPreserve state)
                            kv.1 kv.2 = true)
                  (StoreState.queryCache state))
               (StoreState.queryKey state) (StoreState.status state))
          = preservedKey keepPreviousData keyToPreserve state) as -> by done.
  f_equal. rewrite map_filter_filter. apply map_filter_ext.
  intros key entry _. simpl. split; [by intros [? _]|].
  intros Hv. split; [done|]. by apply (isValid_earlier earlier later).
Qed.

(** X3. What is persisted. The cache written to storage holds an entry of
    the live cache exactly when the entry is within its cache time at the
    time of writing, or is bound to the [queryKey] of the state while
    [keepPreviousData] is on and that key is not the empty string. Entries
    with an infinite cache time are therefore always persisted. *)
Theorem persisted_cache (keepPreviousData : bool) (pruneTime : Z)
    (state : StoreState.t Data) (key : string) (entry : CacheEntry.t Data) :
  (StoreState.queryCache (persistedInternalState keepPreviousData pruneTime state) !! key
     = Some entry
   ↔ StoreState.queryCache state !! key = Some entry
     ∧ (withinCacheTime pruneTime entry
        ∨ (keepPreviousData = true ∧ key = StoreState.queryKey state ∧ key ≠ EmptyString)))
  ∧ (StoreState.queryCache state !! key = Some entry →
     CacheEntry.cacheTime entry = Infinity →
     StoreState.queryCache (persistedInternalState keepPreviousData pruneTime state) !! key
       = Some entry).
Proof.
  unfold persistedInternalState. split; [apply pruneCache_when_persisted|].
  intros Hk Hinf. apply pruneCache_when_persisted. split; [done|]. left.
  unfold withinCacheTime. by rewrite Hinf.
Qed.

(** ** Parameter maps *)

Lemma getProp_assignProp (key key' : string) (value : Value) (params : Params) :
  getProp (assignProp key value params) key'
  = if String.eqb key key' then value else getProp params key'.
Proof.
  induction params as [|[k v] rest IH]; simpl.
  - done.
  - destruct (String.eqb_spec k key) as [->|Hne]; simpl.
    + by destruct (String.eqb key key').
    + destruct (String.eqb_spec k key') as [->|Hne'].
      * destruct (String.eqb_spec key key'); [congruence | done].
      * apply IH.
Qed.

Lemma elem_of_assignProp (key key' : string) (value : Value) (params : Params) :
  key' ∈ (assignProp key value params).*1 ↔ key' = key ∨ key' ∈ params.*1.
Proof.
  induction params as [|[k v] rest IH]; simpl.
  - rewrite list_elem_of_singleton. set_solver.
  - destruct (String.eqb_spec k key) as [->|Hne]; simpl.
    + set_solver.
    + rewrite !elem_of_cons, IH. naive_solver.
Qed.

Lemma NoDup_assignProp (key : string) (value : Value) (params : Params) :
  NoDup params.*1 → NoDup (assignProp key value params).*1.
Proof.
  induction params as [|[k v] rest IH]; simpl; intros Hnd.
  - apply NoDup_singleton.
  - apply NoDup_cons in Hnd as [Hnotin Hnd].
    destruct (String.eqb_spec k key) as [->|Hne]; simpl.
    + by apply NoDup_cons.
    + apply NoDup_cons. split; [|by apply IH].
      rewrite elem_of_assignProp. naive_solver.
Qed.

Lemma getProp_undefined (params : Params) (key : string) :
  key ∉ params.*1 → getProp params key = VUndefined.
Proof.
  induction params as [|[k v] rest IH]; simpl; [done|].
  rewrite not_elem_of_cons. intros [Hne Hnotin].
  destruct (String.eqb_spec k key); [congruence | by apply IH].
Qed.

Lemma fold_assignProp (attached acc : Params) :
  NoDup attached.*1 →
  let merged := fold_left (fun acc kv => assignProp kv.1 kv.2 acc) attached acc in
  (∀ key, getProp merged key
          = if decide (key ∈ attached.*1) then getProp attached key else getProp acc key)
  ∧ (∀ key, key ∈ merged.*1 ↔ key ∈ attached.*1 ∨ key ∈ acc.*1)
  ∧ (NoDup acc.*1 → NoDup merged.*1).
Proof.
  revert acc. induction attached as [|[k v] rest IH]; intros acc Hnd; simpl.
  - split; [done|]. split; [set_solver | done].
  - apply NoDup_cons in Hnd as [Hnotin Hnd].
    destruct (IH (assignProp k v acc) Hnd) as (Hget & Hin & Hnodup). simpl in *.
    split; [|split].
    + intros key. rewrite Hget, getProp_assignProp.
      destruct (String.eqb_spec k key) as [->|Hne].
      * rewrite decide_False by done. by rewrite decide_True by left.
      * destruct (decide (key ∈ rest.*1)).
        -- by rewrite decide_True by (by right).
        -- rewrite decide_False; [done|]. rewrite not_elem_of_cons. naive_solver.
    + intros key. rewrite Hin, elem_of_assignProp, elem_of_cons. naive_solver.
    + intros Hacc. by apply Hnodup, NoDup_assignProp.
Qed.

Lemma currentParams_lookup (attached static : Params) :
  NoDup attached.*1 → NoDup static.*1 →
  let current := getCurrentResolvedParams (Some attached) (Some static) in
  (∀ key, getProp current key
          = if decide (key ∈ attached.*1) then getProp attached key else getProp static key)
  ∧ (∀ key, key ∈ current.*1 ↔ key ∈ attached.*1 ∨ key ∈ static.*1)
  ∧ NoDup current.*1.
Proof.
  intros Hattached Hstatic current. subst current. unfold getCurrentResolvedParams. simpl.
  destruct (fold_assignProp attached static Hattached) as (Hget & Hin & Hnodup).
  split; [done|]. split; [done | by apply Hnodup].
Qed.

(** X4. [getCurrentResolvedParams]: a reactive parameter is bound to the
    current value of its cell, any other key keeps its static value (and
    a key bound nowhere reads [undefined]); the result binds exactly the
    keys of the two sources, each once. *)
Theorem getCurrentResolvedParams_lookup (attached static : Params) :
  NoDup attached.*1 → NoDup static.*1 →
  let current := getCurrentResolvedParams (Some attached) (Some static) in
  (∀ key, getProp current key
          = if decide (key ∈ attached.*1) then getProp attached key else getProp static key)
  ∧ (∀ key, key ∈ current.*1 ↔ key ∈ attached.*1 ∨ key ∈ static.*1)
  ∧ NoDup current.*1.
Proof.
  intros Hattached Hstatic current. subst current. unfold getCurrentResolvedParams. simpl.
  destruct (fold_assignProp attached static Hattached) as (Hget & Hin & Hnodup).
  split; [done|]. split; [done | by apply Hnodup].
Qed.

(** The query key is a function of the bound keys and of the lookups. *)
Lemma getQueryKey_ext (p1 p2 : Params) :
  NoDup p1.*1 → NoDup p2.*1 →
  (∀ key, key ∈ p1.*1 ↔ key ∈ p2.*1) →
  (∀ key, getProp p1 key = getProp p2 key) →
  getQueryKey p1 = getQueryKey p2.
Proof.
  intros Hnd1 Hnd2 Hkeys Hget. unfold getQueryKey, Object_keys.
  rewrite (sorted_keys_permutation p1.*1 p2.*1) by (by apply NoDup_Permutation).
  f_equal. apply list_fmap_ext. intros _ key _. apply Hget.
Qed.

Lemma resolveParam_step (seen : list (string * ParamResolvable Value))
    (acc : Params * Params * Params) (entry : string * ParamResolvable Value) :
  entry.1 ∉ seen.*1 →
  resolvedSoFar seen acc → resolvedSoFar (seen ++ [entry]) (resolveParam acc entry).
Proof.
  destruct acc as [[attached static] resolved]. destruct entry as [key param].
  unfold resolvedSoFar. simpl.
  intros Hfresh (Hna & Hns & Hnr & Hsa & Hss & Hrs & Hrk & Hget & Hval).
  assert (key ∉ attached.*1) as Hka by (intros Hin; by apply Hfresh, Hsa).
  assert (key ∉ static.*1) as Hks by (intros Hin; by apply Hfresh, Hss).
  assert (∀ key', key' ∈ (seen ++ [(key, param)]).*1 ↔ key' = key ∨ key' ∈ seen.*1) as Hseen.
  { intros key'. rewrite fmap_app, elem_of_app. simpl. rewrite list_elem_of_singleton.
    naive_solver. }
  assert (∀ value key' param',
            (key', param') ∈ seen ++ [(key, param)] → value = paramValue param →
            getProp (assignProp key value resolved) key' = paramValue param') as Hvalues.
  { intros value key' param' Hin ->. rewrite getProp_assignProp.
    apply elem_of_app in Hin as [Hin | Hin].
    - destruct (String.eqb_spec key key') as [->|Hne]; [|by apply Hval].
      exfalso. apply Hfresh. apply list_elem_of_fmap. by exists (key', param').
    - apply list_elem_of_singleton in Hin. injection Hin as -> ->.
      by rewrite String.eqb_refl. }
  destruct param as [value | value]; simpl.
  - repeat split; try done; try (by apply NoDup_assignProp).
    + intros key' Hin. apply Hseen. right. by apply Hsa.
    + intros key' Hin. apply Hseen. apply elem_of_assignProp in Hin as [->|Hin];
        [by left | right; by apply Hss].
    + rewrite elem_of_assignProp, Hseen, Hrs. naive_solver.
    + rewrite Hseen, elem_of_assignProp, Hrs. naive_solver.
    + rewrite !elem_of_assignProp, Hrk. naive_solver.
    + rewrite !elem_of_assignProp, Hrk. naive_solver.
    + intros key'. rewrite !getProp_assignProp, Hget.
      destruct (String.eqb_spec key key') as [<-|Hne]; [|done].
      by rewrite decide_False.
    + intros key' param' Hin. by apply (Hvalues value).
  - repeat split; try done; try (by apply NoDup_assignProp).
    + intros key' Hin. apply Hseen. apply elem_of_assignProp in Hin as [->|Hin];
        [by left | right; by apply Hsa].
    + intros key' Hin. apply Hseen. right. by apply Hss.
    + rewrite elem_of_assignProp, Hseen, Hrs. naive_solver.
    + rewrite Hseen, elem_of_assignProp, Hrs. naive_solver.
    + rewrite !elem_of_assignProp, Hrk. naive_solver.
    + rewrite !elem_of_assignProp, Hrk. naive_solver.
    + intros key'. rewrite !getProp_assignProp, Hget.
      destruct (String.eqb_spec key key') as [<-|Hne].
      * rewrite decide_True; [done|]. apply elem_of_assignProp. by left.
      * destruct (decide (key' ∈ attached.*1)) as [Hin|Hnotin].
        -- rewrite decide_True; [done|]. apply elem_of_assignProp. by right.
        -- rewrite decide_False; [done|]. rewrite elem_of_assignProp. naive_solver.
    + intros key' param' Hin. by apply (Hvalues value).
Qed.

Lemma resolveParam_fold (params seen : list (string * ParamResolvable Value))
    (acc : Params * Params * Params) :
  NoDup (seen ++ params).*1 →
  resolvedSoFar seen acc →
  resolvedSoFar (seen ++ params) (fold_left resolveParam params acc).
Proof.
  revert seen acc. induction params as [|entry rest IH]; intros seen acc Hnd Hinv; simpl.
  - by rewrite app_nil_r.
  - replace (seen ++ entry :: rest) with ((seen ++ [entry]) ++ rest) in *
      by (by rewrite <- app_assoc).
    apply IH; [done|]. apply resolveParam_step; [|done].
    rewrite !fmap_app in Hnd. simpl in Hnd.
    apply NoDup_app in Hnd as [Hnd _]. apply NoDup_app in Hnd as (_ & Hdisjoint & _).
    intros Hin. apply (Hdisjoint _ Hin). left.
Qed.

(** X5. [resolveParams] and [getCurrentResolvedParams] agree. For a
    configuration that names each parameter once, [resolvedParams] binds
    exactly the configured keys, each to the value of its parameter
    (static value, or value of the reactive cell), and the parameters that
    the engine later rebuilds from [attachVals] and [directValues] have the
    same lookups and the same query key. *)
Theorem resolveParams_consistent (enabled : ParamResolvable bool)
    (params : list (string * ParamResolvable Value)) :
  NoDup params.*1 →
  let resolved := resolveParams enabled params in
  let current :=
    getCurrentResolvedParams (Some (Resolved.attachVals resolved))
      (Some (Resolved.directValues resolved)) in
  (∀ key param, (key, param) ∈ params →
     getProp (Resolved.resolvedParams resolved) key = paramValue param)
  ∧ (∀ key, key ∈ (Resolved.resolvedParams resolved).*1 ↔ key ∈ params.*1)
  ∧ (∀ key, getProp current key = getProp (Resolved.resolvedParams resolved) key)
  ∧ getQueryKey current = getQueryKey (Resolved.resolvedParams resolved)
  ∧ Resolved.resolvedEnabled resolved = paramValue enabled.
Proof.
  intros Hnd resolved current.
  assert (resolvedSoFar params (fold_left resolveParam params (nil, nil, nil))) as Hinv.
  { apply (resolveParam_fold params nil); [done|].
    unfold resolvedSoFar. simpl. repeat split; try done; try apply NoDup_nil_2; set_solver. }
  destruct Hinv as (Hna & Hns & Hnr & Hsa & Hss & Hrs & Hrk & Hget & Hval).
  assert (Resolved.attachVals resolved = (fold_left resolveParam params (nil, nil, nil)).1.1
          ∧ Resolved.directValues resolved = (fold_left resolveParam params (nil, nil, nil)).1.2
          ∧ Resolved.resolvedParams resolved = (fold_left resolveParam params (nil, nil, nil)).2
          ∧ Resolved.resolvedEnabled resolved = paramValue enabled) as (Ha & Hd & Hr & He).
  { unfold resolved, resolveParams. by destruct enabled. }
  subst current. rewrite Ha, Hd, Hr.
  destruct (currentParams_lookup _ _ Hna Hns) as (Hcg & Hck & Hcn).
  split; [done|]. split; [done|].
  assert (∀ key,
    getProp (getCurrentResolvedParams
               (Some (fold_left resolveParam params (nil, nil, nil)).1.1)
               (Some (fold_left resolveParam params (nil, nil, nil)).1.2)) key
    = getProp (fold_left resolveParam params (nil, nil, nil)).2 key) as Hsame
    by (intros key; by rewrite Hcg, Hget).
  split; [done|]. split; [|done].
  apply getQueryKey_ext; [done | done | | done].
  intros key. by rewrite Hck, Hrk.
Qed.

(** ** Serialization *)

(** The serialized array is a function of the texts of its elements. *)
Lemma JSON_stringify_ext (l1 l2 : list Value) :
  (fun x => default "null"%string (stringify x)) <$> l1
  = (fun x => default "null"%string (stringify x)) <$> l2 →
  JSON_stringify l1 = JSON_stringify l2.
Proof.
  intros Heq. unfold JSON_stringify. simpl. do 2 f_equal.
  revert l2 Heq. induction l1 as [|x1 l1 IH]; intros [|x2 l2] Heq; simplify_eq/=; [done|].
  match goal with H : default _ (stringify x1) = default _ (stringify x2) |- _ =>
    unfold default, from_option in H; simpl in H; rewrite H end.
  destruct l1 as [|y1 l1], l2 as [|y2 l2]; simplify_eq/=; [done|].
  f_equal. f_equal. apply (IH (y2 :: l2)). simpl. by f_equal.
Qed.

(** X6. A parameter whose value is [undefined] and one whose value is
    [null] are not told apart: replacing every [undefined] value of a
    parameter map by [null] leaves the query key unchanged, so both share
    one cache entry. *)
Theorem getQueryKey_undefined_as_null (params : Params) :
  getQueryKey (prod_map id undefinedAsNull <$> params) = getQueryKey params.
Proof.
  unfold getQueryKey, Object_keys.
  assert ((prod_map id undefinedAsNull <$> params).*1 = params.*1) as ->.
  { rewrite <- list_fmap_compose. apply list_fmap_ext. by intros _ [k v] _. }
  apply JSON_stringify_ext. rewrite <- !list_fmap_compose.
  apply list_fmap_ext. intros _ key _. simpl.
  assert (getProp (prod_map id undefinedAsNull <$> params) key
          = if decide (key ∈ params.*1) then undefinedAsNull (getProp params key)
            else VUndefined) as ->.
  { induction params as [|[k v] rest IH]; [done|].
    rewrite !fmap_cons. cbn [getProp prod_map fst snd id].
    destruct (String.eqb_spec k key) as [->|Hne].
    - by rewrite decide_True by left.
    - rewrite IH. destruct (decide (key ∈ rest.*1)).
      + by rewrite decide_True by (by right).
      + rewrite decide_False; [done|]. rewrite not_elem_of_cons. naive_solver. }
  destruct (decide (key ∈ params.*1)) as [Hin|Hnotin].
  - by destruct (getProp params key).
  - by rewrite getProp_undefined.
Qed.

(** ** [isStale], [isDataExpired], [getStatus] *)

(** X7. Staleness and expiry only grow with time: on an unchanged store,
    once [isStale] (or [isDataExpired]) answers [true] it answers [true] at
    every later time, for the same override. *)
Theorem stale_and_expired_persist (override : option num) (now later : Z) w :
  now ≤ later →
  (isStale config override now w = true → isStale config override later w = true)
  ∧ (isDataExpired config override now w = true →
     isDataExpired config override later w = true).
Proof.
  intros Hle. unfold isStale, isDataExpired.
  destruct (knownLastFetchedAt config _ w) as [lastFetchedAt|]; [|done].
  assert (∀ duration,
            negb (leb_num (now - lastFetchedAt) duration) = true →
            negb (leb_num (later - lastFetchedAt) duration) = true) as Hgrow.
  { intros [ms|]; simpl; [|done]. rewrite !negb_true_iff, !Z.leb_gt. lia. }
  split; [apply Hgrow|].
  destruct (match override with Some o => Some o | None => _ end); [apply Hgrow | done].
Qed.

(** X8. [isDataExpired] and [getData] agree: with the cache enabled, when
    [isDataExpired()] answers [false] the current key has an entry and
    [getData()] returns the data of that entry. *)
Theorem getData_when_not_expired (now : Z) w :
  Config.disableCache config = false →
  isDataExpired config None now w = false →
  ∃ entry,
    StoreState.queryCache (Engine.state w) !! StoreState.queryKey (Engine.state w) = Some entry
    ∧ getData config None now w = CacheEntry.data entry.
Proof.
  intros Hcache. unfold isDataExpired, getData, knownLastFetchedAt. rewrite Hcache.
  destruct (StoreState.queryCache (Engine.state w) !! StoreState.queryKey (Engine.state w))
    as [entry|]; simpl; [|done].
  destruct (orNull (CacheEntry.lastFetchedAt entry)) as [lastFetchedAt|]; [|done].
  simpl. intros Hfresh. exists entry. split; [done|].
  rewrite Hfresh. by destruct (Config.keepPreviousData config).
Qed.

(** X9. The two staleness tests differ at the boundary. When the age of
    the data equals the stale time exactly, [isStale()] answers [false],
    while the test inside [fetch] counts the data as stale and does not
    serve it from the cache. *)
Theorem stale_boundary (effectiveParams : Params) (now lastFetchedAt staleTime : Z) w :
  knownLastFetchedAt config (StoreState.queryKey (Engine.state w)) w = Some lastFetchedAt →
  Config.staleTime config = Finite staleTime →
  now - lastFetchedAt = staleTime →
  isStale config None now w = false
  ∧ cachedResult config effectiveParams (StoreState.queryKey (Engine.state w)) None now w
    = None.
Proof.
  intros Hknown Hstale Hage. unfold isStale, cachedResult, effectiveStaleTimeOf.
  rewrite Hknown, Hstale. simpl. rewrite Hage. rewrite Z.leb_refl. done.
Qed.

(** X10. [getStatus] reports exactly one of error, fetching, idle and
    success; it reports an initial loading only while fetching, and only
    when no fetch time is known for the current key. *)
Theorem getStatus_flags w :
  let info := getStatus config w in
  (QueryStatusInfo.isError info = true ∧ QueryStatusInfo.isFetching info = false
     ∧ QueryStatusInfo.isIdle info = false ∧ QueryStatusInfo.isSuccess info = false
   ∨ QueryStatusInfo.isError info = false ∧ QueryStatusInfo.isFetching info = true
     ∧ QueryStatusInfo.isIdle info = false ∧ QueryStatusInfo.isSuccess info = false
   ∨ QueryStatusInfo.isError info = false ∧ QueryStatusInfo.isFetching info = false
     ∧ QueryStatusInfo.isIdle info = true ∧ QueryStatusInfo.isSuccess info = false
   ∨ QueryStatusInfo.isError info = false ∧ QueryStatusInfo.isFetching info = false
     ∧ QueryStatusInfo.isIdle info = false ∧ QueryStatusInfo.isSuccess info = true)
  ∧ (QueryStatusInfo.isInitialLoading info = true ↔
     QueryStatusInfo.isFetching info = true
     ∧ knownLastFetchedAt config (StoreState.queryKey (Engine.state w)) w = None).
Proof.
  unfold getStatus. simpl.
  destruct (knownLastFetchedAt config _ w) as [lastFetchedAt|];
    destruct (StoreState.status (Engine.state w)); simpl;
    (split; [tauto | split; [by intros ?| by intros [? ?]]]).
Qed.

(** ** Calls to the fetcher *)

Lemma fetcherCalls_snoc (trace : list (Event Data)) (event : Event Data) :
  fetcherCalls (trace ++ [event])
  = (fetcherCalls trace + if isFetcherCall event then 1 else 0)%nat.
Proof.
  unfold fetcherCalls. rewrite List.filter_app, length_app. simpl.
  by destruct (isFetcherCall event).
Qed.

Lemma abortActiveFetch_fetcherCalls w :
  fetcherCalls (Engine.trace (abortActiveFetch w)) = fetcherCalls (Engine.trace w).
Proof.
  unfold abortActiveFetch. destruct (Engine.activeAbortController w); [|done].
  simpl. rewrite fetcherCalls_snoc. simpl. lia.
Qed.

Lemma scheduleNextFetch_trace (params : Params) (options : option FetchOptions.t)
    (now : Z) w :
  Engine.trace (scheduleNextFetch config params options now w) = Engine.trace w
  ∧ Engine.state (scheduleNextFetch config params options now w) = Engine.state w.
Proof.
  unfold scheduleNextFetch. destruct (Config.disableAutoRefetching config); [done|].
  destruct (effectiveStaleTimeOf config options) as [s|]; [|done].
  destruct (s <=? 0); [done|]. unfold Engine.clearActiveRefetchTimeout.
  by destruct (Engine.activeRefetchTimeout w).
Qed.

(** Serving from the cache touches neither the trace nor the cache. *)
Lemma cachedResult_frame (effectiveParams : Params) (currentQueryKey : string)
    (options : option FetchOptions.t) (now : Z) w (cached : option Data) w' :
  cachedResult config effectiveParams currentQueryKey options now w = Some (cached, w') →
  Engine.trace w' = Engine.trace w
  ∧ StoreState.queryCache (Engine.state w') = StoreState.queryCache (Engine.state w)
  ∧ StoreState.status (Engine.state w') = StoreState.status (Engine.state w)
  ∧ StoreState.error (Engine.state w') = StoreState.error (Engine.state w)
  ∧ cached = StoreState.queryCache (Engine.state w) !! currentQueryKey ≫= CacheEntry.data.
Proof.
  unfold cachedResult.
  destruct (negb _ && (negb _ || _)); [|done].
  intros [= <- <-].
  match goal with |- context [if ?c then scheduleNextFetch _ _ _ _ _ else _] =>
    destruct c end;
    destruct (Config.keepPreviousData config && _); simpl;
    try destruct (scheduleNextFetch_trace effectiveParams options now w) as [-> ->]; done.
Qed.

Lemma catchClause_fetcherCalls op (error : Thrown) (now : Z) w :
  fetcherCalls (Engine.trace (catchClause config op error now w).2)
  = fetcherCalls (Engine.trace w).
Proof.
  unfold catchClause. destruct (isAbortError error); [done|].
  destruct (Operation.skipStoreUpdates op); simpl.
  { rewrite fetcherCalls_snoc. simpl. lia. }
  assert (∀ w1 : Engine.t Data,
    fetcherCalls (Engine.trace w1) = fetcherCalls (Engine.trace w) →
    fetcherCalls (Engine.trace
      (Engine.emit
         (LoggerError FailedToFetchData (logContext config (Operation.currentQueryKey op)) error)
         (if (retryCountOf (entrySeen config (Operation.currentQueryKey op) w)
              <? Config.maxRetries config)%nat
          then
            let w' :=
              if (0 <? Subscription.subscriptionCount (Engine.subscriptionManager w1))%nat
              then
                match errorRetryDelayOf config
                        (retryCountOf (entrySeen config (Operation.currentQueryKey op) w))
                        (typedErrorOf error) with
                | Finite errorRetryDelay =>
                    Engine.setTimeout errorRetryDelay (Operation.params op) w1
                | Infinity => w1
                end
              else w1 in
            Engine.setState
              (recordFailure config op (typedErrorOf error)
                 (entrySeen config (Operation.currentQueryKey op) w)
                 (retryCountOf (entrySeen config (Operation.currentQueryKey op) w) + 1) now
                 (Engine.state w')) w'
          else
            Engine.setState
              (recordFailure config op (typedErrorOf error)
                 (entrySeen config (Operation.currentQueryKey op) w)
                 (Config.maxRetries config) now (Engine.state w1)) w1)))
    = fetcherCalls (Engine.trace w)) as Hrest.
  { intros w1 Hw1. simpl. rewrite fetcherCalls_snoc. simpl. rewrite Nat.add_0_r.
    destruct (_ <? Config.maxRetries config)%nat; [|done].
    destruct (0 <? _)%nat; [|done].
    by destruct (errorRetryDelayOf config _ _). }
  destruct (Config.onError config) as [onError|].
  - destruct (onError _ _).
    + apply Hrest. simpl. rewrite fetcherCalls_snoc. simpl. lia.
    + simpl. rewrite fetcherCalls_snoc. simpl. lia.
  - by apply Hrest.
Qed.

Lemma startOperation_fetcherCalls (params : option Params) (effectiveParams : Params)
    (currentQueryKey : string) (options : option FetchOptions.t) (now : Z)
    (thrownByFetcher : option Thrown) w :
  let call :=
    startOperation config params effectiveParams currentQueryKey options now thrownByFetcher w in
  fetcherCalls (Engine.trace (engine call)) = S (fetcherCalls (Engine.trace w))
  ∧ ∃ p, returned call = ReturnPromise p.
Proof.
  unfold startOperation.
  destruct (Config.abortInterruptedFetches config && negb (skipsStoreUpdates options)); simpl.
  - split; [|by eexists].
    destruct (skipsStoreUpdates options); simpl; rewrite fetcherCalls_snoc; simpl; lia.
  - destruct thrownByFetcher as [thrown|]; simpl.
    + split; [|by eexists].
      match goal with |- context [catchClause config ?op thrown now ?w0] =>
        pose proof (catchClause_fetcherCalls op thrown now w0) as Hcatch;
        destruct (catchClause config op thrown now w0) as [result w'] end.
      simpl in *. unfold finallyClause.
      destruct (skipsStoreUpdates options) eqn:Hskip;
        unfold Operation.skipStoreUpdates; simpl; rewrite Hskip; simpl;
        rewrite Hcatch, fetcherCalls_snoc; simpl; lia.
    + split; [|by eexists].
      destruct (skipsStoreUpdates options); simpl; rewrite fetcherCalls_snoc; simpl; lia.
Qed.

(** The fetcher calls of one [fetch]. *)
Lemma fetch_calls (params : option Params) (options : option FetchOptions.t)
    (now : Z) (thrownByFetcher : option Thrown) w :
  let call := fetch config params options now thrownByFetcher w in
  (fetcherCalls (Engine.trace (engine call)) ≤ S (fetcherCalls (Engine.trace w)))%nat
  ∧ (forced options = true →
     fetcherCalls (Engine.trace (engine call)) = S (fetcherCalls (Engine.trace w))
     ∧ ∃ p, returned call = ReturnPromise p)
  ∧ (∀ value, returned call = ReturnValue value →
     fetcherCalls (Engine.trace (engine call)) = fetcherCalls (Engine.trace w)).
Proof.
  unfold fetch.
  set (key := getQueryKey
                (default (getCurrentResolvedParams (Engine.attachVals w) (Engine.directValues w))
                   params)).
  set (w1 := if Config.abortInterruptedFetches config && negb (skipsStoreUpdates options)
             then abortActiveFetch w else w).
  assert (fetcherCalls (Engine.trace w1) = fetcherCalls (Engine.trace w)) as Hw1.
  { unfold w1.
    destruct (Config.abortInterruptedFetches config && negb (skipsStoreUpdates options));
      [apply abortActiveFetch_fetcherCalls | done]. }
  assert (∀ w0 : Engine.t Data,
            fetcherCalls (Engine.trace w0) = fetcherCalls (Engine.trace w) →
            let call :=
              startOperation config params
                (default (getCurrentResolvedParams (Engine.attachVals w) (Engine.directValues w))
                   params)
                key options now thrownByFetcher w0 in
            (fetcherCalls (Engine.trace (engine call)) ≤ S (fetcherCalls (Engine.trace w)))%nat
            ∧ (forced options = true →
               fetcherCalls (Engine.trace (engine call)) = S (fetcherCalls (Engine.trace w))
               ∧ ∃ p, returned call = ReturnPromise p)
            ∧ (∀ value, returned call = ReturnValue value →
               fetcherCalls (Engine.trace (engine call)) = fetcherCalls (Engine.trace w)))
    as Hstart.
  { intros w0 Hw0 call.
    destruct (startOperation_fetcherCalls params
                (default (getCurrentResolvedParams (Engine.attachVals w) (Engine.directValues w))
                   params) key options now thrownByFetcher w0) as [Hcalls [p Hp]].
    fold call in Hcalls, Hp. rewrite Hcalls, Hw0, Hp.
    split; [lia|]. split; [by eauto | done]. }
  assert (∀ w0 : Engine.t Data,
            fetcherCalls (Engine.trace w0) = fetcherCalls (Engine.trace w) →
            fetcherCalls
              (Engine.trace
                 (if skipsStoreUpdates options then w0
                  else
                    Engine.setActiveFetch (Some (ActiveFetch.mk key None))
                      (if bool_decide (is_Some (StoreState.error (Engine.state w)))
                          || negb (bool_decide (StoreState.status (Engine.state w) = Loading))
                       then
                         Engine.setState
                           (StoreState.mk (StoreState.enabled (Engine.state w0)) None
                              (StoreState.lastFetchedAt (Engine.state w0))
                              (StoreState.queryCache (Engine.state w0))
                              (StoreState.queryKey (Engine.state w0)) Loading) w0
                       else w0)))
            = fetcherCalls (Engine.trace w)) as Hprepare.
  { intros w0 Hw0. destruct (skipsStoreUpdates options); [done|]. simpl.
    by destruct (bool_decide (is_Some (StoreState.error (Engine.state w)))
                 || negb (bool_decide (StoreState.status (Engine.state w) = Loading))). }
  destruct (forced options) eqn:Hforce; simpl.
  - destruct (inFlightPromise key _ options w) as [p|] eqn:Hflight.
    { unfold inFlightPromise in Hflight. rewrite Hforce in Hflight.
      destruct (Engine.activeFetch w) as [active|]; [|done].
      destruct (ActiveFetch.promise active); [|done].
      simpl in Hflight. by rewrite andb_false_r in Hflight. }
    apply Hstart. by apply Hprepare.
  - destruct (Subscription.enabled (Engine.subscriptionManager w)); simpl;
      [|split; [lia | by split]].
    destruct (inFlightPromise key _ options w) as [p|]; simpl; [split; [lia | by split]|].
    destruct (cachedResult config _ key options now w1) as [[cached w2]|] eqn:Hcached.
    + simpl. apply cachedResult_frame in Hcached as (Htrace & _). rewrite Htrace, Hw1.
      split; [lia | by split].
    + apply Hstart. by apply Hprepare.
Qed.

(** X11. One call to [fetch] calls the fetcher at most once. It calls it
    exactly once, and returns a promise, whenever [force] is set,
    whatever the cache holds and whether or not the engine is enabled;
    and it does not call it when it returns a plain value ([null] or
    cached data). *)
Theorem fetch_fetcher_calls (params : option Params) (options : option FetchOptions.t)
    (now : Z) (thrownByFetcher : option Thrown) w :
  let call := fetch config params options now thrownByFetcher w in
  (fetcherCalls (Engine.trace (engine call)) ≤ S (fetcherCalls (Engine.trace w)))%nat
  ∧ (forced options = true →
     fetcherCalls (Engine.trace (engine call)) = S (fetcherCalls (Engine.trace w))
     ∧ ∃ p, returned call = ReturnPromise p)
  ∧ (∀ value, returned call = ReturnValue value →
     fetcherCalls (Engine.trace (engine call)) = fetcherCalls (Engine.trace w)).
Proof. apply fetch_calls. Qed.

(** ** What the engine never writes *)

Lemma sameSurroundings_refl w : sameSurroundings w w.
Proof. by repeat split. Qed.

Lemma sameSurroundings_trans w1 w2 w3 :
  sameSurroundings w1 w2 → sameSurroundings w2 w3 → sameSurroundings w1 w3.
Proof. intros (? & ? & ?) (? & ? & ?). repeat split; congruence. Qed.

Lemma abortActiveFetch_frame w :
  let w' := abortActiveFetch w in
  sameSurroundings w w'
  ∧ Engine.state w' = Engine.state w
  ∧ Engine.lastFetchKey w' = Engine.lastFetchKey w
  ∧ Engine.activeFetch w' = Engine.activeFetch w
  ∧ Engine.activeRefetchTimeout w' = Engine.activeRefetchTimeout w
  ∧ Engine.timers w' = Engine.timers w
  ∧ Engine.activeAbortController w' = None.
Proof.
  unfold abortActiveFetch, sameSurroundings.
  by destruct (Engine.activeAbortController w) eqn:Hc.
Qed.

Lemma scheduleNextFetch_frame (params : Params) (options : option FetchOptions.t)
    (now : Z) w :
  let w' := scheduleNextFetch config params options now w in
  sameSurroundings w w'
  ∧ Engine.state w' = Engine.state w
  ∧ Engine.lastFetchKey w' = Engine.lastFetchKey w
  ∧ Engine.activeFetch w' = Engine.activeFetch w
  ∧ Engine.activeAbortController w' = Engine.activeAbortController w
  ∧ Engine.trace w' = Engine.trace w.
Proof.
  unfold scheduleNextFetch, sameSurroundings.
  destruct (Config.disableAutoRefetching config); [done|].
  destruct (effectiveStaleTimeOf config options) as [s|]; [|done].
  destruct (s <=? 0); [done|]. unfold Engine.clearActiveRefetchTimeout.
  by destruct (Engine.activeRefetchTimeout w).
Qed.

Lemma cachedResult_surroundings (effectiveParams : Params) (key : string)
    (options : option FetchOptions.t) (now : Z) w (cached : option Data) w' :
  cachedResult config effectiveParams key options now w = Some (cached, w') →
  sameSurroundings w w'.
Proof.
  unfold cachedResult. destruct (negb _ && (negb _ || _)); [|done]. intros [= <- <-].
  destruct (scheduleNextFetch_frame effectiveParams options now w) as (Hs & _).
  match goal with |- context [if ?c then scheduleNextFetch _ _ _ _ _ else _] =>
    destruct c end;
    destruct (Config.keepPreviousData config && _);
    unfold sameSurroundings, Engine.setState in *; simpl; done.
Qed.

Lemma catchClause_frame op (error : Thrown) (now : Z) w :
  let w' := (catchClause config op error now w).2 in
  sameSurroundings w w'
  ∧ Engine.lastFetchKey w' = Engine.lastFetchKey w
  ∧ Engine.activeFetch w' = Engine.activeFetch w
  ∧ Engine.activeAbortController w' = Engine.activeAbortController w.
Proof.
  unfold catchClause, sameSurroundings.
  destruct (isAbortError error); [done|].
  destruct (Operation.skipStoreUpdates op); [done|].
  destruct (Config.onError config) as [onError|]; [destruct (onError _ _)|]; simpl;
    try done;
    (destruct (_ <? Config.maxRetries config)%nat; [|done];
     destruct (0 <? _)%nat; [|done];
     by destruct (errorRetryDelayOf config _ _)).
Qed.

Lemma startOperation_surroundings (params : option Params) (effectiveParams : Params)
    (key : string) (options : option FetchOptions.t) (now : Z)
    (thrownByFetcher : option Thrown) w :
  sameSurroundings w
    (engine (startOperation config params effectiveParams key options now thrownByFetcher w)).
Proof.
  unfold startOperation.
  destruct (Config.abortInterruptedFetches config && negb (skipsStoreUpdates options)); simpl.
  - by destruct (skipsStoreUpdates options).
  - destruct thrownByFetcher as [thrown|]; simpl; [|by destruct (skipsStoreUpdates options)].
    match goal with |- context [catchClause config ?op thrown now ?w0] =>
      destruct (catchClause_frame op thrown now w0) as (Hcatch & _);
      destruct (catchClause config op thrown now w0) as [result w'] end.
    simpl in *. unfold finallyClause, Operation.skipStoreUpdates. simpl.
    destruct (skipsStoreUpdates options); simpl; exact Hcatch.
Qed.

(** [fetch] never writes the subscription snapshot or the parameter
    sources. *)
Lemma fetch_surroundings (params : option Params) (options : option FetchOptions.t)
    (now : Z) (thrownByFetcher : option Thrown) w :
  sameSurroundings w (engine (fetch config params options now thrownByFetcher w)).
Proof.
  unfold fetch.
  destruct (negb (forced options) && _); [apply sameSurroundings_refl|].
  destruct (inFlightPromise _ _ options w); [apply sameSurroundings_refl|].
  set (w1 := if Config.abortInterruptedFetches config && negb (skipsStoreUpdates options)
             then abortActiveFetch w else w).
  assert (sameSurroundings w w1) as Hw1.
  { unfold w1.
    destruct (Config.abortInterruptedFetches config && negb (skipsStoreUpdates options));
      [|apply sameSurroundings_refl].
    by destruct (abortActiveFetch_frame w) as (Hs & _). }
  destruct (if forced options then None else cachedResult config _ _ options now w1)
    as [[cached w2]|] eqn:Hcached.
  { simpl. destruct (forced options); [done|].
    apply cachedResult_surroundings in Hcached.
    eapply sameSurroundings_trans; [exact Hw1 | exact Hcached]. }
  eapply sameSurroundings_trans; [|apply startOperation_surroundings].
  eapply sameSurroundings_trans; [exact Hw1|].
  destruct (skipsStoreUpdates options); [apply sameSurroundings_refl|].
  by destruct (bool_decide _ || negb _).
Qed.

(** ** What [onFetched] may and may not touch *)

Lemma runFetchedActions_surroundings (now : Z) (calls : list (FetchedAction Data))
    (acc : list Operation.t * Engine.t Data) :
  sameSurroundings acc.2 (fold_left (runFetchedAction config now) calls acc).2.
Proof.
  revert acc. induction calls as [|action calls IH]; intros acc; simpl;
    [apply sameSurroundings_refl|].
  eapply sameSurroundings_trans; [|apply IH].
  destruct action as [update|params options thrownByFetcher]; simpl.
  - by repeat split.
  - apply fetch_surroundings.
Qed.

(** The calls that [onFetched] makes to [set] and [fetch] write neither
    the subscription snapshot nor the parameter sources. *)
Lemma notifyFetched_surroundings op (transformedData : Data) (now : Z) w :
  sameSurroundings w (notifyFetched config op transformedData now w).
Proof.
  unfold notifyFetched, runOnFetched.
  destruct (Config.onFetched config) as [onFetched|]; [|apply sameSurroundings_refl].
  cbv zeta.
  match goal with |- context [fold_left ?f ?calls ?acc] =>
    pose proof (runFetchedActions_surroundings now calls acc) as Hran end.
  simpl in Hran.
  destruct (OnFetched.outcome _); simpl.
  - eapply sameSurroundings_trans; [|exact Hran]. by repeat split.
  - eapply sameSurroundings_trans; [|eapply sameSurroundings_trans; [exact Hran|]];
      by repeat split.
Qed.

(** An [onFetched] that calls neither [set] nor [fetch] changes nothing
    but the trace, where it adds no fetcher call. *)
Lemma notifyFetched_quiet op (transformedData : Data) (now : Z) w :
  onFetchedCalls config transformedData (Operation.effectiveParams op) = [] →
  let w' := notifyFetched config op transformedData now w in
  Engine.state w' = Engine.state w
  ∧ Engine.lastFetchKey w' = Engine.lastFetchKey w
  ∧ Engine.activeFetch w' = Engine.activeFetch w
  ∧ Engine.activeRefetchTimeout w' = Engine.activeRefetchTimeout w
  ∧ Engine.timers w' = Engine.timers w
  ∧ Engine.activeAbortController w' = Engine.activeAbortController w
  ∧ fetcherCalls (Engine.trace w') = fetcherCalls (Engine.trace w).
Proof.
  unfold onFetchedCalls, notifyFetched, runOnFetched.
  destruct (Config.onFetched config) as [onFetched|]; [|done].
  intros ->. simpl.
  destruct (OnFetched.outcome _); simpl; rewrite ?fetcherCalls_snoc; simpl;
    repeat split; lia.
Qed.

Lemma tryClause_frame op (rawResult : Raw) (now : Z) w :
  sameSurroundings w (tryClause asTData config op rawResult now w).2.
Proof.
  unfold tryClause.
  destruct (applyTransform asTData config op rawResult) as [transformedData|thrown].
  - destruct (Operation.skipStoreUpdates op); [apply sameSurroundings_refl|].
    destruct (commitSuccess config op transformedData now (Engine.state w)) as [newState|thrown].
    + cbv zeta. simpl.
      eapply sameSurroundings_trans; [|apply notifyFetched_surroundings].
      match goal with |- context [scheduleNextFetch config ?a ?b ?c ?w00] =>
        destruct (scheduleNextFetch_frame a b c w00) as (Hs & _) end.
      eapply sameSurroundings_trans; [|exact Hs].
      destruct (Config.setData config); by repeat split.
    + match goal with |- context [catchClause config op thrown now ?w0] =>
        destruct (catchClause_frame op thrown now w0) as (Hc & _) end.
      eapply sameSurroundings_trans; [|exact Hc].
      destruct (Config.setData config); by repeat split.
  - by destruct (catchClause_frame op thrown now w) as (Hc & _).
Qed.

(** Settling never writes the subscription snapshot or the parameter
    sources, and leaves no abort controller other than the one that was
    active. *)
Lemma settle_surroundings op (outcome : Settlement Raw) (now : Z) w :
  sameSurroundings w (settle asTData config op outcome now w).2.
Proof.
  unfold settle. simpl.
  destruct (releaseController_frame op w) as (_ & Hm & _).
  assert (sameSurroundings w (releaseController op w)) as Hrelease.
  { unfold releaseController, sameSurroundings.
    destruct (Operation.controller op); [|done]. by case_bool_decide. }
  eapply sameSurroundings_trans; [exact Hrelease|].
  assert (∀ w1 : Engine.t Data,
            sameSurroundings (releaseController op w) w1 →
            sameSurroundings (releaseController op w) (finallyClause op w1)) as Hfinally.
  { intros w1 Hw1. unfold finallyClause. by destruct (Operation.skipStoreUpdates op). }
  destruct outcome as [rawResult|error]; apply Hfinally.
  - apply tryClause_frame.
  - apply catchClause_frame.
Qed.

(** ** The success path *)

(** The state committed on success, for a store that caches and has no
    [setData]. *)
Lemma commitSuccess_state op (transformedData : Data) (now : Z) (state : StoreState.t Data) :
  Config.setData config = None →
  Config.disableCache config = false →
  ∃ committed,
    commitSuccess config op transformedData now state = Returns committed
    ∧ StoreState.status committed = Success
    ∧ StoreState.error committed = None
    ∧ StoreState.lastFetchedAt committed = Some now
    ∧ StoreState.enabled committed = StoreState.enabled state
    ∧ StoreState.queryKey committed
      = (if Config.keepPreviousData config then Operation.currentQueryKey op
         else StoreState.queryKey state)
    ∧ StoreState.queryCache committed !! Operation.currentQueryKey op
      = Some (CacheEntry.fetched (resolvedCacheTime config (Operation.effectiveParams op))
                (Some transformedData) now)
    ∧ (∀ key, key ≠ Operation.currentQueryKey op →
         StoreState.queryCache committed !! key = None
         ∨ StoreState.queryCache committed !! key = StoreState.queryCache state !! key).
Proof.
  intros Hset Hcache. unfold commitSuccess, writeSuccess. rewrite Hset, Hcache. simpl.
  destruct (cacheTimeIsInfinity config).
  - eexists. split; [done|]. simpl. rewrite lookup_insert_eq. repeat split; try done.
    intros key Hne. right. by rewrite lookup_insert_ne.
  - eexists. split; [done|].
    match goal with |- context [pruneCache ?k ?p ?t ?s] =>
      destruct (pruneCache_frame k p t s) as (He & Herr & Hat & Hkey & Hstatus);
      set (pruned := pruneCache k p t s) in *;
      assert (∀ key entry, StoreState.queryCache pruned !! key = Some entry
                ↔ StoreState.queryCache s !! key = Some entry
                  ∧ (withinCacheTime t entry ∨ Some key = preservedKey k p s)) as Hlookup
        by (intros; apply pruneCache_lookup)
    end.
    simpl in *. rewrite Hstatus, Herr, Hat, He, Hkey. repeat split; try done.
    + apply Hlookup. rewrite lookup_insert_eq. split; [done | by right].
    + intros key Hne.
      destruct (StoreState.queryCache pruned !! key) as [entry|] eqn:Hk; [|by left].
      right. apply Hlookup in Hk as [Hk _]. by rewrite lookup_insert_ne in Hk.
Qed.

(** What a successful settlement leaves in the engine when [onFetched]
    calls neither [set] nor [fetch]. *)
Lemma settle_success_engine op (rawResult : Raw) (transformedData : Data) (now : Z) w :
  Operation.skipStoreUpdates op = false →
  applyTransform asTData config op rawResult = Returns transformedData →
  Config.setData config = None →
  Config.disableCache config = false →
  onFetchedCalls config transformedData (Operation.effectiveParams op) = [] →
  ∃ committed,
    commitSuccess config op transformedData now (Engine.state w) = Returns committed
    ∧ (settle asTData config op (Fulfilled rawResult) now w).1 = Fulfilled (Some transformedData)
    ∧ Engine.state (settle asTData config op (Fulfilled rawResult) now w).2 = committed
    ∧ Engine.lastFetchKey (settle asTData config op (Fulfilled rawResult) now w).2
      = Some (Operation.currentQueryKey op)
    ∧ Engine.activeFetch (settle asTData config op (Fulfilled rawResult) now w).2 = None
    ∧ fetcherCalls (Engine.trace (settle asTData config op (Fulfilled rawResult) now w).2)
      = fetcherCalls (Engine.trace w).
Proof.
  intros Hskip Htransform Hset Hcache Hquiet.
  destruct (commitSuccess_state op transformedData now (Engine.state w) Hset Hcache)
    as (committed & Hcommit & _).
  exists committed. split; [done|].
  destruct (releaseController_frame op w) as (Hs & _ & _ & _ & _ & _ & Htrace).
  unfold settle, tryClause, finallyClause. rewrite Htransform, Hskip, Hset, Hs, Hcommit.
  cbv zeta. simpl.
  match goal with |- context [notifyFetched config op transformedData now ?w0] =>
    destruct (notifyFetched_quiet op transformedData now w0 Hquiet)
      as (Hns & Hnk & _ & _ & _ & _ & Hnt);
    match w0 with scheduleNextFetch config ?a ?b ?c ?w00 =>
      destruct (scheduleNextFetch_frame a b c w00) as (_ & Hss & Hsk & _ & _ & Hst)
    end
  end.
  cbv zeta in *. rewrite Hns, Hnk, Hnt, Hss, Hsk, Hst. simpl. by rewrite Htrace.
Qed.

(** The promise of a successful operation and [activeFetch], whatever
    [onFetched] does with [set] and [fetch]. *)
Lemma settle_success_promise op (rawResult : Raw) (transformedData : Data) (now : Z) w :
  Operation.skipStoreUpdates op = false →
  applyTransform asTData config op rawResult = Returns transformedData →
  Config.setData config = None →
  let result := settle asTData config op (Fulfilled rawResult) now w in
  result.1 = Fulfilled (Some transformedData)
  ∧ Engine.promises result.2 !! Operation.promise op = Some (Fulfilled (Some transformedData))
  ∧ Engine.activeFetch result.2 = None.
Proof.
  intros Hskip Htransform Hset result. subst result.
  assert ((settle asTData config op (Fulfilled rawResult) now w).1
          = Fulfilled (Some transformedData)) as Hresult.
  { unfold settle, tryClause. rewrite Htransform, Hskip, Hset. cbn [fst].
    unfold commitSuccess, writeSuccess. rewrite Hset.
    by destruct (Config.disableCache config), (cacheTimeIsInfinity config). }
  split; [exact Hresult|]. unfold settle in *. cbn [fst snd] in *.
  unfold finallyClause. rewrite Hskip. simpl. rewrite lookup_insert_eq.
  split; [by f_equal | done].
Qed.

(** X12. After a successful fetch the store holds the result. For an
    operation that updates the store (no [setData], cache enabled) whose
    fetcher fulfils and whose transform returns: the promise resolves to
    the transformed data and [activeFetch] is cleared, whatever
    [onFetched] does with the [set] and [fetch] it is handed. When
    [onFetched] calls neither of them (whether it returns or throws),
    [status] is [success], [error] is [null], the entry of the fetched
    key holds the transformed data with no [errorInfo] and the time of
    the fetch, and [lastFetchKey] is that key. *)
Theorem settle_success op (rawResult : Raw) (transformedData : Data) (now : Z) w :
  Operation.skipStoreUpdates op = false →
  applyTransform asTData config op rawResult = Returns transformedData →
  Config.setData config = None →
  Config.disableCache config = false →
  let result := settle asTData config op (Fulfilled rawResult) now w in
  result.1 = Fulfilled (Some transformedData)
  ∧ Engine.promises result.2 !! Operation.promise op = Some (Fulfilled (Some transformedData))
  ∧ Engine.activeFetch result.2 = None
  ∧ (onFetchedCalls config transformedData (Operation.effectiveParams op) = [] →
     StoreState.status (Engine.state result.2) = Success
     ∧ StoreState.error (Engine.state result.2) = None
     ∧ StoreState.queryCache (Engine.state result.2) !! Operation.currentQueryKey op
       = Some (CacheEntry.fetched (resolvedCacheTime config (Operation.effectiveParams op))
                 (Some transformedData) now)
     ∧ Engine.lastFetchKey result.2 = Some (Operation.currentQueryKey op)).
Proof.
  intros Hskip Htransform Hset Hcache result. subst result.
  destruct (settle_success_promise op rawResult transformedData now w Hskip Htransform Hset)
    as (Hresult & Hpromise & Hactive).
  split; [exact Hresult|]. split; [exact Hpromise|]. split; [exact Hactive|].
  intros Hquiet.
  destruct (settle_success_engine op rawResult transformedData now w
              Hskip Htransform Hset Hcache Hquiet)
    as (committed & Hcommit & _ & Hstate & Hkey & _).
  destruct (commitSuccess_state op transformedData now (Engine.state w) Hset Hcache)
    as (committed' & Hcommit' & Hstatus & Herror & _ & _ & _ & Hentry & _).
  rewrite Hcommit in Hcommit'. injection Hcommit' as <-.
  rewrite Hstate. by repeat split.
Qed.




(** X13. Round trip through the cache. After such a settlement at time
    [now], with an [onFetched] that calls neither [set] nor [fetch],
    [getData] for the parameters of the fetch returns the transformed
    data at every time [later] with [later - now <= cacheTime], and at
    every time under [keepPreviousData]. *)
Theorem getData_after_success op (rawResult : Raw) (transformedData : Data)
    (now later : Z) w :
  Operation.skipStoreUpdates op = false →
  applyTransform asTData config op rawResult = Returns transformedData →
  Config.setData config = None →
  Config.disableCache config = false →
  onFetchedCalls config transformedData (Operation.effectiveParams op) = [] →
  Operation.currentQueryKey op = getQueryKey (Operation.effectiveParams op) →
  Config.keepPreviousData config = true
  ∨ le_num (later - now) (resolvedCacheTime config (Operation.effectiveParams op)) →
  getData config (Some (Operation.effectiveParams op)) later
    (settle asTData config op (Fulfilled rawResult) now w).2
  = Some transformedData.
Proof.
  intros Hskip Htransform Hset Hcache Hquiet Hkey Hfresh.
  destruct (settle_success_engine op rawResult transformedData now w
              Hskip Htransform Hset Hcache Hquiet)
    as (committed & Hcommit & _ & Hstate & _).
  destruct (commitSuccess_state op transformedData now (Engine.state w) Hset Hcache)
    as (committed' & Hcommit' & _ & _ & _ & _ & _ & Hentry & _).
  rewrite Hcommit in Hcommit'. injection Hcommit' as <-.
  unfold getData. rewrite Hcache, Hstate, <- Hkey, Hentry. simpl.
  destruct (Config.keepPreviousData config); [done|].
  destruct Hfresh as [|Hfresh]; [done|].
  unfold CacheEntry.lastFetchedAt. simpl. destruct (now =? 0); [done|].
  apply leb_num_le in Hfresh. by rewrite Hfresh.
Qed.

(** ** Serving from the cache *)

Lemma knownLastFetchedAt_same (key : string) w w' :
  Engine.state w' = Engine.state w →
  Engine.lastFetchKey w' = Engine.lastFetchKey w →
  knownLastFetchedAt config key w' = knownLastFetchedAt config key w.
Proof. intros Hs Hk. unfold knownLastFetchedAt. by rewrite Hs, Hk. Qed.

Lemma cachedResult_hit (effectiveParams : Params) (key : string)
    (options : option FetchOptions.t) (now lastFetchedAt : Z) w :
  knownLastFetchedAt config key w = Some lastFetchedAt →
  geb_num (now - lastFetchedAt) (effectiveStaleTimeOf config options) = false →
  (∀ info,
     StoreState.queryCache (Engine.state w) !! key ≫= CacheEntry.errorInfo = Some info →
     (Config.maxRetries config ≤ ErrorInfo.retryCount info)%nat) →
  ∃ w',
    cachedResult config effectiveParams key options now w
    = Some (StoreState.queryCache (Engine.state w) !! key ≫= CacheEntry.data, w').
Proof.
  intros Hknown Hage Herrors. unfold cachedResult. rewrite Hknown, Hage. simpl.
  destruct (StoreState.queryCache (Engine.state w) !! key ≫= CacheEntry.errorInfo)
    as [info|] eqn:Hinfo; simpl.
  - specialize (Herrors info eq_refl). apply Nat.leb_le in Herrors. rewrite Herrors.
    simpl. by eexists.
  - by eexists.
Qed.

(** A call that finds fresh data, from the point of view of the engine it
    is made on. *)
Lemma fetch_hit (params : option Params) (options : option FetchOptions.t)
    (now lastFetchedAt : Z) (thrownByFetcher : option Thrown) w :
  let key :=
    getQueryKey
      (default (getCurrentResolvedParams (Engine.attachVals w) (Engine.directValues w)) params) in
  forced options = false →
  Subscription.enabled (Engine.subscriptionManager w) = true →
  StoreState.status (Engine.state w) ≠ Loading →
  knownLastFetchedAt config key w = Some lastFetchedAt →
  geb_num (now - lastFetchedAt) (effectiveStaleTimeOf config options) = false →
  (∀ info,
     StoreState.queryCache (Engine.state w) !! key ≫= CacheEntry.errorInfo = Some info →
     (Config.maxRetries config ≤ ErrorInfo.retryCount info)%nat) →
  let call := fetch config params options now thrownByFetcher w in
  returned call = ReturnValue (StoreState.queryCache (Engine.state w) !! key ≫= CacheEntry.data)
  ∧ pending call = None
  ∧ fetcherCalls (Engine.trace (engine call)) = fetcherCalls (Engine.trace w)
  ∧ StoreState.queryCache (Engine.state (engine call)) = StoreState.queryCache (Engine.state w)
  ∧ StoreState.status (Engine.state (engine call)) = StoreState.status (Engine.state w).
Proof.
  intros key Hforce Henabled Hstatus Hknown Hage Herrors call. subst call.
  unfold fetch. fold key. rewrite Hforce, Henabled. simpl.
  assert (inFlightPromise key (bool_decide (StoreState.status (Engine.state w) = Loading))
            options w = None) as ->.
  { unfold inFlightPromise. rewrite bool_decide_eq_false_2 by done.
    destruct (Engine.activeFetch w) as [active|]; [|done].
    destruct (ActiveFetch.promise active); [|done]. by rewrite andb_false_r. }
  set (w1 := if Config.abortInterruptedFetches config && negb (skipsStoreUpdates options)
             then abortActiveFetch w else w).
  assert (Engine.state w1 = Engine.state w ∧ Engine.lastFetchKey w1 = Engine.lastFetchKey w
          ∧ fetcherCalls (Engine.trace w1) = fetcherCalls (Engine.trace w))
    as (Hs1 & Hk1 & Ht1).
  { unfold w1.
    destruct (Config.abortInterruptedFetches config && negb (skipsStoreUpdates options));
      [|done].
    destruct (abortActiveFetch_frame w) as (_ & Hs & Hk & _).
    by rewrite Hs, Hk, abortActiveFetch_fetcherCalls. }
  destruct (cachedResult_hit
              (default (getCurrentResolvedParams (Engine.attachVals w) (Engine.directValues w))
                 params) key options now lastFetchedAt w1) as [w2 Hhit].
  { by rewrite (knownLastFetchedAt_same key w w1). }
  { done. }
  { by rewrite Hs1. }
  rewrite Hhit. simpl. apply cachedResult_frame in Hhit as (Htrace & Hcachesame & Hst & _).
  rewrite Hs1, Htrace, Ht1, Hcachesame, Hst, Hs1. done.
Qed.

(** X14. Fresh data is served without a fetch. When the engine is
    enabled, [force] is not set, no fetch is loading, the data of the key
    is younger than the effective stale time and the entry records no
    error (or one whose retries are exhausted), [fetch] returns the cached
    data of the key as a plain value, calls no fetcher, and leaves the
    cache and [status] as they were. *)
Theorem fetch_cache_hit (params : option Params) (options : option FetchOptions.t)
    (now lastFetchedAt : Z) (thrownByFetcher : option Thrown) w :
  let key :=
    getQueryKey
      (default (getCurrentResolvedParams (Engine.attachVals w) (Engine.directValues w)) params) in
  forced options = false →
  Subscription.enabled (Engine.subscriptionManager w) = true →
  StoreState.status (Engine.state w) ≠ Loading →
  knownLastFetchedAt config key w = Some lastFetchedAt →
  geb_num (now - lastFetchedAt) (effectiveStaleTimeOf config options) = false →
  (∀ info,
     StoreState.queryCache (Engine.state w) !! key ≫= CacheEntry.errorInfo = Some info →
     (Config.maxRetries config ≤ ErrorInfo.retryCount info)%nat) →
  let call := fetch config params options now thrownByFetcher w in
  returned call = ReturnValue (StoreState.queryCache (Engine.state w) !! key ≫= CacheEntry.data)
  ∧ pending call = None
  ∧ fetcherCalls (Engine.trace (engine call)) = fetcherCalls (Engine.trace w)
  ∧ StoreState.queryCache (Engine.state (engine call)) = StoreState.queryCache (Engine.state w)
  ∧ StoreState.status (Engine.state (engine call)) = StoreState.status (Engine.state w).
Proof. apply fetch_hit. Qed.

(** X15. Fetch, then fetch again. After a successful settlement at time
    [now] (a non-zero timestamp) with an [onFetched] that calls neither
    [set] nor [fetch], a second call for the same parameters made while
    the data is younger than the effective stale time, on an enabled
    engine and without [force], returns the transformed data as a plain
    value and does not call the fetcher. *)
Theorem fetch_after_success (op : Operation.t) (rawResult : Raw) (transformedData : Data)
    (options : option FetchOptions.t) (now later : Z) (thrownByFetcher : option Thrown) w :
  Operation.skipStoreUpdates op = false →
  applyTransform asTData config op rawResult = Returns transformedData →
  Config.setData config = None →
  Config.disableCache config = false →
  onFetchedCalls config transformedData (Operation.effectiveParams op) = [] →
  Operation.currentQueryKey op = getQueryKey (Operation.effectiveParams op) →
  now ≠ 0 →
  forced options = false →
  Subscription.enabled (Engine.subscriptionManager w) = true →
  geb_num (later - now) (effectiveStaleTimeOf config options) = false →
  let settled := (settle asTData config op (Fulfilled rawResult) now w).2 in
  let call :=
    fetch config (Some (Operation.effectiveParams op)) options later thrownByFetcher settled in
  returned call = ReturnValue (Some transformedData)
  ∧ pending call = None
  ∧ fetcherCalls (Engine.trace (engine call)) = fetcherCalls (Engine.trace w).
Proof.
  intros Hskip Htransform Hset Hcache Hquiet Hkey Hnow Hforce Henabled Hage settled call.
  destruct (settle_success_engine op rawResult transformedData now w
              Hskip Htransform Hset Hcache Hquiet)
    as (committed & Hcommit & _ & Hstate & Hlast & _ & Hcalls).
  destruct (commitSuccess_state op transformedData now (Engine.state w) Hset Hcache)
    as (committed' & Hcommit' & Hstatus & _ & _ & _ & _ & Hentry & _).
  rewrite Hcommit in Hcommit'. injection Hcommit' as <-.
  fold settled in Hstate, Hlast, Hcalls.
  destruct (settle_surroundings op (Fulfilled rawResult) now w) as (Hm & _).
  fold settled in Hm.
  rewrite Hkey in Hentry.
  pose proof (fetch_hit (Some (Operation.effectiveParams op)) options later now
                thrownByFetcher settled) as Hhit.
  cbv zeta in Hhit. cbn [default from_option id] in Hhit.
  destruct Hhit as (Hreturned & Hpending & Htrace & _).
  - done.
  - by rewrite Hm.
  - by rewrite Hstate, Hstatus.
  - unfold knownLastFetchedAt. rewrite Hcache, Hstate, Hentry. simpl.
    apply Z.eqb_neq in Hnow. by rewrite Hnow.
  - done.
  - rewrite Hstate, Hentry. simpl. done.
  - subst call. rewrite Hreturned, Hpending, Htrace, Hcalls.
    by rewrite Hstate, Hentry.
Qed.

(** X16. A parallel probe that succeeds changes nothing. When an
    operation made with [skipStoreUpdates] is fulfilled and its transform
    returns, the promise resolves to the transformed data and the store,
    [activeFetch], [lastFetchKey], the timers and the trace of calls are
    exactly as before: nothing is cached and [onFetched] is not called. *)
Theorem settle_skipStoreUpdates_success op (rawResult : Raw) (transformedData : Data)
    (now : Z) w :
  Operation.skipStoreUpdates op = true →
  applyTransform asTData config op rawResult = Returns transformedData →
  let result := settle asTData config op (Fulfilled rawResult) now w in
  result.1 = Fulfilled (Some transformedData)
  ∧ Engine.state result.2 = Engine.state w
  ∧ Engine.activeFetch result.2 = Engine.activeFetch w
  ∧ Engine.lastFetchKey result.2 = Engine.lastFetchKey w
  ∧ Engine.activeRefetchTimeout result.2 = Engine.activeRefetchTimeout w
  ∧ Engine.timers result.2 = Engine.timers w
  ∧ Engine.trace result.2 = Engine.trace w.
Proof.
  intros Hskip Htransform result. subst result.
  destruct (releaseController_frame op w) as (Hs & _ & Hf & Ht & Hk & Hts & Htr).
  unfold settle, tryClause, finallyClause. rewrite Htransform, Hskip. simpl. done.
Qed.

(** ** Retries *)

(** The timer armed by the error path, as a function of the retry count
    it read. *)
Lemma settle_failure_timers op (outcome : Settlement Raw) (thrown : Thrown) (now : Z) w :
  failsWith asTData config op outcome thrown →
  isAbortError thrown = false →
  Operation.skipStoreUpdates op = false →
  let count := retryCountOf (entrySeen config (Operation.currentQueryKey op) w) in
  onErrorReturns config (typedErrorOf thrown) count →
  let w' := (settle asTData config op outcome now w).2 in
  (Engine.timers w', Engine.activeRefetchTimeout w')
  = if (count <? Config.maxRetries config)%nat
       && (0 <? Subscription.subscriptionCount (Engine.subscriptionManager w))%nat
    then
      match errorRetryDelayOf config count (typedErrorOf thrown) with
      | Finite delay =>
          (Engine.timers w ++ [Timer.mk (Engine.fresh w) delay (Operation.params op)],
           Some (Engine.fresh w))
      | Infinity => (Engine.timers w, Engine.activeRefetchTimeout w)
      end
    else (Engine.timers w, Engine.activeRefetchTimeout w).
Proof.
  intros Hfails Habort Hskip count Hreturns w'. subst w'.
  rewrite (settle_failure op outcome thrown) by done. cbv zeta. simpl.
  assert (Engine.state (releaseController op w) = Engine.state w
          ∧ Engine.subscriptionManager (releaseController op w) = Engine.subscriptionManager w
          ∧ Engine.timers (releaseController op w) = Engine.timers w
          ∧ Engine.activeRefetchTimeout (releaseController op w) = Engine.activeRefetchTimeout w
          ∧ Engine.fresh (releaseController op w) = Engine.fresh w)
    as (Hs & Hm & Hts & Hslot & Hfresh).
  { unfold releaseController. destruct (Operation.controller op); [|done].
    by case_bool_decide. }
  generalize dependent (releaseController op w). intros w0 Hs Hm Hts Hslot Hfresh.
  unfold finallyClause. rewrite Hskip. unfold catchClause. rewrite Habort, Hskip.
  assert (entrySeen config (Operation.currentQueryKey op) w0
          = entrySeen config (Operation.currentQueryKey op) w) as Hentry
    by (unfold entrySeen; by rewrite Hs).
  unfold entrySeen in Hentry. rewrite Hentry.
  fold (entrySeen config (Operation.currentQueryKey op) w).
  fold (retryCountOf (entrySeen config (Operation.currentQueryKey op) w)). fold count.
  assert (∃ w1,
    match Config.onError config with
    | Some onError =>
        (onError (typedErrorOf thrown) count,
         Engine.emit (OnErrorCalled (typedErrorOf thrown) count) w0)
    | None => (Returns tt, w0)
    end = (Returns tt, w1)
    ∧ Engine.subscriptionManager w1 = Engine.subscriptionManager w
    ∧ Engine.timers w1 = Engine.timers w
    ∧ Engine.activeRefetchTimeout w1 = Engine.activeRefetchTimeout w
    ∧ Engine.fresh w1 = Engine.fresh w) as (w1 & -> & Hm1 & Hts1 & Hslot1 & Hfresh1).
  { destruct (Config.onError config) as [onError|] eqn:Hon.
    - rewrite (Hreturns onError Hon). by eexists.
    - by eexists. }
  rewrite Hm1.
  destruct (count <? Config.maxRetries config)%nat; simpl; [|by rewrite Hts1, Hslot1].
  destruct (0 <? Subscription.subscriptionCount (Engine.subscriptionManager w))%nat; simpl;
    [|by rewrite Hts1, Hslot1].
  destruct (errorRetryDelayOf config count (typedErrorOf thrown)); simpl;
    by rewrite ?Hts1, ?Hslot1, ?Hfresh1.
Qed.

(** X17. Retries are scheduled only while there is someone to serve.
    After a failure (not an abort, not a parallel probe): when the retry
    count read for the key is below [maxRetries], the store has a
    subscriber and the retry delay is finite, a retry timer with that
    delay and the parameters of the call is armed and takes the timer
    slot; when the count has reached [maxRetries], or nobody is
    subscribed, or the delay is infinite, no timer is armed. *)
Theorem retry_timer op (outcome : Settlement Raw) (thrown : Thrown) (now : Z) w :
  failsWith asTData config op outcome thrown →
  isAbortError thrown = false →
  Operation.skipStoreUpdates op = false →
  let count := retryCountOf (entrySeen config (Operation.currentQueryKey op) w) in
  onErrorReturns config (typedErrorOf thrown) count →
  let w' := (settle asTData config op outcome now w).2 in
  (∀ delay,
     (count < Config.maxRetries config)%nat →
     (0 < Subscription.subscriptionCount (Engine.subscriptionManager w))%nat →
     errorRetryDelayOf config count (typedErrorOf thrown) = Finite delay →
     Engine.timers w' = Engine.timers w ++ [Timer.mk (Engine.fresh w) delay (Operation.params op)]
     ∧ Engine.activeRefetchTimeout w' = Some (Engine.fresh w))
  ∧ ((Config.maxRetries config ≤ count)%nat
     ∨ Subscription.subscriptionCount (Engine.subscriptionManager w) = 0%nat
     ∨ errorRetryDelayOf config count (typedErrorOf thrown) = Infinity →
     Engine.timers w' = Engine.timers w
     ∧ Engine.activeRefetchTimeout w' = Engine.activeRefetchTimeout w).
Proof.
  intros Hfails Habort Hskip count Hreturns w'.
  pose proof (settle_failure_timers op outcome thrown now w Hfails Habort Hskip Hreturns)
    as Htimers.
  cbv zeta in Htimers. fold count in Htimers. fold w' in Htimers. split.
  - intros delay Hcount Hsubs Hdelay.
    apply Nat.ltb_lt in Hcount, Hsubs. rewrite Hcount, Hsubs, Hdelay in Htimers.
    simpl in Htimers. by injection Htimers.
  - intros Hnone.
    assert ((Engine.timers w', Engine.activeRefetchTimeout w')
            = (Engine.timers w, Engine.activeRefetchTimeout w)) as Hsame;
      [|by injection Hsame].
    rewrite Htimers. destruct Hnone as [Hmax | [Hsubs | Hdelay]].
    + apply Nat.ltb_ge in Hmax. by rewrite Hmax.
    + rewrite Hsubs. by rewrite andb_false_r.
    + rewrite Hdelay. by destruct (_ && _).
Qed.

(** X18. With [disableCache] the retries of a subscribed store do not
    run out. The error path then reads no entry, so whatever the cache
    records for the key (also a count that has reached [maxRetries]), a
    failure arms a retry timer as soon as [maxRetries >= 1], the store has a
    subscriber and the delay of a first retry is finite. *)
Theorem retry_timer_without_cache op (outcome : Settlement Raw) (thrown : Thrown)
    (now delay : Z) w :
  failsWith asTData config op outcome thrown →
  isAbortError thrown = false →
  Operation.skipStoreUpdates op = false →
  Config.disableCache config = true →
  onErrorReturns config (typedErrorOf thrown) 0%nat →
  (1 ≤ Config.maxRetries config)%nat →
  (0 < Subscription.subscriptionCount (Engine.subscriptionManager w))%nat →
  errorRetryDelayOf config 0%nat (typedErrorOf thrown) = Finite delay →
  let w' := (settle asTData config op outcome now w).2 in
  Engine.timers w' = Engine.timers w ++ [Timer.mk (Engine.fresh w) delay (Operation.params op)]
  ∧ Engine.activeRefetchTimeout w' = Some (Engine.fresh w).
Proof.
  intros Hfails Habort Hskip Hcache Hreturns Hmax Hsubs Hdelay w'.
  assert (entrySeen config (Operation.currentQueryKey op) w = None) as Hentry
    by (unfold entrySeen; by rewrite Hcache).
  pose proof (settle_failure_timers op outcome thrown now w Hfails Habort Hskip) as Htimers.
  cbv zeta in Htimers. rewrite Hentry in Htimers. unfold retryCountOf in Htimers.
  simpl in Htimers. specialize (Htimers Hreturns). fold w' in Htimers.
  apply Nat.ltb_lt in Hsubs. rewrite Hsubs, Hdelay in Htimers.
  destruct (Config.maxRetries config) as [|n]; [lia|]. simpl in Htimers.
  by injection Htimers.
Qed.

(** ** Starting a fetch *)

(** With nothing in flight and nothing known about the key (or with
    [force]), a call that passes the gate calls the fetcher. *)
Lemma fetch_starts (params : option Params) (options : option FetchOptions.t)
    (now : Z) (thrownByFetcher : option Thrown) w :
  let key :=
    getQueryKey
      (default (getCurrentResolvedParams (Engine.attachVals w) (Engine.directValues w)) params) in
  forced options = true ∨ Subscription.enabled (Engine.subscriptionManager w) = true →
  Engine.activeFetch w = None →
  forced options = true ∨ knownLastFetchedAt config key w = None →
  let call := fetch config params options now thrownByFetcher w in
  fetcherCalls (Engine.trace (engine call)) = S (fetcherCalls (Engine.trace w))
  ∧ ∃ p, returned call = ReturnPromise p.
Proof.
  intros key Hgate Hactive Hmiss call. subst call. unfold fetch. fold key.
  assert (negb (forced options) && negb (Subscription.enabled (Engine.subscriptionManager w))
          = false) as ->.
  { destruct Hgate as [-> | ->]; [done | by rewrite andb_false_r]. }
  assert (inFlightPromise key (bool_decide (StoreState.status (Engine.state w) = Loading))
            options w = None) as -> by (unfold inFlightPromise; by rewrite Hactive).
  set (w1 := if Config.abortInterruptedFetches config && negb (skipsStoreUpdates options)
             then abortActiveFetch w else w).
  assert (Engine.state w1 = Engine.state w ∧ Engine.lastFetchKey w1 = Engine.lastFetchKey w
          ∧ fetcherCalls (Engine.trace w1) = fetcherCalls (Engine.trace w))
    as (Hs1 & Hk1 & Ht1).
  { unfold w1.
    destruct (Config.abortInterruptedFetches config && negb (skipsStoreUpdates options));
      [|done].
    destruct (abortActiveFetch_frame w) as (_ & Hs & Hk & _).
    by rewrite Hs, Hk, abortActiveFetch_fetcherCalls. }
  assert ((if forced options then None
           else cachedResult config
                  (default (getCurrentResolvedParams (Engine.attachVals w)
                              (Engine.directValues w)) params) key options now w1) = None) as ->.
  { destruct (forced options); [done|]. destruct Hmiss as [|Hmiss]; [done|].
    unfold cachedResult. by rewrite (knownLastFetchedAt_same key w w1), Hmiss. }
  match goal with |- context [startOperation config ?a ?b ?c ?d ?e ?f ?w0] =>
    destruct (startOperation_fetcherCalls a b c d e f w0) as [Hcalls [p Hp]];
    assert (fetcherCalls (Engine.trace w0) = fetcherCalls (Engine.trace w)) as Hw0
  end.
  { destruct (skipsStoreUpdates options); [done|]. simpl.
    by destruct (bool_decide _ || negb _). }
  cbv zeta in *. rewrite Hcalls, Hw0, Hp. split; [done | by eauto].
Qed.

(** X19. An aborted operation takes the deduplication of its successor
    with it. When an operation that updates the store settles with an
    abort, [finally] clears [activeFetch] whichever operation it holds.
    So even if a newer fetch for the key is in flight ([activeFetch] holds
    its promise, [status] is [loading]), the next call for that key on an
    enabled engine, without [force] and with no fetch time known for the
    key, calls the fetcher again instead of returning the promise in
    flight. *)
Theorem fetch_after_aborted_settle op (error : Thrown) (params : option Params)
    (options : option FetchOptions.t) (now later : Z) (thrownByFetcher : option Thrown) w :
  Operation.skipStoreUpdates op = false →
  isAbortError error = true →
  Subscription.enabled (Engine.subscriptionManager w) = true →
  knownLastFetchedAt config
    (getQueryKey
       (default (getCurrentResolvedParams (Engine.attachVals w) (Engine.directValues w)) params))
    w = None →
  let settled := (settle asTData config op (Rejected error) now w).2 in
  let call := fetch config params options later thrownByFetcher settled in
  Engine.activeFetch settled = None
  ∧ StoreState.status (Engine.state settled) = StoreState.status (Engine.state w)
  ∧ fetcherCalls (Engine.trace (engine call)) = S (fetcherCalls (Engine.trace w))
  ∧ ∃ p, returned call = ReturnPromise p.
Proof.
  intros Hskip Habort Henabled Hknown settled call.
  assert (Engine.activeFetch settled = None
          ∧ Engine.state settled = Engine.state w
          ∧ Engine.lastFetchKey settled = Engine.lastFetchKey w
          ∧ Engine.trace settled = Engine.trace w) as (Hactive & Hstate & Hlast & Htrace).
  { subst settled. rewrite (settle_failure op (Rejected error) error) by constructor.
    cbv zeta. rewrite catchClause_abort by done. simpl.
    destruct (releaseController_frame op w) as (Hs & _ & _ & _ & Hk & _ & Htr).
    unfold finallyClause. rewrite Hskip. simpl. by rewrite Hs, Hk, Htr. }
  destruct (settle_surroundings op (Rejected error) now w) as (Hm & Ha & Hd).
  fold settled in Hm, Ha, Hd.
  split; [done|]. split; [by rewrite Hstate|].
  pose proof (fetch_starts params options later thrownByFetcher settled) as Hstarts.
  cbv zeta in Hstarts. rewrite Ha, Hd, Hm, Htrace in Hstarts. apply Hstarts.
  - by right.
  - done.
  - right. rewrite <- Hknown. by apply knownLastFetchedAt_same.
Qed.

(** X20. Two calls in a row share one promise. When a call has started
    an operation that updates the store, a second call for the same
    parameters made on an enabled engine without [force] returns the
    promise of that operation and leaves the engine as it is. *)
Theorem fetch_shares_promise (params : option Params)
    (options options' : option FetchOptions.t) (now now' : Z)
    (thrownByFetcher thrownByFetcher' : option Thrown) w op :
  pending (fetch config params options now thrownByFetcher w) = Some op →
  skipsStoreUpdates options = false →
  Subscription.enabled (Engine.subscriptionManager w) = true →
  forced options' = false →
  let first := fetch config params options now thrownByFetcher w in
  fetch config params options' now' thrownByFetcher' (engine first)
  = mkCall (ReturnPromise (Operation.promise op)) None (engine first).
Proof. apply fetch_twice. Qed.

(** X21. The promise of an operation is fulfilled whenever [onError]
    returns: whatever the fetcher's outcome and whatever [transform],
    [setData] and [onFetched] return or throw, settling never rejects. *)
Theorem settle_never_rejects op (outcome : Settlement Raw) (now : Z) w :
  (∀ typedError retryCount, onErrorReturns config typedError retryCount) →
  ∃ value, (settle asTData config op outcome now w).1 = Fulfilled value.
Proof. apply settle_fulfils. Qed.

(** ** [reset] and the last unsubscribe *)





(** X24. Cancelling leaves the store in [loading]. When the last
    subscriber leaves while a fetch is in flight and that fetch then
    settles with an abort, nothing resets [status]: the timer slot and
    [activeFetch] are empty (and with [abortInterruptedFetches] so is the
    controller slot), yet [status] is still [loading] and [getStatus]
    still reports a fetch. *)
Theorem abort_leaves_loading op (error : Thrown) (now : Z) w :
  Operation.skipStoreUpdates op = false →
  isAbortError error = true →
  StoreState.status (Engine.state w) = Loading →
  let w' := (settle asTData config op (Rejected error) now (onLastUnsubscribe config w)).2 in
  StoreState.status (Engine.state w') = Loading
  ∧ QueryStatusInfo.isFetching (getStatus config w') = true
  ∧ Engine.activeFetch w' = None
  ∧ Engine.activeRefetchTimeout w' = None
  ∧ (Config.abortInterruptedFetches config = true → Engine.activeAbortController w' = None).
Proof.
  intros Hskip Habort Hloading w'. subst w'.
  rewrite (settle_failure op (Rejected error) error) by constructor.
  cbv zeta. rewrite catchClause_abort by done. simpl.
  set (w1 := onLastUnsubscribe config w).
  assert (Engine.state w1 = Engine.state w
          ∧ Engine.activeRefetchTimeout w1 = None
          ∧ (Config.abortInterruptedFetches config = true → Engine.activeAbortController w1 = None))
    as (Hs1 & Hslot1 & Hc1).
  { unfold w1, onLastUnsubscribe, abortActiveFetch, Engine.clearActiveRefetchTimeout,
      Engine.setActiveAbortController, Engine.emit.
    destruct (Engine.activeRefetchTimeout w) eqn:Hslot,
      (Config.abortInterruptedFetches config), (Engine.activeAbortController w) eqn:Hcontroller;
      simpl; rewrite ?Hslot, ?Hcontroller; done. }
  destruct (releaseController_frame op w1) as (Hs & _ & _ & Ht & _).
  assert (Engine.activeAbortController w1 = None →
          Engine.activeAbortController (releaseController op w1) = None) as Hc.
  { intros Hnone. unfold releaseController. destruct (Operation.controller op); [|done].
    by case_bool_decide. }
  unfold finallyClause, getStatus. rewrite Hskip. simpl.
  rewrite Hs, Hs1, Hloading, Ht, Hslot1. repeat split; try done.
  intros Habt. by apply Hc, Hc1.
Qed.

(** ** The key held in state *)

Lemma catchClause_queryKey op (error : Thrown) (now : Z) w :
  StoreState.queryKey (Engine.state (catchClause config op error now w).2)
  = StoreState.queryKey (Engine.state w)
  ∨ StoreState.queryKey (Engine.state (catchClause config op error now w).2)
    = Operation.currentQueryKey op.
Proof.
  unfold catchClause. destruct (isAbortError error); [by left|].
  destruct (Operation.skipStoreUpdates op); [by left|].
  destruct (Config.onError config) as [onError|]; [destruct (onError _ _)|]; simpl;
    try (by left);
    (destruct (_ <? Config.maxRetries config)%nat;
     [destruct (0 <? _)%nat; [destruct (errorRetryDelayOf config _ _)|]|]; simpl;
     destruct (Config.keepPreviousData config); by auto).
Qed.

Lemma cachedResult_queryKey (effectiveParams : Params) (key : string)
    (options : option FetchOptions.t) (now : Z) w (cached : option Data) w' :
  cachedResult config effectiveParams key options now w = Some (cached, w') →
  StoreState.queryKey (Engine.state w') = StoreState.queryKey (Engine.state w)
  ∨ StoreState.queryKey (Engine.state w') = key.
Proof.
  unfold cachedResult. destruct (negb _ && (negb _ || _)); [|done]. intros [= <- <-].
  match goal with |- context [if ?c then scheduleNextFetch _ _ _ _ _ else _] =>
    destruct c end;
    destruct (Config.keepPreviousData config && _); simpl;
    try destruct (scheduleNextFetch_trace effectiveParams options now w) as [_ ->]; auto.
Qed.

(** [fetch] writes [queryKey] with the key of the call, or not at all. *)
Lemma fetch_queryKey (params : option Params) (options : option FetchOptions.t)
    (now : Z) (thrownByFetcher : option Thrown) w :
  let key :=
    getQueryKey
      (default (getCurrentResolvedParams (Engine.attachVals w) (Engine.directValues w)) params) in
  let call := fetch config params options now thrownByFetcher w in
  StoreState.queryKey (Engine.state (engine call)) = StoreState.queryKey (Engine.state w)
  ∨ StoreState.queryKey (Engine.state (engine call)) = key.
Proof.
  intros key call. subst call. unfold fetch. fold key.
  destruct (negb (forced options) && _); [by left|].
  destruct (inFlightPromise key _ options w); [by left|].
  set (w1 := if Config.abortInterruptedFetches config && negb (skipsStoreUpdates options)
             then abortActiveFetch w else w).
  assert (Engine.state w1 = Engine.state w) as Hs1.
  { unfold w1.
    destruct (Config.abortInterruptedFetches config && negb (skipsStoreUpdates options));
      [|done].
    by destruct (abortActiveFetch_frame w) as (_ & Hs & _). }
  destruct (if forced options then None else cachedResult config _ key options now w1)
    as [[cached w2]|] eqn:Hcached.
  { simpl. destruct (forced options); [done|].
    apply cachedResult_queryKey in Hcached. by rewrite Hs1 in Hcached. }
  match goal with |- context [startOperation config ?a ?b ?c ?d ?e ?f ?prepared] =>
    assert (StoreState.queryKey (Engine.state prepared) = StoreState.queryKey (Engine.state w))
      as Hw0; [|revert Hw0; generalize prepared; intros w0 Hw0]
  end.
  { destruct (skipsStoreUpdates options); [by rewrite Hs1|]. simpl.
    destruct (bool_decide _ || negb _); simpl; by rewrite Hs1. }
  unfold startOperation.
  destruct (Config.abortInterruptedFetches config && negb (skipsStoreUpdates options)); simpl.
  - left. by destruct (skipsStoreUpdates options).
  - destruct thrownByFetcher as [thrown|]; simpl.
    + match goal with |- context [catchClause config ?op thrown now ?w00] =>
        pose proof (catchClause_queryKey op thrown now w00) as Hcatch;
        destruct (catchClause config op thrown now w00) as [result w'] end.
      simpl in *. unfold finallyClause, Operation.skipStoreUpdates. simpl.
      destruct (skipsStoreUpdates options); simpl; by rewrite <- Hw0.
    + left. by destruct (skipsStoreUpdates options).
Qed.

(** X25. The first subscription settles [queryKey]. Once the parameters
    are bound, the first subscriber of an enabled store leaves [queryKey]
    equal to the key of the current parameters, whether the store then
    fetches (stale data) or only arms the refetch timer (fresh data). A
    subscription that is disabled, or a later one on a store that
    refetches automatically, changes nothing. *)
Theorem onSubscribe_queryKey (shouldThrottle : bool) (now : Z)
    (thrownByFetcher : option Thrown) w :
  is_Some (Engine.directValues w) ∨ is_Some (Engine.attachVals w)
  ∨ Config.params config = None →
  let first := onSubscribe config true true shouldThrottle now thrownByFetcher w in
  Reaction.fetchAfterParamCreation first = false
  ∧ StoreState.queryKey (Engine.state (Reaction.engine first))
    = getQueryKey (getCurrentResolvedParams (Engine.attachVals w) (Engine.directValues w))
  ∧ (∀ isFirstSubscription,
       Reaction.engine
         (onSubscribe config false isFirstSubscription shouldThrottle now thrownByFetcher w)
       = w)
  ∧ (Config.disableAutoRefetching config = false →
     Reaction.engine (onSubscribe config true false shouldThrottle now thrownByFetcher w) = w).
Proof.
  intros Hbound first.
  assert (negb (bool_decide (is_Some (Engine.directValues w)))
          && negb (bool_decide (is_Some (Engine.attachVals w)))
          && bool_decide (is_Some (Config.params config)) = false) as Hgate.
  { destruct Hbound as [Hd | [Ha | Hp]].
    - by rewrite (bool_decide_eq_true_2 _ Hd).
    - rewrite (bool_decide_eq_true_2 _ Ha). by rewrite andb_false_r.
    - rewrite Hp. by rewrite andb_false_r. }
  split; [|split; [|split]].
  - subst first. unfold onSubscribe. rewrite Hgate. simpl.
    by destruct (isStale config None now _).
  - subst first. unfold onSubscribe. rewrite Hgate. simpl.
    set (key := getQueryKey
                  (getCurrentResolvedParams (Engine.attachVals w) (Engine.directValues w))).
    match goal with |- context [isStale config None now ?w0] => set (w1 := w0) end.
    assert (StoreState.queryKey (Engine.state w1) = key
            ∧ Engine.attachVals w1 = Engine.attachVals w
            ∧ Engine.directValues w1 = Engine.directValues w) as (Hk1 & Ha1 & Hd1).
    { unfold w1. destruct (String.eqb_spec (StoreState.queryKey (Engine.state w)) key); by simpl. }
    destruct (isStale config None now w1); simpl.
    + pose proof (fetch_queryKey
                    (Some (getCurrentResolvedParams (Engine.attachVals w) (Engine.directValues w)))
                    None now thrownByFetcher w1) as Hfetch.
      cbv zeta in Hfetch. cbn [default from_option id] in Hfetch. fold key in Hfetch.
      rewrite Hk1 in Hfetch. by destruct Hfetch.
    + by destruct (scheduleNextFetch_trace
                     (getCurrentResolvedParams (Engine.attachVals w) (Engine.directValues w))
                     None now w1) as [_ ->].
  - intros isFirstSubscription. unfold onSubscribe. by rewrite Hgate.
  - intros Hauto. unfold onSubscribe. by rewrite Hgate, Hauto.
Qed.

(** X26. A parameter change and [queryKey]. Without [keepPreviousData]
    the state's [queryKey] is the key of the new parameters after
    [onParamChange], whether or not the engine is enabled and whatever the
    fetch does. With [keepPreviousData] on a disabled engine the change
    leaves the engine exactly as it was: the key is not updated and
    nothing is fetched. *)
Theorem onParamChange_queryKey (now : Z) (thrownByFetcher : option Thrown) w :
  let call := onParamChange config now thrownByFetcher w in
  (Config.keepPreviousData config = false →
   StoreState.queryKey (Engine.state (engine call))
   = getQueryKey (getCurrentResolvedParams (Engine.attachVals w) (Engine.directValues w)))
  ∧ (Config.keepPreviousData config = true →
     Subscription.enabled (Engine.subscriptionManager w) = false →
     call = mkCall (ReturnValue None) None w).
Proof.
  intros call. subst call. unfold onParamChange. split.
  - intros ->.
    match goal with |- context [fetch config ?p None now thrownByFetcher ?w0] =>
      pose proof (fetch_queryKey p None now thrownByFetcher w0) as Hfetch end.
    cbv zeta in Hfetch. cbn [default from_option id] in Hfetch. simpl in Hfetch.
    by destruct Hfetch.
  - intros -> Hdisabled. by apply fetch_disabled.
Qed.

(** X27. A timer that fires. The callback of a refetch or retry timer
    checks the subscription when it runs: on an enabled store with a
    subscriber it makes a forced fetch for the parameters of the timer,
    which calls the fetcher exactly once and returns a promise, however
    fresh the cached data is; on a disabled store, or one without
    subscribers, it fetches nothing and leaves the state and the trace of
    calls as they were. A handle that is no longer pending fires
    nothing. *)
Theorem fireTimer_subscription (handle : nat) (now : Z) (thrownByFetcher : option Thrown) w :
  (∀ call,
     fireTimer config handle now thrownByFetcher w = Some call →
     (Subscription.enabled (Engine.subscriptionManager w) = true →
      (0 < Subscription.subscriptionCount (Engine.subscriptionManager w))%nat →
      fetcherCalls (Engine.trace (engine call)) = S (fetcherCalls (Engine.trace w))
      ∧ ∃ p, returned call = ReturnPromise p)
     ∧ (Subscription.enabled (Engine.subscriptionManager w) = false
        ∨ Subscription.subscriptionCount (Engine.subscriptionManager w) = 0%nat →
        returned call = ReturnValue None
        ∧ pending call = None
        ∧ Engine.state (engine call) = Engine.state w
        ∧ Engine.trace (engine call) = Engine.trace w
        ∧ ∀ timer, timer ∈ Engine.timers (engine call) → Timer.id timer ≠ handle))
  ∧ ((∀ timer, timer ∈ Engine.timers w → Timer.id timer ≠ handle) →
     fireTimer config handle now thrownByFetcher w = None).
Proof.
  unfold fireTimer. split.
  - intros call.
    destruct (List.find _ (Engine.timers w)) as [timer|]; [|done].
    cbv zeta. cbn [Engine.subscriptionManager].
    destruct (Subscription.enabled (Engine.subscriptionManager w)) eqn:Henabled;
      [destruct (Nat.ltb_spec 0 (Subscription.subscriptionCount (Engine.subscriptionManager w)))
         as [Hcount|Hcount]|];
      cbn [andb]; intros [= <-]; (split; [intros Hen Hsub | intros Hnone]);
      try discriminate; try lia; try (destruct Hnone; [discriminate | lia]).
    + match goal with |- context [fetch config ?p ?o now thrownByFetcher ?w1] =>
        destruct (fetch_calls p o now thrownByFetcher w1) as (_ & Hforced & _) end.
      by apply Hforced.
    + cbn [returned pending engine Engine.state Engine.trace Engine.timers].
      repeat split. intros other Hin. by apply list_elem_of_filter in Hin as [Hne _].
    + cbn [returned pending engine Engine.state Engine.trace Engine.timers].
      repeat split. intros other Hin. by apply list_elem_of_filter in Hin as [Hne _].
  - intros Hnone.
    destruct (List.find _ (Engine.timers w)) as [timer|] eqn:Hfind; [|done].
    apply List.find_some in Hfind as [Hin Heq].
    apply Nat.eqb_eq in Heq. apply list_elem_of_In in Hin. by apply Hnone in Hin.
Qed.

End Properties.

(** * Runs of concrete stores *)

(** S1 of the specification: two calls in a row share one fetcher call
    and one promise; the store ends in [success] and the data is cached
    under the key of the call. *)
Example in_flight_dedup_run :
  let first := fetch defaultConfig None None 1000 None (initialEngine defaultConfig) in
  let second := fetch defaultConfig None None 1005 None (engine first) in
  let done_ := settle sameData defaultConfig (started first) (Fulfilled 7) 1050 (engine second) in
  returned first = ReturnPromise 1
  ∧ returned second = ReturnPromise 1
  ∧ Engine.trace (engine second) = [FetcherCalled [] (Some 0%nat)]
  ∧ done_.1 = Fulfilled (Some 7)
  ∧ StoreState.status (Engine.state done_.2) = Success
  ∧ getData defaultConfig (Some []) 1060 done_.2 = Some 7.
Proof. vm_compute. done. Qed.

(** ** C1 *)

Lemma fetch_in_flight_witness :
  let w := engine (fetch defaultConfig None None 1000 None (initialEngine defaultConfig)) in
  fetch defaultConfig None None 1005 None w = mkCall (ReturnPromise 1) None w.
Proof. intros w. apply fetch_in_flight; reflexivity. Defined.

(** A store configured with [enabled: false] starts a fetch with
    [force]. While that fetch is in flight ([activeFetch] holds its promise
    for the key, [status] is [loading]) a second call without [force]
    returns [null], not the promise in flight. *)
Lemma disabled_engine_ignores_in_flight :
  let first :=
    fetch disabledConfig None (Some forceOption) 1000 None (initialEngine disabledConfig) in
  let w := engine first in
  let second := fetch disabledConfig None None 1005 None w in
  returned first = ReturnPromise 1
  ∧ Engine.activeFetch w = Some (ActiveFetch.mk (getQueryKey []) (Some 1%nat))
  ∧ getCurrentResolvedParams (Engine.attachVals w) (Engine.directValues w) = []
  ∧ StoreState.status (Engine.state w) = Loading
  ∧ forced None = false
  ∧ returned second = ReturnValue None
  ∧ returned second ≠ ReturnPromise 1.
Proof. vm_compute. by repeat split. Qed.

(** ** C2 *)

(** C2, at the input where the code departs from it. The fetcher of a
    default store with a throwing [onError] rejects with [new Error('x')]:
    the [catch] clause calls [onError] without a guard, the promise that
    [fetch] returned rejects with what [onError] threw, and [status] stays
    [loading]. (With an [onError] that returns, the promise is always
    fulfilled: [settle_fulfils]; a disabled engine answers [null] at once:
    [fetch_disabled].) *)
Lemma fetch_rejects_when_onError_throws :
  let call :=
    fetch throwingOnErrorConfig None None 1000 None (initialEngine throwingOnErrorConfig) in
  let result :=
    settle sameData throwingOnErrorConfig (started call) (Rejected errorX) 1050 (engine call) in
  returned call = ReturnPromise 1
  ∧ pending call
    = Some (Operation.mk None [] (getQueryKey []) None (Some 0%nat) 1%nat)
  ∧ result.1 = Rejected (ErrorObject "Error" "boom")
  ∧ Engine.promises result.2 !! 1%nat = Some (Rejected (ErrorObject "Error" "boom"))
  ∧ StoreState.status (Engine.state result.2) = Loading.
Proof. vm_compute. by repeat split. Qed.

(** ** C3 *)

Lemma settle_aborted_witness :
  let call := fetch defaultConfig None None 1000 None (initialEngine defaultConfig) in
  let result := settle sameData defaultConfig (started call) (Rejected ABORT_ERROR) 1050 (engine call) in
  result.1 = Fulfilled None
  ∧ Engine.state result.2 = Engine.state (engine call)
  ∧ Engine.timers result.2 = [].
Proof.
  intros call result.
  destruct (settle_aborted sameData defaultConfig (started call) ABORT_ERROR 1050 (engine call))
    as (_ & Hresult & _ & Hstate & _ & Htimers & _); [by left|].
  by repeat split.
Defined.

(** ** C4 *)

(** Under [keepPreviousData], with [cacheTime = 10]: the store holds the
    data of [{ id: 1 }] fetched at time 1000 and its [queryKey] is that
    key while the fetch for [{ id: 2 }] runs. When that fetch succeeds at
    time 5000 the entry of the previous key is removed. *)
Lemma previous_key_pruned_on_write :
  let fetchA := fetch keepPreviousConfig (Some paramsA) None 1000 None
                  (initialEngine keepPreviousConfig) in
  let afterA := (settle sameData keepPreviousConfig (started fetchA) (Fulfilled 1) 1000
                   (engine fetchA)).2 in
  let fetchB := fetch keepPreviousConfig (Some paramsB) None 5000 None afterA in
  let afterB := (settle sameData keepPreviousConfig (started fetchB) (Fulfilled 2) 5000
                   (engine fetchB)).2 in
  Config.keepPreviousData keepPreviousConfig = true
  ∧ StoreState.queryKey (Engine.state (engine fetchB)) = getQueryKey paramsA
  ∧ StoreState.queryCache (Engine.state (engine fetchB)) !! getQueryKey paramsA
    = Some (CacheEntry.fetched (Finite 10) (Some 1) 1000)
  ∧ Operation.currentQueryKey (started fetchB) = getQueryKey paramsB
  ∧ getQueryKey paramsB ≠ getQueryKey paramsA
  ∧ StoreState.queryCache (Engine.state afterB) !! getQueryKey paramsA = None
  ∧ StoreState.queryCache (Engine.state afterB) !! getQueryKey paramsB
    = Some (CacheEntry.fetched (Finite 10) (Some 2) 5000).
Proof. vm_compute. by repeat split. Qed.

Lemma commitSuccess_prunes_witness :
  let fetchA := fetch keepPreviousConfig (Some paramsA) None 1000 None
                  (initialEngine keepPreviousConfig) in
  let afterA := (settle sameData keepPreviousConfig (started fetchA) (Fulfilled 1) 1000
                   (engine fetchA)).2 in
  let fetchB := fetch keepPreviousConfig (Some paramsB) None 5000 None afterA in
  let state := Engine.state (engine fetchB) in
  let pruned :=
    match commitSuccess keepPreviousConfig (started fetchB) 2 5000 state with
    | Returns s => s
    | Throws _ => state
    end in
  ∃ written,
    writeSuccess keepPreviousConfig (started fetchB) 2 5000 state = Returns written
    ∧ (∀ entry,
         StoreState.queryCache written !! Operation.currentQueryKey (started fetchB) = Some entry →
         StoreState.queryCache pruned !! Operation.currentQueryKey (started fetchB) = Some entry)
    ∧ (∀ key entry,
         key ≠ Operation.currentQueryKey (started fetchB) →
         (StoreState.queryCache pruned !! key = Some entry
          ↔ StoreState.queryCache written !! key = Some entry ∧ withinCacheTime 5000 entry)).
Proof.
  intros fetchA afterA fetchB state pruned.
  apply (commitSuccess_prunes keepPreviousConfig (started fetchB) 2 5000 state pruned);
    vm_compute; reflexivity.
Defined.

(** ** C5 *)

Lemma noOnError_returns {Raw Data} (config : Config.t Raw Data) (error : Thrown) (n : nat) :
  Config.onError config = None → onErrorReturns config error n.
Proof. intros Hnone onError Hsome. congruence. Qed.

Lemma settle_failure_retryCount_witness :
  let call := fetch defaultConfig None None 1000 None (initialEngine defaultConfig) in
  let after :=
    Engine.state (settle sameData defaultConfig (started call) (Rejected errorX) 1050
                    (engine call)).2 in
  StoreState.status after = Error
  ∧ (∃ recorded info,
       StoreState.queryCache after !! Operation.currentQueryKey (started call) = Some recorded
       ∧ CacheEntry.errorInfo recorded = Some info
       ∧ (1 ≤ ErrorInfo.retryCount info ≤ Config.maxRetries defaultConfig)%nat)
  ∧ (Config.keepPreviousData defaultConfig = true →
     StoreState.queryKey after = Operation.currentQueryKey (started call)).
Proof.
  intros call.
  apply (settle_failure_retryCount sameData defaultConfig (started call) (Rejected errorX) errorX).
  - constructor.
  - reflexivity.
  - reflexivity.
  - vm_compute. lia.
  - by apply noOnError_returns.
Defined.

(** Two runs from a fresh store, each a call to [fetch] whose fetcher
    rejects with [new Error('x')]. With [maxRetries: 0] the state has
    [status = error] and the entry of the fetched key records
    [retryCount = 0], outside [[1, maxRetries]]. With the defaults the state
    has [status = error] and no entry under its [queryKey]: the failure is
    recorded under the key of the fetch, and [queryKey] is still the
    initial one. *)
Lemma status_error_without_bounded_retryCount :
  let run (config : Config.t Z Z) :=
    let call := fetch config None None 1000 None (initialEngine config) in
    Engine.state (settle sameData config (started call) (Rejected errorX) 1050 (engine call)).2 in
  (StoreState.status (run noRetryConfig) = Error
   ∧ CacheEntry.errorInfo <$> StoreState.queryCache (run noRetryConfig) !! getQueryKey []
     = Some (Some (ErrorInfo.mk errorX 1050 0))
   ∧ ¬ (1 ≤ 0 ≤ Config.maxRetries noRetryConfig)%nat)
  ∧ (StoreState.status (run defaultConfig) = Error
     ∧ StoreState.queryCache (run defaultConfig) !! StoreState.queryKey (run defaultConfig)
       = None
     ∧ CacheEntry.errorInfo <$> StoreState.queryCache (run defaultConfig) !! getQueryKey []
       = Some (Some (ErrorInfo.mk errorX 1050 1))).
Proof. vm_compute. repeat split; lia. Qed.

(** ** C6 *)



(** ** C7 *)

Lemma getData_cases_witness :
  let call := fetch defaultConfig None None 1000 None (initialEngine defaultConfig) in
  let w := (settle sameData defaultConfig (started call) (Fulfilled 7) 1050 (engine call)).2 in
  getData defaultConfig (Some []) 2000 w = Some 7
  ∧ getData defaultConfig (Some []) (1050 + 7 * 24 * 60 * 60 * 1000 + 1) w = None
  ∧ getData defaultConfig (Some paramsA) 2000 w = None
  ∧ getData uncachedConfig (Some []) 2000 w = None
  ∧ getData keepPreviousConfig (Some []) (1050 + 7 * 24 * 60 * 60 * 1000 + 1) w = Some 7
  ∧ getData defaultConfig (Some []) (7 * 24 * 60 * 60 * 1000 + 1)
      (settle sameData defaultConfig
         (started (fetch defaultConfig None None 0 None (initialEngine defaultConfig)))
         (Fulfilled 7) 0
         (engine (fetch defaultConfig None None 0 None (initialEngine defaultConfig)))).2
    = Some 7.
Proof.
  intros call w.
  pose (entry := CacheEntry.fetched (Finite (7 * 24 * 60 * 60 * 1000)) (Some 7) 1050).
  split; [|split; [|split; [|split; [|split]]]].
  - destruct (getData_cases defaultConfig (Some []) 2000 w) as (_ & _ & Hplain).
    destruct (Hplain eq_refl eq_refl) as (_ & Hfetched & _).
    destruct (Hfetched entry 1050) as [Hfresh _]; [reflexivity | reflexivity | lia |].
    apply Hfresh. vm_compute. discriminate.
  - destruct (getData_cases defaultConfig (Some []) (1050 + 7 * 24 * 60 * 60 * 1000 + 1) w)
      as (_ & _ & Hplain).
    destruct (Hplain eq_refl eq_refl) as (_ & Hfetched & _).
    destruct (Hfetched entry 1050) as [_ Hexpired]; [reflexivity | reflexivity | lia |].
    apply Hexpired. vm_compute. intros Hle. by apply Hle.
  - destruct (getData_cases defaultConfig (Some paramsA) 2000 w) as (_ & _ & Hplain).
    destruct (Hplain eq_refl eq_refl) as (Habsent & _). by apply Habsent.
  - destruct (getData_cases uncachedConfig (Some []) 2000 w) as (Hdisabled & _).
    by apply Hdisabled.
  - destruct (getData_cases keepPreviousConfig (Some [])
                (1050 + 7 * 24 * 60 * 60 * 1000 + 1) w) as (_ & Hkeep & _).
    by rewrite Hkeep.
  - match goal with |- getData _ _ ?later ?w0 = _ =>
      destruct (getData_cases defaultConfig (Some []) later w0) as (_ & _ & Hplain) end.
    destruct (Hplain eq_refl eq_refl) as (_ & _ & Hfalsy).
    rewrite (Hfalsy (CacheEntry.fetched (Finite (7 * 24 * 60 * 60 * 1000)) (Some 7) 0));
      [reflexivity | by vm_compute | by right].
Defined.

(** A store whose fetch succeeded at timestamp 0 (the entry holds
    [lastFetchedAt = 0] and [cacheTime] of seven days): one millisecond
    after the cache time has passed, [now - lastFetchedAt <= cacheTime]
    is false, yet [getData] still returns the data, not [null]. *)
Lemma getData_serves_expired_zero_timestamp :
  let call := fetch defaultConfig None None 0 None (initialEngine defaultConfig) in
  let w := (settle sameData defaultConfig (started call) (Fulfilled 7) 0 (engine call)).2 in
  let later := 7 * 24 * 60 * 60 * 1000 + 1 in
  Config.disableCache defaultConfig = false
  ∧ Config.keepPreviousData defaultConfig = false
  ∧ StoreState.queryCache (Engine.state w) !! getQueryKey []
    = Some (CacheEntry.fetched (Finite (7 * 24 * 60 * 60 * 1000)) (Some 7) 0)
  ∧ ¬ le_num (later - 0) (Finite (7 * 24 * 60 * 60 * 1000))
  ∧ getData defaultConfig (Some []) later w = Some 7
  ∧ getData defaultConfig (Some []) later w ≠ None.
Proof.
  vm_compute. repeat split; try discriminate. intros Hle. by apply Hle.
Qed.


(** ** C9 *)

Lemma scheduleNextFetch_delay_witness :
  let call := fetch shortStaleConfig None None 1000 None (initialEngine shortStaleConfig) in
  let w := (settle sameData shortStaleConfig (started call) (Fulfilled 7) 1000 (engine call)).2 in
  scheduleNextFetch disabledConfig [] (Some (FetchOptions.mk None false false (Some Infinity)))
    1040 w = w
  ∧ Engine.timers (scheduleNextFetch shortStaleConfig [] None 1040 w)
    = [Timer.mk 3 60 (Some [])].
Proof.
  intros call w. split.
  - destruct (scheduleNextFetch_delay disabledConfig []
                (Some (FetchOptions.mk None false false (Some Infinity))) 1040 w)
      as [Hnoop _].
    apply Hnoop. right. by left.
  - destruct (scheduleNextFetch_delay shortStaleConfig [] None 1040 w) as [_ Harmed].
    destruct (Harmed 100) as (_ & Htimers & _); [reflexivity | reflexivity | lia |].
    rewrite Htimers. vm_compute. reflexivity.
Defined.

(** With [staleTime: 100] the data fetched at time 1000 is stale at time
    1150. [scheduleNextFetch] then hands the timer the delay
    [100 - (1150 - 1000) = -50], not [max 0 (-50) = 0]. *)
Lemma scheduleNextFetch_negative_delay :
  let call := fetch shortStaleConfig None None 1000 None (initialEngine shortStaleConfig) in
  let w := (settle sameData shortStaleConfig (started call) (Fulfilled 7) 1000 (engine call)).2 in
  Config.disableAutoRefetching shortStaleConfig = false
  ∧ effectiveStaleTimeOf shortStaleConfig None = Finite 100
  ∧ knownLastFetchedAt shortStaleConfig (getQueryKey []) w = Some 1000
  ∧ Engine.timers (scheduleNextFetch shortStaleConfig [] None 1150 w)
    = [Timer.mk 3 (-50) (Some [])]
  ∧ -50 ≠ Z.max 0 (100 - (1150 - 1000)).
Proof. vm_compute. by repeat split. Qed.

(** ** C10 *)


(** S3 of the specification, with [maxRetries: 3]: a subscribed store
    whose fetcher always rejects retries on its timer until the count
    reaches [maxRetries], then stops. *)
Example retry_exhaustion_run :
  let subscribed :=
    let w := initialEngine defaultConfig in
    Engine.mk (Engine.state w) (Subscription.mk true 1) (Engine.attachVals w)
      (Engine.directValues w) (Engine.activeAbortController w) (Engine.activeFetch w)
      (Engine.activeRefetchTimeout w) (Engine.lastFetchKey w) (Engine.timers w)
      (Engine.promises w) (Engine.fresh w) (Engine.trace w) in
  let fail (call : Call) (now : Z) :=
    (settle sameData defaultConfig (started call) (Rejected errorX) now (engine call)).2 in
  let retry (w : Engine.t Z) (now : Z) :=
    match Engine.activeRefetchTimeout w ≫= (fun handle => fireTimer defaultConfig handle now None w) with
    | Some call => fail call now
    | None => w
    end in
  let w1 := fail (fetch defaultConfig None None 1000 None subscribed) 1000 in
  let w4 := retry (retry (retry w1 6000) 11000) 16000 in
  retryCountOf (StoreState.queryCache (Engine.state w1) !! getQueryKey []) = 1%nat
  ∧ retryCountOf (StoreState.queryCache (Engine.state w4) !! getQueryKey []) = 3%nat
  ∧ StoreState.status (Engine.state w4) = Error
  ∧ Engine.timers w4 = [].
Proof. vm_compute. by repeat split. Qed.

(** * Further runs *)

Lemma pruneCache_later_pass_witness :
  pruneCache true None 5000 (pruneCache true None 2000 sampleState)
  = pruneCache true None 5000 sampleState.
Proof. apply pruneCache_later_pass. lia. Defined.

Lemma persisted_cache_witness :
  StoreState.queryCache (persistedInternalState true 5000 sampleState) !! "[1]"%string
  = Some (CacheEntry.fetched (Finite 10) (Some 1) 1000).
Proof.
  apply (proj1 (persisted_cache true 5000 sampleState "[1]"
                  (CacheEntry.fetched (Finite 10) (Some 1) 1000))).
  split; [reflexivity|]. right. split; [reflexivity|]. split; [reflexivity | discriminate].
Defined.

Lemma getCurrentResolvedParams_lookup_witness :
  getProp
    (getCurrentResolvedParams (Some [("id"%string, VNum 2)])
       (Some [("id"%string, VNum 1); ("chain"%string, VStr "x")]))
    "id"
  = VNum 2.
Proof.
  destruct (getCurrentResolvedParams_lookup [("id"%string, VNum 2)]
              [("id"%string, VNum 1); ("chain"%string, VStr "x")]) as (Hget & _).
  - refine (bool_decide_unpack _ _). vm_compute. exact I.
  - refine (bool_decide_unpack _ _). vm_compute. exact I.
  - rewrite Hget. reflexivity.
Defined.

Lemma resolveParams_consistent_witness :
  let resolved :=
    resolveParams (StaticParam true)
      [("chain"%string, StaticParam (VNum 1));
       ("address"%string, ResolvableParam (VStr "0xabc"))] in
  getQueryKey
    (getCurrentResolvedParams (Some (Resolved.attachVals resolved))
       (Some (Resolved.directValues resolved)))
  = getQueryKey (Resolved.resolvedParams resolved).
Proof.
  intros resolved.
  destruct (resolveParams_consistent (StaticParam true)
              [("chain"%string, StaticParam (VNum 1));
               ("address"%string, ResolvableParam (VStr "0xabc"))])
    as (_ & _ & _ & Hkey & _).
  - refine (bool_decide_unpack _ _). vm_compute. exact I.
  - exact Hkey.
Defined.

Lemma stale_and_expired_persist_witness :
  isStale shortStaleConfig None 1300 fetchedEngineA = true.
Proof.
  apply (proj1 (stale_and_expired_persist shortStaleConfig None 1200 1300 fetchedEngineA
                  ltac:(lia))).
  vm_compute. reflexivity.
Defined.

Lemma getData_when_not_expired_witness :
  ∃ entry,
    StoreState.queryCache (Engine.state fetchedEngineA)
      !! StoreState.queryKey (Engine.state fetchedEngineA) = Some entry
    ∧ getData keepPreviousConfig None 1005 fetchedEngineA = CacheEntry.data entry.
Proof. apply getData_when_not_expired; reflexivity. Defined.

Lemma stale_boundary_witness :
  isStale keepPreviousConfig None 121000 fetchedEngineA = false
  ∧ cachedResult keepPreviousConfig paramsA (StoreState.queryKey (Engine.state fetchedEngineA))
      None 121000 fetchedEngineA = None.
Proof. apply (stale_boundary keepPreviousConfig paramsA 121000 1000 120000); reflexivity. Defined.

Lemma fetch_fetcher_calls_witness :
  fetcherCalls
    (Engine.trace (engine (fetch defaultConfig None (Some forceOption) 2000 None fetchedEngine)))
  = 2%nat.
Proof.
  destruct (fetch_fetcher_calls defaultConfig None (Some forceOption) 2000 None fetchedEngine)
    as (_ & Hforced & _).
  destruct (Hforced eq_refl) as [Hcalls _]. rewrite Hcalls. reflexivity.
Defined.

Lemma settle_success_witness :
  let call :=
    fetch throwingOnFetchedConfig None None 1000 None (initialEngine throwingOnFetchedConfig) in
  let result :=
    settle sameData throwingOnFetchedConfig (started call) (Fulfilled 7) 1050 (engine call) in
  result.1 = Fulfilled (Some 7)
  ∧ Engine.promises result.2 !! Operation.promise (started call) = Some (Fulfilled (Some 7))
  ∧ Engine.activeFetch result.2 = None
  ∧ StoreState.status (Engine.state result.2) = Success
  ∧ StoreState.error (Engine.state result.2) = None
  ∧ StoreState.queryCache (Engine.state result.2) !! Operation.currentQueryKey (started call)
    = Some (CacheEntry.fetched
              (resolvedCacheTime throwingOnFetchedConfig
                 (Operation.effectiveParams (started call)))
              (Some 7) 1050)
  ∧ Engine.lastFetchKey result.2 = Some (Operation.currentQueryKey (started call)).
Proof.
  intros call result.
  destruct (settle_success sameData throwingOnFetchedConfig (started call) 7 7 1050
              (engine call)) as (Hresult & Hpromise & Hactive & Hquiet);
    [reflexivity | reflexivity | reflexivity | reflexivity |].
  split; [exact Hresult|]. split; [exact Hpromise|]. split; [exact Hactive|].
  apply Hquiet. reflexivity.
Defined.

Lemma getData_after_success_witness :
  let call :=
    fetch throwingOnFetchedConfig None None 1000 None (initialEngine throwingOnFetchedConfig) in
  getData throwingOnFetchedConfig (Some (Operation.effectiveParams (started call))) 2000
    (settle sameData throwingOnFetchedConfig (started call) (Fulfilled 7) 1050 (engine call)).2
  = Some 7.
Proof.
  intros call.
  apply (getData_after_success sameData throwingOnFetchedConfig (started call) 7 7 1050 2000
           (engine call)); try reflexivity.
  right. vm_compute. discriminate.
Defined.

Lemma fetch_cache_hit_witness :
  let call := fetch defaultConfig None None 2000 None fetchedEngine in
  returned call = ReturnValue (Some 7)
  ∧ pending call = None
  ∧ fetcherCalls (Engine.trace (engine call)) = 1%nat.
Proof.
  intros call.
  destruct (fetch_cache_hit defaultConfig None None 2000 1050 None fetchedEngine)
    as (Hreturned & Hpending & Hcalls & _);
    [reflexivity | reflexivity | discriminate | reflexivity | reflexivity
    | intros info Hinfo; vm_compute in Hinfo; discriminate Hinfo |].
  subst call. rewrite Hreturned, Hpending, Hcalls. by vm_compute.
Defined.

Lemma fetch_after_success_witness :
  let first :=
    fetch throwingOnFetchedConfig None None 1000 None (initialEngine throwingOnFetchedConfig) in
  let settled :=
    (settle sameData throwingOnFetchedConfig (started first) (Fulfilled 7) 1050
       (engine first)).2 in
  let call :=
    fetch throwingOnFetchedConfig (Some (Operation.effectiveParams (started first))) None 2000
      None settled in
  returned call = ReturnValue (Some 7)
  ∧ pending call = None
  ∧ fetcherCalls (Engine.trace (engine call)) = fetcherCalls (Engine.trace (engine first)).
Proof.
  intros first.
  apply (fetch_after_success sameData throwingOnFetchedConfig (started first) 7 7 None 1050 2000
           None (engine first)); try reflexivity.
  lia.
Defined.

Lemma settle_skipStoreUpdates_success_witness :
  let probe := fetch defaultConfig None (Some probeOption) 2000 None fetchedEngine in
  let result := settle sameData defaultConfig (started probe) (Fulfilled 8) 2050 (engine probe) in
  result.1 = Fulfilled (Some 8)
  ∧ Engine.state result.2 = Engine.state (engine probe)
  ∧ Engine.activeFetch result.2 = Engine.activeFetch (engine probe)
  ∧ Engine.lastFetchKey result.2 = Engine.lastFetchKey (engine probe)
  ∧ Engine.activeRefetchTimeout result.2 = Engine.activeRefetchTimeout (engine probe)
  ∧ Engine.timers result.2 = Engine.timers (engine probe)
  ∧ Engine.trace result.2 = Engine.trace (engine probe).
Proof.
  intros probe.
  apply (settle_skipStoreUpdates_success sameData defaultConfig (started probe) 8 8 2050
           (engine probe)); reflexivity.
Defined.

Lemma retry_timer_witness :
  let call := fetch defaultConfig None None 1000 None (subscribedEngine defaultConfig) in
  let w' := (settle sameData defaultConfig (started call) (Rejected errorX) 1050 (engine call)).2 in
  Engine.timers w' = [Timer.mk 2 5000 None]
  ∧ Engine.activeRefetchTimeout w' = Some 2%nat.
Proof.
  intros call w'.
  destruct (retry_timer sameData defaultConfig (started call) (Rejected errorX) errorX 1050
              (engine call)) as [Harmed _];
    [constructor | reflexivity | reflexivity | by apply noOnError_returns |].
  destruct (Harmed 5000) as [Htimers Hslot]; [vm_compute; lia | vm_compute; lia | reflexivity |].
  subst w'. rewrite Htimers, Hslot. by vm_compute.
Defined.

Lemma retry_timer_without_cache_witness :
  let call := fetch uncachedConfig None None 1000 None (subscribedEngine uncachedConfig) in
  let w' := (settle sameData uncachedConfig (started call) (Rejected errorX) 1050 (engine call)).2 in
  Engine.timers w'
  = Engine.timers (engine call) ++ [Timer.mk (Engine.fresh (engine call)) 5000 None]
  ∧ Engine.activeRefetchTimeout w' = Some (Engine.fresh (engine call)).
Proof.
  intros call.
  apply (retry_timer_without_cache sameData uncachedConfig (started call) (Rejected errorX)
           errorX 1050 5000 (engine call));
    [constructor | reflexivity | reflexivity | reflexivity | by apply noOnError_returns
    | vm_compute; lia | vm_compute; lia | reflexivity].
Defined.

Lemma fetch_after_aborted_settle_witness :
  let fetchA := fetch defaultConfig (Some paramsA) None 1000 None (initialEngine defaultConfig) in
  let fetchB := fetch defaultConfig (Some paramsB) None 1010 None (engine fetchA) in
  let settled :=
    (settle sameData defaultConfig (started fetchA) (Rejected ABORT_ERROR) 1020 (engine fetchB)).2 in
  let again := fetch defaultConfig (Some paramsB) None 1030 None settled in
  Engine.activeFetch settled = None
  ∧ StoreState.status (Engine.state settled) = StoreState.status (Engine.state (engine fetchB))
  ∧ fetcherCalls (Engine.trace (engine again)) = S (fetcherCalls (Engine.trace (engine fetchB)))
  ∧ ∃ p, returned again = ReturnPromise p.
Proof.
  intros fetchA fetchB.
  apply (fetch_after_aborted_settle sameData defaultConfig (started fetchA) ABORT_ERROR
           (Some paramsB) None 1020 1030 None (engine fetchB)); reflexivity.
Defined.


Lemma abort_leaves_loading_witness :
  let call := fetch defaultConfig None None 1000 None (subscribedEngine defaultConfig) in
  let w' :=
    (settle sameData defaultConfig (started call) (Rejected ABORT_ERROR) 1050
       (onLastUnsubscribe defaultConfig (engine call))).2 in
  StoreState.status (Engine.state w') = Loading
  ∧ QueryStatusInfo.isFetching (getStatus defaultConfig w') = true
  ∧ Engine.activeFetch w' = None
  ∧ Engine.activeRefetchTimeout w' = None
  ∧ (Config.abortInterruptedFetches defaultConfig = true → Engine.activeAbortController w' = None).
Proof.
  intros call.
  apply (abort_leaves_loading sameData defaultConfig (started call) ABORT_ERROR 1050
           (engine call)); reflexivity.
Defined.

Lemma onSubscribe_queryKey_witness :
  let first := onSubscribe defaultConfig true true false 1000 None (initialEngine defaultConfig) in
  Reaction.fetchAfterParamCreation first = false
  ∧ StoreState.queryKey (Engine.state (Reaction.engine first)) = getQueryKey [].
Proof.
  intros first.
  destruct (onSubscribe_queryKey defaultConfig false 1000 None (initialEngine defaultConfig))
    as (Hflag & Hkey & _); [right; right; reflexivity|].
  split; [exact Hflag | exact Hkey].
Defined.

Lemma onParamChange_queryKey_witness :
  StoreState.queryKey
    (Engine.state (engine (onParamChange disabledConfig 1000 None (initialEngine disabledConfig))))
  = getQueryKey []
  ∧ onParamChange disabledKeepPreviousConfig 1000 None
      (initialEngine disabledKeepPreviousConfig)
    = mkCall (ReturnValue None) None (initialEngine disabledKeepPreviousConfig).
Proof.
  split.
  - by apply (proj1 (onParamChange_queryKey disabledConfig 1000 None
                       (initialEngine disabledConfig))).
  - by apply (proj2 (onParamChange_queryKey disabledKeepPreviousConfig 1000 None
                       (initialEngine disabledKeepPreviousConfig))).
Defined.

Lemma fetch_shares_promise_witness :
  let first := fetch defaultConfig None None 1000 None (initialEngine defaultConfig) in
  fetch defaultConfig None None 1005 None (engine first)
  = mkCall (ReturnPromise (Operation.promise (started first))) None (engine first).
Proof.
  intros first.
  apply (fetch_shares_promise defaultConfig None None None 1000 1005 None None
           (initialEngine defaultConfig) (started first)); reflexivity.
Defined.

Lemma settle_never_rejects_witness :
  let call := fetch defaultConfig None None 1000 None (initialEngine defaultConfig) in
  ∃ value,
    (settle sameData defaultConfig (started call) (Rejected errorX) 1050 (engine call)).1
    = Fulfilled value.
Proof.
  intros call. apply settle_never_rejects.
  intros typedError retryCount. by apply noOnError_returns.
Defined.

Lemma fireTimer_subscription_witness :
  let first := fetch defaultConfig None None 1000 None (subscribedEngine defaultConfig) in
  let failed :=
    (settle sameData defaultConfig (started first) (Rejected errorX) 1050 (engine first)).2 in
  ∃ call,
    fireTimer defaultConfig 2 6050 None failed = Some call
    ∧ fetcherCalls (Engine.trace (engine call)) = 2%nat
    ∧ ∃ p, returned call = ReturnPromise p.
Proof.
  intros first failed.
  destruct (fireTimer defaultConfig 2 6050 None failed) as [call|] eqn:Hfire;
    [|by vm_compute in Hfire].
  exists call. split; [reflexivity|].
  destruct (proj1 (fireTimer_subscription defaultConfig 2 6050 None failed) call Hfire)
    as [Hsubscribed _].
  destruct Hsubscribed as [Hcalls Hpromise]; [reflexivity | vm_compute; lia |].
  rewrite Hcalls. split; [by vm_compute | exact Hpromise].
Defined.


(** ** [onFetched] with the [fetch] it is handed *)

(** [onFetched] makes a forced fetch after the first fetch has
    succeeded: the fetcher is called a second time and the new operation
    is pending (its controller is the active one, its promise is not
    settled), but the [finally] of the first operation then clears
    [activeFetch], so the store is left in [loading] with no fetch
    recorded. *)
Example onFetched_refetch_run :
  let call := fetch refetchingConfig None None 1000 None (initialEngine refetchingConfig) in
  let result := settle sameData refetchingConfig (started call) (Fulfilled 7) 1050 (engine call) in
  result.1 = Fulfilled (Some 7)
  ∧ fetcherCalls (Engine.trace result.2) = 2%nat
  ∧ StoreState.status (Engine.state result.2) = Loading
  ∧ Engine.activeFetch result.2 = None
  ∧ Engine.activeAbortController result.2 = Some 3%nat
  ∧ Engine.promises result.2 !! Operation.promise (started call) = Some (Fulfilled (Some 7))
  ∧ Engine.promises result.2 !! 4%nat = None
  ∧ Engine.fresh result.2 = 5%nat.
Proof. vm_compute. by repeat split. Qed.
